(** * BAE: error-curve binning and query-count conversions

    A shallow embedding of [src/utils/binning.py] (the binner, the
    aggregator, the curves through a fixed point and the generated point
    sets), of [src/algorithms/QAE_emulator.py] (the query-count
    conversions, the outcome probabilities and the driver
    [TestQAE.sqe_evolution_multiple]) and of the driver
    [TestBAE.sqe_evolution_multiple] of [src/algorithms/BAE_testing.py].

    Numbers.  The Python code computes with IEEE-754 doubles (numpy and
    pandas).  They are embedded as exact real numbers extended with the
    three special values [+inf], [-inf] and [nan]; the operations follow
    the IEEE rules on the special values (and on division by zero) and are
    exact on finite values: rounding, signed zeros and overflow to infinity
    are outside the model.  The one overflow that raises an exception in
    Python, the true division of two integers, is modelled.

    Libraries.  [np.linspace], [np.logspace], [pandas.cut], [groupby],
    [mean], [median] and [dropna] are embedded from their documented
    behaviour (numpy 1.x/2.x, pandas 2.1 and later, the versions whose
    warning the source silences with [observed = True]); the two fitting
    routines of scipy are parameters. *)

From Stdlib Require Import Reals Lra Lia ZArith String Bool List Sorted
  Permutation.
Import ListNotations.

Local Open Scope R_scope.

(** ** Python exceptions and results *)

Inductive exn : Type :=
| ValueError
| KeyError
| IndexError
| TypeError
| OverflowError
| ZeroDivisionError
| UnboundLocalError
| AssertionError
| RuntimeError
| ConfigurationError.

Inductive result (A : Type) : Type :=
| Ok (a : A)
| Raise (e : exn).

Arguments Ok {A} a.
Arguments Raise {A} e.

Definition bind {A B : Type} (c : result A) (k : A -> result B) : result B :=
  match c with
  | Ok a => k a
  | Raise e => Raise e
  end.

Notation "x <- c ;; k" := (bind c (fun x => k))
  (at level 61, c at next level, right associativity).

(** ** Extended reals *)

Inductive val : Type :=
| Fin (r : R)
| PInf
| NInf
| NaN.

Definition Rltb (a b : R) : bool := if Rlt_dec a b then true else false.
Definition Rleb (a b : R) : bool := if Rle_dec a b then true else false.
Definition Reqb (a b : R) : bool := if Req_dec_T a b then true else false.

Definition isnan (v : val) : bool :=
  match v with NaN => true | _ => false end.

Definition notna (v : val) : bool := negb (isnan v).

Definition vopp (v : val) : val :=
  match v with
  | Fin r => Fin (- r)
  | PInf => NInf
  | NInf => PInf
  | NaN => NaN
  end.

Definition vadd (a b : val) : val :=
  match a, b with
  | NaN, _ | _, NaN => NaN
  | Fin x, Fin y => Fin (x + y)
  | PInf, NInf | NInf, PInf => NaN
  | PInf, _ | _, PInf => PInf
  | NInf, _ | _, NInf => NInf
  end.

Definition vsub (a b : val) : val := vadd a (vopp b).

(** The infinity with the sign of [r], [nan] for [r = 0]. *)
Definition inf_signed (r : R) : val :=
  if Rltb 0 r then PInf else if Rltb r 0 then NInf else NaN.

Definition vmul (a b : val) : val :=
  match a, b with
  | NaN, _ | _, NaN => NaN
  | Fin x, Fin y => Fin (x * y)
  | Fin x, PInf | PInf, Fin x => inf_signed x
  | Fin x, NInf | NInf, Fin x => inf_signed (- x)
  | PInf, PInf | NInf, NInf => PInf
  | PInf, NInf | NInf, PInf => NaN
  end.

(** numpy division: a zero divisor gives an infinity or [nan], with a
    warning and no exception. *)
Definition vdiv (a b : val) : val :=
  match a, b with
  | NaN, _ | _, NaN => NaN
  | Fin x, Fin y => if Reqb y 0 then inf_signed x else Fin (x / y)
  | Fin _, PInf | Fin _, NInf => Fin 0
  | PInf, Fin y => if Rltb y 0 then NInf else PInf
  | NInf, Fin y => if Rltb y 0 then PInf else NInf
  | PInf, PInf | PInf, NInf | NInf, PInf | NInf, NInf => NaN
  end.

(** [np.log]: [-inf] at zero and [nan] below, with a warning. *)
Definition vlog (v : val) : val :=
  match v with
  | Fin r => if Rltb 0 r then Fin (ln r) else if Reqb r 0 then NInf else NaN
  | PInf => PInf
  | NInf => NaN
  | NaN => NaN
  end.

Definition vexp (v : val) : val :=
  match v with
  | Fin r => Fin (exp r)
  | PInf => PInf
  | NInf => Fin 0
  | NaN => NaN
  end.

Definition is_integer (r : R) : bool := Reqb r (IZR (Zfloor r)).
Definition is_odd_integer (r : R) : bool :=
  is_integer r && Z.odd (Zfloor r).

(** [x ** y] on finite operands (C [pow]). *)
Definition Rpow_fin (x y : R) : val :=
  if Reqb y 0 then Fin 1
  else if Rltb 0 x then Fin (Rpower x y)
  else if Reqb x 0 then (if Rltb 0 y then Fin 0 else PInf)
  else if is_integer y
       then Fin ((if Z.odd (Zfloor y) then -1 else 1) * Rpower (- x) y)
       else NaN.

Definition vpow (a b : val) : val :=
  match a, b with
  | _, Fin y =>
      if Reqb y 0 then Fin 1
      else match a with
           | Fin x => Rpow_fin x y
           | PInf => if Rltb y 0 then Fin 0 else PInf
           | NInf => if Rltb y 0 then Fin 0
                     else if is_odd_integer y then NInf else PInf
           | NaN => NaN
           end
  | Fin x, PInf =>
      if Reqb (Rabs x) 1 then Fin 1
      else if Rltb (Rabs x) 1 then Fin 0 else PInf
  | Fin x, NInf =>
      if Reqb (Rabs x) 1 then Fin 1
      else if Rltb (Rabs x) 1 then PInf else Fin 0
  | Fin x, NaN => if Reqb x 1 then Fin 1 else NaN
  | PInf, PInf | NInf, PInf => PInf
  | PInf, NInf | NInf, NInf => Fin 0
  | NaN, _ | _, NaN => NaN
  end.

(** Comparisons: every comparison with [nan] is false. *)
Definition vltb (a b : val) : bool :=
  match a, b with
  | Fin x, Fin y => Rltb x y
  | Fin _, PInf | NInf, Fin _ | NInf, PInf => true
  | _, _ => false
  end.

Definition vleb (a b : val) : bool :=
  match a, b with
  | Fin x, Fin y => Rleb x y
  | Fin _, PInf | NInf, Fin _ | NInf, PInf | PInf, PInf | NInf, NInf => true
  | _, _ => false
  end.

Definition veqb (a b : val) : bool :=
  match a, b with
  | Fin x, Fin y => Reqb x y
  | PInf, PInf | NInf, NInf => true
  | _, _ => false
  end.

(** ** Python numbers: unbounded integers and floats *)

Inductive pynum : Type :=
| PInt (z : Z)
| PFloat (v : val).

(** The integers that round to a finite double: below the midpoint of the
    largest double and [2^1024]. *)
Definition float_overflow_bound : Z := (2 ^ 1024 - 2 ^ 970)%Z.

(** [float(z)]: "int too large to convert to float". *)
Definition int_to_float (z : Z) : result val :=
  if (float_overflow_bound <=? Z.abs z)%Z then Raise OverflowError
  else Ok (Fin (IZR z)).

Definition py_add (a b : pynum) : result pynum :=
  match a, b with
  | PInt x, PInt y => Ok (PInt (x + y))
  | PInt x, PFloat v => f <- int_to_float x ;; Ok (PFloat (vadd f v))
  | PFloat v, PInt y => f <- int_to_float y ;; Ok (PFloat (vadd v f))
  | PFloat v, PFloat w => Ok (PFloat (vadd v w))
  end.

Definition py_mul (a b : pynum) : result pynum :=
  match a, b with
  | PInt x, PInt y => Ok (PInt (x * y))
  | PInt x, PFloat v => f <- int_to_float x ;; Ok (PFloat (vmul f v))
  | PFloat v, PInt y => f <- int_to_float y ;; Ok (PFloat (vmul v f))
  | PFloat v, PFloat w => Ok (PFloat (vmul v w))
  end.

(** [a / b]: true division.  On two integers the quotient is computed
    from the integers themselves and raises when it does not fit a
    double; a zero divisor raises. *)
Definition py_truediv (a b : pynum) : result val :=
  match a, b with
  | PInt x, PInt y =>
      if (y =? 0)%Z then Raise ZeroDivisionError
      else if (float_overflow_bound * Z.abs y <=? Z.abs x)%Z
           then Raise OverflowError
           else Ok (Fin (IZR x / IZR y))
  | PInt x, PFloat w =>
      f <- int_to_float x ;;
      if veqb w (Fin 0) then Raise ZeroDivisionError else Ok (vdiv f w)
  | PFloat v, PInt y =>
      f <- int_to_float y ;;
      if (y =? 0)%Z then Raise ZeroDivisionError else Ok (vdiv v f)
  | PFloat v, PFloat w =>
      if veqb w (Fin 0) then Raise ZeroDivisionError else Ok (vdiv v w)
  end.

(** [2 ** m] on an integer [m]: an integer for [m >= 0], a float below. *)
Definition py_pow2 (m : Z) : pynum :=
  if (0 <=? m)%Z then PInt (2 ^ m) else PFloat (Fin (Rpower 2 (IZR m))).

Definition vlog2 (v : val) : val := vdiv (vlog v) (Fin (ln 2)).

(** Rounding to the nearest integer, ties to the even one. *)
Definition round_half_even (r : R) : Z :=
  let f := Zfloor r in
  let d := r - IZR f in
  if Rltb d (1 / 2) then f
  else if Rltb (1 / 2) d then (f + 1)%Z
  else if Z.even f then f else (f + 1)%Z.

(** [int(round(v))]. *)
Definition py_round (v : val) : result Z :=
  match v with
  | Fin r => Ok (round_half_even r)
  | PInf | NInf => Raise OverflowError
  | NaN => Raise ValueError
  end.

(** ** [QAEemulator]: query counts ([src/algorithms/QAE_emulator.py]) *)

Module QAEemulator.

Section Conversions.

(** [expb10] comes from [src/utils/misc.py]; it is only reached with
    [b10 = True]. *)
Variable expb10 : pynum -> result pynum.

(** [Nq_from_m(m, nshots, b10 = False)] *)
Definition Nq_from_m (m nshots : Z) (b10 : bool) : result pynum :=
  t <- py_mul (PInt 2) (py_pow2 m) ;;
  Nq_per_shot <- py_add t (PInt 1) ;;
  Nq <- py_mul Nq_per_shot (PInt nshots) ;;
  if b10 then expb10 Nq else Ok Nq.

(** [m_from_Nq(Nq_target, nshots)] *)
Definition m_from_Nq (Nq_target : pynum) (nshots : Z) : result Z :=
  q <- py_truediv Nq_target (PInt nshots) ;;
  let m_float := vsub (vlog2 (vsub q (Fin 1))) (Fin 1) in
  py_round m_float.

(** [m_from_Nq(Nq_from_m(m, nshots), nshots)] *)
Definition roundtrip (m nshots : Z) : result Z :=
  Nq <- Nq_from_m m nshots false ;;
  m_from_Nq Nq nshots.

End Conversions.

End QAEemulator.

(** ** Python built-ins on lists *)

(** [min(xs)] and [max(xs)]: the first element that no later one beats;
    [ValueError] on an empty sequence. *)
Definition py_min (xs : list val) : result val :=
  match xs with
  | [] => Raise ValueError
  | a :: t =>
      Ok (fold_left (fun best item => if vltb item best then item else best) t a)
  end.

Definition py_max (xs : list val) : result val :=
  match xs with
  | [] => Raise ValueError
  | a :: t =>
      Ok (fold_left (fun best item => if vltb best item then item else best) t a)
  end.

(** [l[i]] *)
Definition py_index {A : Type} (l : list A) (i : nat) : result A :=
  match nth_error l i with
  | Some a => Ok a
  | None => Raise IndexError
  end.

(** [[f(a) for a in l]] with a body that may raise. *)
Fixpoint map_result {A B : Type} (f : A -> result B) (l : list A)
  : result (list B) :=
  match l with
  | [] => Ok []
  | a :: t => b <- f a ;; bs <- map_result f t ;; Ok (b :: bs)
  end.

(** ** numpy *)

(** [y[-1] = stop] *)
Definition set_last (y : list val) (stop : val) : list val :=
  removelast y ++ [stop].

(** [np.linspace(start, stop, num)] (endpoint included). *)
Definition linspace (start stop : val) (num : Z) : result (list val) :=
  if (num <? 0)%Z then Raise ValueError
  else
    let div := (num - 1)%Z in
    let delta := vsub stop start in
    let ar := map (fun i => Fin (INR i)) (seq 0 (Z.to_nat num)) in
    let y :=
      if (0 <? div)%Z then
        let step := vdiv delta (Fin (IZR div)) in
        if veqb step (Fin 0)
        then map (fun i => vmul (vdiv i (Fin (IZR div))) delta) ar
        else map (fun i => vmul i step) ar
      else map (fun i => vmul i delta) ar in
    let y := map (fun v => vadd v start) y in
    Ok (if (1 <? num)%Z then set_last y stop else y).

(** [np.logspace(start, stop, num, base = base)] *)
Definition logspace (start stop : val) (num : Z) (base : val)
  : result (list val) :=
  y <- linspace start stop num ;;
  Ok (map (vpow base) y).

(** [np.e] *)
Definition np_e : val := Fin (exp 1).

(** [np.insert(arr, 0, v)] *)
Definition np_insert0 {A : Type} (arr : list A) (v : A) : list A := v :: arr.

(** ** pandas *)

(** A categorical column: the number of categories (the bucket
    intervals, in increasing order) and one code per row, [None] for a
    row outside every interval. *)
Record Categorical : Type := mkCat {
  ncat : nat;
  codes : list (option nat)
}.

(** A frame with the columns this program creates: [x], [y], [slope]
    (only with a fixed point) and [bin] (once binned). *)
Record DataFrame : Type := mkDF {
  index : list nat;
  col_x : list val;
  col_y : list val;
  col_slope : option (list val);
  col_bin : option Categorical
}.

(** [DataFrame({...})]: the columns must have one length. *)
Definition new_frame (xs ys : list val) (slopes : option (list val))
  : result DataFrame :=
  let same :=
    Nat.eqb (length xs) (length ys) &&
    match slopes with
    | None => true
    | Some s => Nat.eqb (length xs) (length s)
    end in
  if same then Ok (mkDF (seq 0 (length xs)) xs ys slopes None)
  else Raise ValueError.

(** [Index.is_monotonic_increasing]: no [nan], each element at most the
    next one. *)
Fixpoint is_monotonic_increasing (l : list val) : bool :=
  match l with
  | [] => true
  | a :: t =>
      notna a &&
      match t with [] => true | b :: _ => vleb a b end &&
      is_monotonic_increasing t
  end.

Fixpoint has_duplicates (l : list val) : bool :=
  match l with
  | [] => false
  | a :: t => existsb (veqb a) t || has_duplicates t
  end.

(** [bins.searchsorted(x, side = "left")] on increasing [bins]: the
    number of edges strictly below [x]. *)
Definition searchsorted_left (bins : list val) (x : val) : nat :=
  length (filter (fun b => vltb b x) bins).

(** The code [cut] gives one value: edge intervals are closed on the
    right, the lowest edge is included, everything else is missing. *)
Definition cut_code (bins : list val) (b0 : val) (x : val) : option nat :=
  let ids := searchsorted_left bins x in
  let ids := if veqb x b0 then 1%nat else ids in
  if isnan x || Nat.eqb ids (length bins) || Nat.eqb ids 0 then None
  else Some (ids - 1)%nat.

(** [cut(x, bins = bins, include_lowest = True)] with an array of
    edges: [ValueError] when the edges do not increase or (unless there
    are exactly two) are not unique, [IndexError] on [bins[0]] when there
    is no edge. *)
Definition cut (x bins : list val) : result Categorical :=
  if negb (is_monotonic_increasing bins) then Raise ValueError
  else if has_duplicates bins && negb (Nat.eqb (length bins) 2)
       then Raise ValueError
       else match bins with
            | [] => Raise IndexError
            | b0 :: _ =>
                Ok (mkCat (length bins - 1) (map (cut_code bins b0) x))
            end.

Definition code_is (k : nat) (c : option nat) : bool :=
  match c with
  | Some j => Nat.eqb j k
  | None => false
  end.

(** The categories that occur, in category order ([observed = True],
    sorted group keys). *)
Definition observed_keys (c : Categorical) : list nat :=
  filter (fun k => existsb (code_is k) (codes c)) (seq 0 (ncat c)).

(** The entries of a column in the rows of group [k]. *)
Definition select {A : Type} (k : nat) (cs : list (option nat)) (col : list A)
  : list A :=
  map snd (filter (fun p => code_is k (fst p)) (combine cs col)).

(** [df.groupby("bin", observed = True).groups] *)
Definition groups (df : DataFrame) : result (list (nat * list nat)) :=
  match col_bin df with
  | None => Raise KeyError
  | Some c =>
      Ok (map (fun k => (k, select k (codes c) (index df))) (observed_keys c))
  end.

Definition vsum (l : list val) : val := fold_left vadd l (Fin 0).

(** Group mean: missing values are skipped, a group without a value
    gives [nan]. *)
Definition mean (l : list val) : val :=
  match filter notna l with
  | [] => NaN
  | a :: t => vdiv (vsum (a :: t)) (Fin (INR (length (a :: t))))
  end.

Fixpoint insert_sorted (v : val) (l : list val) : list val :=
  match l with
  | [] => [v]
  | a :: t => if vleb v a then v :: a :: t else a :: insert_sorted v t
  end.

Definition sort (l : list val) : list val :=
  fold_right insert_sorted [] l.

(** Group median: missing values are skipped; the middle value, or the
    mean of the two middle ones. *)
Definition median (l : list val) : val :=
  let s := sort (filter notna l) in
  let n := length s in
  match n with
  | O => NaN
  | _ =>
      if Nat.even n
      then vdiv (vadd (nth (n / 2 - 1) s NaN) (nth (n / 2) s NaN)) (Fin 2)
      else nth (n / 2) s NaN
  end.

(** [df.groupby(["bin"], observed = True).agg()]: one row per observed
    category, every other column aggregated. *)
Definition groupby_agg (agg : list val -> val) (df : DataFrame)
  : result DataFrame :=
  match col_bin df with
  | None => Raise KeyError
  | Some c =>
      let keys := observed_keys c in
      let column col := map (fun k => agg (select k (codes c) col)) keys in
      Ok (mkDF keys (column (col_x df)) (column (col_y df))
               (option_map column (col_slope df)) None)
  end.

Definition filter_mask {A : Type} (mask : list bool) (l : list A) : list A :=
  map snd (filter fst (combine mask l)).

(** Row [i] has no missing value. *)
Definition row_notna (df : DataFrame) (i : nat) : bool :=
  notna (nth i (col_x df) NaN) &&
  notna (nth i (col_y df) NaN) &&
  match col_slope df with
  | None => true
  | Some s => notna (nth i s NaN)
  end &&
  match col_bin df with
  | None => true
  | Some c => match nth i (codes c) None with Some _ => true | None => false end
  end.

(** [df.dropna()] *)
Definition dropna (df : DataFrame) : DataFrame :=
  let mask := map (row_notna df) (seq 0 (length (index df))) in
  mkDF (filter_mask mask (index df))
       (filter_mask mask (col_x df))
       (filter_mask mask (col_y df))
       (option_map (filter_mask mask) (col_slope df))
       (option_map (fun c => mkCat (ncat c) (filter_mask mask (codes c)))
                   (col_bin df)).

(** [df["x"] = f(df["x"]); df["y"] = f(df["y"])] *)
Definition map_xy (f : val -> val) (df : DataFrame) : DataFrame :=
  mkDF (index df) (map f (col_x df)) (map f (col_y df))
       (col_slope df) (col_bin df).

(** [df["slope"]] *)
Definition get_slope (df : DataFrame) : result (list val) :=
  match col_slope df with
  | Some s => Ok s
  | None => Raise KeyError
  end.

(** ** The binner and the aggregator ([src/utils/binning.py]) *)

Module Binning.

Definition point : Type := (val * val)%type.

(** [strats] and the module-level dictionary [STRAT_USED], here its
    initial value; the dictionary is threaded through the calls. *)
Definition strats : list string :=
  ["y_mean"; "y_median"; "slope_mean"; "slope_median"; "fit"; "spline"]%string.

Definition dict : Type := list (string * bool).

Definition STRAT_USED : dict := map (fun s => (s, false)) strats.

(** [d[k]] *)
Fixpoint dict_get (d : dict) (k : string) : result bool :=
  match d with
  | [] => Raise KeyError
  | (k', v) :: t => if String.eqb k k' then Ok v else dict_get t k
  end.

(** [d[k] = v] *)
Fixpoint dict_set (d : dict) (k : string) (v : bool) : dict :=
  match d with
  | [] => [(k, v)]
  | (k', v') :: t =>
      if String.eqb k k' then (k', v) :: t else (k', v') :: dict_set t k v
  end.

(** [logscale(f)]: [f] on the logarithms of its two points. *)
Definition logscale (f : point -> point -> val) : point -> point -> val :=
  fun reference pt =>
    f (vlog (fst reference), vlog (snd reference))
      (vlog (fst pt), vlog (snd pt)).

(** [calculate_slope(reference, point)], decorated with [logscale]. *)
Definition calculate_slope : point -> point -> val :=
  logscale (fun reference pt =>
    let '(x0, y0) := reference in
    let '(x, y) := pt in
    vdiv (vsub y0 y) (vsub x0 x)).

(** The body of [eval_power_function] once the fixed point is unpacked. *)
Definition power_law (fixed_point : point) (x power : val) : val :=
  let '(x0, y0) := fixed_point in
  let const := vmul x0 y0 in
  vmul const (vpow x power).

(** [eval_power_function(x, power, fixed_point)] on numbers; unpacking
    [None] is a [TypeError]. *)
Definition eval_power_function (x power : val) (fixed_point : option point)
  : result val :=
  match fixed_point with
  | None => Raise TypeError
  | Some fp => Ok (power_law fp x power)
  end.

(** [eval_power_function] on two columns of one frame. *)
Definition eval_power_function_series (x power : list val)
  (fixed_point : option point) : result (list val) :=
  match fixed_point with
  | None => Raise TypeError
  | Some fp => Ok (map (fun p => power_law fp (fst p) (snd p)) (combine x power))
  end.

(** [power_function(power, fixed_point)] *)
Definition power_function (power : val) (fixed_point : point) : val -> val :=
  fun x => power_law fixed_point x power.

(** [to_log(point)] *)
Definition to_log (pt : point) : point := (vlog (fst pt), vlog (snd pt)).

(** [bin_by_values(df, xrange, nbins, by = "x", scale = "log")]: the
    frame with its new [bin] column, the groups and the edges.  [nbins] is
    the number of edges; the argument [by] is never read. *)
Definition bin_by_values (df : DataFrame) (xrange : point) (nbins : Z)
  (scale : string) : result (DataFrame * list (nat * list nat) * list val) :=
  bins <- (if String.eqb scale "log"
           then b <- logspace (vlog (fst xrange)) (vlog (snd xrange))
                              nbins np_e ;;
                Ok (Some b)
           else Ok None) ;;
  bins <- (if String.eqb scale "linear"
           then b <- linspace (fst xrange) (snd xrange) nbins ;; Ok (Some b)
           else Ok bins) ;;
  match bins with
  | None => Raise UnboundLocalError
  | Some bins =>
      c <- cut (col_x df) bins ;;
      let df' := mkDF (index df) (col_x df) (col_y df) (col_slope df) (Some c) in
      binned_indices <- groups df' ;;
      Ok (df', binned_indices, bins)
  end.

(** [group_points(xs, ys, binned_indices)] *)
Definition group_points (xs ys : list val)
  (binned_indices : list (nat * list nat)) : result (list (list point)) :=
  map_result
    (fun entry =>
       let idx_list := snd entry in
       group_xs <- map_result (py_index xs) idx_list ;;
       group_ys <- map_result (py_index ys) idx_list ;;
       Ok (combine group_xs group_ys))
    binned_indices.

(** What [bin_and_average] returns: [xs], [ys] and, with
    [full_output], the edges and the grouped points. *)
Record output : Type := mkOut {
  out_xs : list val;
  out_ys : list val;
  out_full : option (list val * list (list point))
}.

Definition half : val := Fin (1 / 2).

(** [xs[1:-1]] *)
Definition inner {A : Type} (l : list A) : list A := removelast (tl l).

Section Aggregator.

(** The two fitting routines of scipy: [opt.curve_fit(f, xs, ys)],
    reduced to the fitted exponent, and
    [interp.LSQUnivariateSpline(xs, ys, t)], the fitted spline. *)
Variable curve_fit :
  (val -> val -> result val) -> list val -> list val -> result val.
Variable LSQUnivariateSpline :
  list val -> list val -> list val -> result (val -> val).

(** Lines 35-44: the range and the frame. *)
Definition prepare (xs ys : list val) (fixed_point : option point)
  (strategy : string) : result (point * DataFrame) :=
  lo <- py_min xs ;;
  hi <- py_max xs ;;
  let xrange := (lo, hi) in
  match fixed_point with
  | None =>
      if String.eqb strategy "slope" then Raise AssertionError
      else df <- new_frame xs ys None ;; Ok (xrange, df)
  | Some fp =>
      let fixed_point_sq := (fst fp, vpow (snd fp) (Fin 2)) in
      let slopes := map (calculate_slope fixed_point_sq) (combine xs ys) in
      df <- new_frame xs ys (Some slopes) ;; Ok (xrange, df)
  end.

(** The inward-shrunk evaluation points of [fit] and [spline]. *)
Definition shrunk_logspace (xrange : point) (nbins : Z) : result (list val) :=
  let binwidth := vdiv (vsub (snd xrange) (fst xrange)) (Fin (IZR nbins)) in
  let x0 := vadd (fst xrange) (vdiv binwidth (Fin 2)) in
  let x1 := vsub (snd xrange) (vdiv binwidth (Fin 2)) in
  logspace x0 x1 nbins np_e.

Definition is_mean (strategy : string) : bool :=
  String.eqb strategy "y_mean" || String.eqb strategy "slope_mean".
Definition is_median (strategy : string) : bool :=
  String.eqb strategy "y_median" || String.eqb strategy "slope_median".
Definition is_y (strategy : string) : bool :=
  String.eqb strategy "y_mean" || String.eqb strategy "y_median".
Definition is_slope (strategy : string) : bool :=
  String.eqb strategy "slope_mean" || String.eqb strategy "slope_median".

(** Lines 60-74: the frame after grouping. *)
Definition aggregate_frame (df : DataFrame) (strategy : string)
  (logdomain : bool) : result DataFrame :=
  let df := if logdomain then map_xy vlog df else df in
  df <- (if is_mean strategy
         then g <- groupby_agg mean df ;; Ok (dropna g) else Ok df) ;;
  df <- (if is_median strategy
         then g <- groupby_agg median df ;; Ok (dropna g) else Ok df) ;;
  Ok (if logdomain then map_xy vexp df else df).

(** Lines 76-121: the curve of each strategy. *)
Definition curve (df : DataFrame) (xrange : point) (ys : list val)
  (fixed_point : option point) (nbins : Z) (ypower : val)
  (strategy : string) : result (list val * list val) :=
  let xs := col_x df in
  ys <- (if is_y strategy
         then Ok (map (fun y => vpow y ypower) (col_y df)) else Ok ys) ;;
  ys <- (if is_slope strategy
         then s <- get_slope df ;;
              ys <- eval_power_function_series (col_x df) s fixed_point ;;
              Ok (map (fun y => vpow y half) ys)
         else Ok ys) ;;
  xy <- (if String.eqb strategy "fit"
         then
           let ys := map (fun arg => vpow arg half) ys in
           let f := fun x slope => eval_power_function x slope fixed_point in
           slope <- curve_fit f xs ys ;;
           let xrange := (vlog (fst xrange), vlog (snd xrange)) in
           xs <- shrunk_logspace xrange nbins ;;
           ys <- map_result
                   (fun x => eval_power_function x slope fixed_point) xs ;;
           Ok (xs, ys)
         else Ok (xs, ys)) ;;
  let '(xs, ys) := xy in
  if String.eqb strategy "spline"
  then
    let ys := map (fun arg => vpow arg half) ys in
    let xrange := (vlog (fst xrange), vlog (snd xrange)) in
    t <- logspace (fst xrange) (snd xrange) nbins np_e ;;
    sp <- LSQUnivariateSpline xs ys (inner t) ;;
    xs <- shrunk_logspace xrange nbins ;;
    Ok (xs, map sp xs)
  else Ok (xs, ys).

(** Lines 123-127: every point goes to the front, one after the other. *)
Definition prepend (add_after : option (list point)) (xy : list val * list val)
  : list val * list val :=
  match add_after with
  | None => xy
  | Some pts =>
      fold_left
        (fun acc pt =>
           (np_insert0 (fst acc) (fst pt), np_insert0 (snd acc) (snd pt)))
        pts xy
  end.

(** Lines 55-132, after the dictionary lookup. *)
Definition bin_and_aggregate (xrange : point) (df : DataFrame)
  (xs ys : list val) (fixed_point : option point) (nbins : Z) (ypower : val)
  (add_after : option (list point)) (full_output : bool) (strategy : string)
  (logdomain : bool) : result output :=
  let scale := "log"%string in
  binned <- bin_by_values df xrange (nbins + 1) scale ;;
  let '(df, binned_indices, bins) := binned in
  grouped_points <- group_points xs ys binned_indices ;;
  df <- aggregate_frame df strategy logdomain ;;
  xy <- curve df xrange ys fixed_point nbins ypower strategy ;;
  let '(xs, ys) := prepend add_after xy in
  Ok (mkOut xs ys
            (if full_output then Some (bins, grouped_points) else None)).

(** [bin_and_average(xs, ys, fixed_point = None, nbins = 20,
    ypower = 0.5, add_after = None, full_output = False,
    strategy = "y_mean", logdomain = False, silent = True)], from a state
    of [STRAT_USED] to the next one and the result. *)
Definition bin_and_average (used : dict) (xs ys : list val)
  (fixed_point : option point) (nbins : Z) (ypower : val)
  (add_after : option (list point)) (full_output : bool) (strategy : string)
  (logdomain silent : bool) : dict * result output :=
  match prepare xs ys fixed_point strategy with
  | Raise e => (used, Raise e)
  | Ok (xrange, df) =>
      match dict_get used strategy with
      | Raise e => (used, Raise e)
      | Ok seen =>
          let used' :=
            if negb seen && negb silent then dict_set used strategy true
            else used in
          (used',
           bin_and_aggregate xrange df xs ys fixed_point nbins ypower
                             add_after full_output strategy logdomain)
      end
  end.

End Aggregator.

(** Fitting routines that always fail to converge, for runs of the
    strategies that do not fit. *)
Definition failing_curve_fit
  : (val -> val -> result val) -> list val -> list val -> result val :=
  fun _ _ _ => Raise RuntimeError.

Definition failing_spline
  : list val -> list val -> list val -> result (val -> val) :=
  fun _ _ _ => Raise ValueError.

End Binning.

(** ** The experiment runner and its driver
    ([src/algorithms/BAE_testing.py]) *)

Module Testing.

(** One run: the query counts, the squared errors and the standard
    deviations, by iteration. *)
Definition trace : Type := (list val * list val * list val)%type.

(** Modelled from the spec: [BAERunsData] of [src/utils/running.py],
    the collector of the runs; [add_run_data] appends one run, and the
    full lists are the runs' sequences concatenated in run order (section
    4.4). *)
Definition BAERunsData : Type := list trace.

Definition add_run_data (rdata : BAERunsData) (t : trace) : BAERunsData :=
  rdata ++ [t].

Definition full_lists (rdata : BAERunsData) : trace :=
  (concat (map (fun t => fst (fst t)) rdata),
   concat (map (fun t => snd (fst t)) rdata),
   concat (map snd rdata)).

(** Modelled from the spec: [Runner.run] of [src/utils/running.py]
    (section 4.4).  The trials run one after the other; the user's abort
    is looked at between two trials, [cancel_at = Some k] standing for an
    abort that arrives once [k] trials are complete; the trials completed
    so far are kept and their number is returned. *)
Fixpoint run_from (f : nat -> trace) (process_fun : BAERunsData -> trace -> BAERunsData)
  (cancel_at : option nat) (i todo : nat) (rdata : BAERunsData)
  : nat * BAERunsData :=
  match todo with
  | O => (i, rdata)
  | S todo' =>
      if match cancel_at with Some k => Nat.leb k i | None => false end
      then (i, rdata)
      else run_from f process_fun cancel_at (S i) todo' (process_fun rdata (f i))
  end.

Definition Runner_run (f : nat -> trace)
  (process_fun : BAERunsData -> trace -> BAERunsData)
  (nruns : nat) (cancel_at : option nat) : nat * BAERunsData :=
  run_from f process_fun cancel_at 0 nruns [].

(** What the driver does with the collected data, in order. *)
Inductive action : Type :=
| PrintStatsSeveral (final : list (list val)) (final_dscr : list string)
| CreateEstdata (nqs sqes stds : list val)
| ProcessAndPlot (nqs sqes stds : list val) (save show : bool)
| SaveToFile (nqs sqes stds : list val) (nruns : nat).

(** The attributes of [TestBAE] the driver reads. *)
Record TestBAE : Type := mkTestBAE {
  silent : bool;
  save : bool;
  show : bool
}.

Section Driver.

(** The two accessors of the collector whose results are only printed:
    the second component of [rdata.get_lists()] and of
    [rdata.get_descriptors()]. *)
Variable get_final : BAERunsData -> list (list val).
Variable get_final_dscr : BAERunsData -> list string.

Definition get_lists (rdata : BAERunsData) : trace * list (list val) :=
  (full_lists rdata, get_final rdata).

(** [TestBAE.sqe_evolution_multiple(nruns)] from the call of
    [runner.run()] on: the number of completed runs and the actions on the
    collected data. *)
Definition sqe_evolution_multiple (self : TestBAE) (sqe_evolution : nat -> trace)
  (nruns : nat) (cancel_at : option nat) : nat * list action :=
  let '(nruns, rdata) := Runner_run sqe_evolution add_run_data nruns cancel_at in
  let '(full, final) := get_lists rdata in
  let final_dscr := get_final_dscr rdata in
  if Nat.eqb nruns 0 then (nruns, [])
  else
    let '(nqs, sqes, stds) := full in
    (nruns,
     (if negb (silent self) then [PrintStatsSeveral final final_dscr] else [])
     ++ [CreateEstdata nqs sqes stds;
         ProcessAndPlot nqs sqes stds (save self) (show self)]
     ++ (if save self then [SaveToFile nqs sqes stds nruns] else [])).

End Driver.

End Testing.

(** ** Vocabulary of the statements *)

(** The logarithm of a lower end [<= 0]: [-inf] or [nan]. *)
Definition undefined_log (v : val) : Prop := v = NInf \/ v = NaN.

(** The edge number [i] of [m] buckets spaced evenly in log-space over
    [[lo, hi]]. *)
Definition log_edge (lo hi : R) (m : nat) (i : nat) : R :=
  exp (ln lo + INR i * ((ln hi - ln lo) / INR m)).

(** Strictly ascending finite values. *)
Fixpoint strictly_ascending (l : list val) : Prop :=
  match l with
  | [] => True
  | a :: t =>
      match t with
      | [] => True
      | b :: _ => vltb a b = true
      end /\ strictly_ascending t
  end.

(** A finite, strictly positive value. *)
Definition positive (v : val) : Prop := exists r : R, v = Fin r /\ 0 < r.

(** The order of finite values. *)
Definition val_lt (a b : val) : Prop :=
  exists x y : R, a = Fin x /\ b = Fin y /\ x < y.

(** The sum of a list of reals. *)
Definition Rsum (rs : list R) : R := fold_right Rplus 0 rs.

(** An aggregate of finite values that lies between two of them. *)
Definition between (agg : list val -> val) : Prop :=
  forall rs : list R,
    rs <> [] ->
    exists a r1 r2,
      agg (map Fin rs) = Fin a /\ In r1 rs /\ In r2 rs /\ r1 <= a <= r2.

(** The frame [groupby_agg] returns for a frame binned by [c]. *)
Definition grouped (agg : list val -> val) (c : Categorical) (df : DataFrame)
  : DataFrame :=
  let column col := map (fun k => agg (select k (codes c) col))
                        (observed_keys c) in
  mkDF (observed_keys c) (column (col_x df)) (column (col_y df))
       (option_map column (col_slope df)) None.

(** The aggregate a grouping strategy takes. *)
Definition aggregate_of (strategy : string) : list val -> val :=
  if Binning.is_mean strategy then mean else median.

(** The strategies that group by bucket. *)
Definition grouping (strategy : string) : Prop :=
  strategy = "y_mean"%string \/ strategy = "y_median"%string \/
  strategy = "slope_mean"%string \/ strategy = "slope_median"%string.

(** The slope strategies. *)
Definition slope_strategy (strategy : string) : Prop :=
  strategy = "slope_mean"%string \/ strategy = "slope_median"%string.

(** The bin column and the aggregated frame [bin_and_average] computes its
    curve from (lines 35-74). *)
Definition binned_frame (xs ys : list val) (fixed_point : option Binning.point)
  (nbins : Z) (strategy : string) (logdomain : bool)
  : result (Categorical * DataFrame) :=
  p <- Binning.prepare xs ys fixed_point strategy ;;
  b <- Binning.bin_by_values (snd p) (fst p) (nbins + 1) "log" ;;
  match col_bin (fst (fst b)) with
  | None => Raise KeyError
  | Some c =>
      agg <- Binning.aggregate_frame (fst (fst b)) strategy logdomain ;;
      Ok (c, agg)
  end.

(** ** Curves through a fixed point and generated point sets
    ([src/utils/binning.py]) *)

Module Curves.

(** [logfun(f)] *)
Definition logfun (f : val -> val) : val -> val :=
  fun x => vexp (f (vlog x)).

(** [affine_function(slope, fixed_point, log = True)] *)
Definition affine_function (slope : val) (fixed_point : Binning.point)
  (log : bool) : val -> val :=
  let '(x0, y0) := if log then Binning.to_log fixed_point else fixed_point in
  let f := fun x => vadd (vmul slope (vsub x x0)) y0 in
  if log then logfun f else f.


(** Python's order on pairs: the first components decide unless they are
    equal. *)
Definition pair_ltb (p q : Binning.point) : bool :=
  if veqb (fst p) (fst q) then vltb (snd p) (snd q) else vltb (fst p) (fst q).

(** [sorted(pairs)]: a stable sort by [<]; each element goes behind the
    elements it is not smaller than.  Where [<] is a total order, as on
    pairs of finite numbers, this is the result of every stable sort. *)
Fixpoint insert_pair (p : Binning.point) (l : list Binning.point)
  : list Binning.point :=
  match l with
  | [] => [p]
  | q :: t => if pair_ltb p q then p :: q :: t else q :: insert_pair p t
  end.

Definition sorted (l : list Binning.point) : list Binning.point :=
  fold_left (fun acc p => insert_pair p acc) l [].

(** The two lists unpacked from the transposed pairs (line 179): without
    a pair there is nothing to unpack. *)
Definition unzip (pairs : list Binning.point) : result (list val * list val) :=
  match pairs with
  | [] => Raise ValueError
  | _ :: _ => Ok (map fst pairs, map snd pairs)
  end.

Section Random.

(** The draws of the random generator: [uniform i] is the result of the
    call number [i] of [np.random.uniform(0, 1)], [normal i mean std] the
    result of the call number [i] of [np.random.normal(mean, std)], which
    raises on a negative [std]. *)
Variable uniform : nat -> val.
Variable normal : nat -> val -> val -> result val.

(** [uniform_points(xrange, npoints, log = False)] *)
Definition uniform_points (xrange : Binning.point) (npoints : Z) (log : bool)
  : list val :=
  let unif := map uniform (seq 0 (Z.to_nat npoints)) in
  if log then
    let '(xmin, xmax) := (vlog (fst xrange), vlog (snd xrange)) in
    let xwidth := vsub xmax xmin in
    map (fun x => vexp (vadd (vmul xwidth x) xmin)) unif
  else
    let '(xmin, xmax) := xrange in
    let xwidth := vsub xmax xmin in
    map (fun x => vadd (vmul xwidth x) xmin) unif.

(** [generate_points(npoints, xrange, mean, std_fun, logspace = True,
    noise = True)] *)
Definition generate_points (npoints : Z) (xrange : Binning.point) (mean : val)
  (std_fun : val -> val) (logspace noise : bool)
  : result (list val * list val) :=
  let xs := uniform_points xrange npoints logspace in
  sqerrs <- (if noise
             then
               samples <- map_result
                            (fun ix => normal (fst ix) mean (std_fun (snd ix)))
                            (combine (seq 0 (length xs)) xs) ;;
               Ok (map (fun x => vpow (vsub x mean) (Fin 2)) samples)
             else Ok (map (fun x => vpow (std_fun x) (Fin 2)) xs)) ;;
  let sorted_pairs := sorted (combine xs sqerrs) in
  unzip sorted_pairs.

End Random.

End Curves.

(** ** The amplitudes of the emulator
    ([src/algorithms/QAE_emulator.py]) *)

Module Emulator.






Section Search_range.

(** [k_largest_tuples] comes from [src/utils/misc.py]. *)
Variable k_largest_tuples : list (Z * val) -> nat -> nat -> list (Z * val).


End Search_range.

End Emulator.

(** ** The driver of the emulator's runs ([TestQAE]) *)

Module TestingQAE.

(** The attributes of [TestQAE] the driver reads. *)
Record TestQAE : Type := mkTestQAE {
  nshots : Z;
  silent : bool
}.

(** What the driver does with its results, in order. *)
Inductive action : Type :=
| AddData (nqs : list pynum) (errs : list (list val))
| CreateExecdata (nruns : Z) (MLE : bool) (mmin mmax : Z)
| SaveToFile
| ProcessAndPlot (save : bool).

(** [list(range(start, stop, 2))] *)
Definition range_by_2 (start stop : Z) : list Z :=
  map (fun i => (start + 2 * Z.of_nat i)%Z)
      (seq 0 (Z.to_nat ((stop - start + 1) / 2))).

Section Driver.

Variable expb10 : pynum -> result pynum.

(** [self.sqes_given_m(nruns, MLE)] once [self.m = m]: the squared errors
    of the runs, or a failure other than the user's interrupt. *)
Variable sqes_given_m : Z -> Z -> bool -> result (list val).

(** [print_info()], called unless [self.silent]. *)
Definition print_info (self : TestQAE) (mmin mmax : Z) (Nq_target : pynum)
  : result unit :=
  _ <- QAEemulator.Nq_from_m expb10 mmin (nshots self) true ;;
  _ <- QAEemulator.Nq_from_m expb10 mmax (nshots self) true ;;
  _ <- expb10 Nq_target ;;
  Ok tt.

(** The loop over [ms]: [mmax], [sqe_by_step] and [sqes] (unbound until
    the first step completes) from one step to the next;
    [interrupt_at = Some k] stands for a [KeyboardInterrupt] that arrives
    while [m = k] is tested. *)
Fixpoint steps (nruns : Z) (MLE : bool) (interrupt_at : option Z)
  (ms : list Z) (mmax : Z) (sqe_by_step : list (list val))
  (sqes : option (list val))
  : result (Z * list (list val) * option (list val)) :=
  match ms with
  | [] => Ok (mmax, sqe_by_step, sqes)
  | m :: rest =>
      if match interrupt_at with Some k => (k =? m)%Z | None => false end
      then Ok (m, sqe_by_step, sqes)
      else
        sqes <- sqes_given_m m nruns MLE ;;
        steps nruns MLE interrupt_at rest mmax (sqe_by_step ++ [sqes])
              (Some sqes)
  end.

(** [TestQAE.sqe_evolution_multiple(mmin, Nq_target, nruns, MLE = True,
    save = True)]: the actions on the results, and how the call ends. *)
Definition sqe_evolution_multiple (self : TestQAE) (mmin : Z)
  (Nq_target : pynum) (nruns : Z) (MLE save : bool) (interrupt_at : option Z)
  : list action * result unit :=
  if (mmin <? 0)%Z then ([], Raise AssertionError)
  else
    match
      (mmax <- QAEemulator.m_from_Nq Nq_target (nshots self) ;;
       _ <- (if negb (silent self) then print_info self mmin mmax Nq_target
             else Ok tt) ;;
       let ms := range_by_2 mmin (mmax + 1) in
       nqs <- map_result
                (fun m => QAEemulator.Nq_from_m expb10 m (nshots self) false)
                ms ;;
       r <- steps nruns MLE interrupt_at ms mmax [] None ;;
       Ok (nqs, r))
    with
    | Raise e => ([], Raise e)
    | Ok (nqs, (mmax, sqe_by_step, sqes)) =>
        if (mmax =? mmin)%Z then ([], Ok tt)
        else
          let stored :=
            [AddData nqs sqe_by_step; CreateExecdata nruns MLE mmin mmax]
            ++ (if save then [SaveToFile] else []) in
          match sqes with
          | None => (stored, Raise UnboundLocalError)
          | Some sqes =>
              if forallb (fun e => veqb e (Fin 0)) sqes then (stored, Ok tt)
              else (stored ++ [ProcessAndPlot save], Ok tt)
          end
    end.

End Driver.

End TestingQAE.

(** ** Vocabulary of the further statements *)

(** Values in ascending order, equal neighbours allowed. *)
Definition ascending (l : list val) : Prop :=
  StronglySorted (fun a b => vleb a b = true) l.

(** A finite value within [[lo, hi]]. *)
Definition within (lo hi : R) (v : val) : Prop :=
  exists r : R, v = Fin r /\ lo <= r <= hi.

(** A finite value, and a point of two finite values. *)
Definition finite (v : val) : Prop := exists r : R, v = Fin r.

Definition finite_point (p : Binning.point) : Prop :=
  finite (fst p) /\ finite (snd p).

(** [p] is not above [q] in Python's order on pairs. *)
Definition point_le (p q : Binning.point) : Prop := Curves.pair_ltb q p = false.

(** Draws of [np.random.uniform(0, 1)]: finite values of [[0, 1)]. *)
Definition unit_draws (uniform : nat -> val) : Prop :=
  forall i : nat, exists u : R, uniform i = Fin u /\ 0 <= u < 1.

(** The [m + 1] edges of [m] buckets spaced evenly in log-space over
    [[lo, hi]]. *)
Definition log_edges (lo hi : R) (m : nat) : list val :=
  map (fun i => Fin (log_edge lo hi m i)) (seq 0 (S m)).

(** The edge number [i] of [m] buckets spaced evenly over [[lo, hi]]. *)
Definition lin_edge (lo hi : R) (m : nat) (i : nat) : R :=
  lo + INR i * ((hi - lo) / INR m).

(** The bucket codes those edges give a column of [x] values. *)
Definition log_codes (lo hi : R) (m : nat) (xs : list val) : Categorical :=
  mkCat m (map (cut_code (log_edges lo hi m) (Fin lo)) xs).

(** [lo] and [hi] are the smallest and the largest of the values [rx]. *)
Definition range_of (rx : list R) (lo hi : R) : Prop :=
  In lo rx /\ In hi rx /\ forall r, In r rx -> lo <= r <= hi.


(** The slopes [bin_and_average] gives the samples (lines 42-43). *)
Definition slopes_of (fixed_point : option Binning.point) (xs ys : list val)
  : option (list val) :=
  option_map
    (fun fp => map (Binning.calculate_slope (fst fp, vpow (snd fp) (Fin 2)))
                   (combine xs ys))
    fixed_point.

(** The frame of the samples once binned by [m] buckets over [[lo, hi]]. *)
Definition binned (lo hi : R) (m : nat) (fixed_point : option Binning.point)
  (xs ys : list val) : DataFrame :=
  mkDF (seq 0 (length xs)) xs ys (slopes_of fixed_point xs ys)
       (Some (log_codes lo hi m xs)).

(** The samples of each bucket that has one, in bucket order. *)
Definition bucket_points (lo hi : R) (m : nat) (xs ys : list val)
  : list (list Binning.point) :=
  let c := log_codes lo hi m xs in
  map (fun k => select k (codes c) (combine xs ys)) (observed_keys c).

(** The columns of a frame have one length. *)
Definition well_formed (df : DataFrame) : Prop :=
  length (col_x df) = length (index df)
  /\ length (col_y df) = length (index df)
  /\ forall s, col_slope df = Some s -> length s = length (index df).

(** The strategies that fit a curve. *)
Definition fitting (strategy : string) : Prop :=
  strategy = "fit"%string \/ strategy = "spline"%string.

(** The strategies whose curve is a square root, whatever [ypower]. *)
Definition square_root_strategy (strategy : string) : Prop :=
  slope_strategy strategy \/ fitting strategy.

(** The strategies that aggregate [y]. *)
Definition y_strategy (strategy : string) : Prop :=
  strategy = "y_mean"%string \/ strategy = "y_median"%string.

Section Finish.

Variable curve_fit :
  (val -> val -> result val) -> list val -> list val -> result val.
Variable LSQUnivariateSpline :
  list val -> list val -> list val -> result (val -> val).

(** Lines 60-132 for a frame binned over its range. *)
Definition finish (lo hi : R) (rx : list R) (ys : list val)
  (fixed_point : option Binning.point) (nbins : Z) (ypower : val)
  (add_after : option (list Binning.point)) (full_output : bool)
  (strategy : string) (logdomain : bool) : result Binning.output :=
  let m := Z.to_nat nbins in
  agg <- Binning.aggregate_frame
           (binned lo hi m fixed_point (map Fin rx) ys) strategy logdomain ;;
  xy <- Binning.curve curve_fit LSQUnivariateSpline agg (Fin lo, Fin hi) ys
          fixed_point nbins ypower strategy ;;
  Ok (Binning.mkOut (fst (Binning.prepend add_after xy))
        (snd (Binning.prepend add_after xy))
        (if full_output
         then Some (log_edges lo hi m, bucket_points lo hi m (map Fin rx) ys)
         else None)).

End Finish.

(** ** The binner in double precision

    Where a comparison follows a computation, the last digit of a double
    decides the outcome: whether a sample lies inside the last edge, whether
    two edges differ, whether two aggregated values differ.  The definitions
    of this module are those of [Binning] with the results numpy rounds kept
    as the library computes them: [np_log], [np_exp] and [np_power] stand
    for the doubles [np.log], [np.exp] and [np.power] return, and [fl] for
    the rounding of one arithmetic operation.  Comparisons, the minimum, the
    maximum and [cut] are exact on doubles and are shared with [Binning], as
    are the slopes, the group mean and median and the power law, whose
    results are not compared with the samples.  With the exact functions
    for the four parameters the definitions are those of [Binning]. *)

Module Doubles.

Section Rounding.

Variable np_log : val -> val.
Variable np_exp : val -> val.
Variable np_power : val -> val -> val.
Variable fl : R -> R.

Variable curve_fit :
  (val -> val -> result val) -> list val -> list val -> result val.
Variable LSQUnivariateSpline :
  list val -> list val -> list val -> result (val -> val).

(** A finite result, rounded. *)
Definition rnd (v : val) : val :=
  match v with
  | Fin r => Fin (fl r)
  | _ => v
  end.

Definition radd (a b : val) : val := rnd (vadd a b).
Definition rsub (a b : val) : val := rnd (vsub a b).
Definition rmul (a b : val) : val := rnd (vmul a b).
Definition rdiv (a b : val) : val := rnd (vdiv a b).

(** [np.linspace(start, stop, num)] (endpoint included): the last point
    is [stop] itself, the others are computed. *)
Definition linspace (start stop : val) (num : Z) : result (list val) :=
  if (num <? 0)%Z then Raise ValueError
  else
    let div := (num - 1)%Z in
    let delta := rsub stop start in
    let ar := map (fun i => Fin (INR i)) (seq 0 (Z.to_nat num)) in
    let y :=
      if (0 <? div)%Z then
        let step := rdiv delta (Fin (IZR div)) in
        if veqb step (Fin 0)
        then map (fun i => rmul (rdiv i (Fin (IZR div))) delta) ar
        else map (fun i => rmul i step) ar
      else map (fun i => rmul i delta) ar in
    let y := map (fun v => radd v start) y in
    Ok (if (1 <? num)%Z then set_last y stop else y).

(** [np.logspace(start, stop, num, base = base)] *)
Definition logspace (start stop : val) (num : Z) (base : val)
  : result (list val) :=
  y <- linspace start stop num ;;
  Ok (map (np_power base) y).

(** [bin_by_values(df, xrange, nbins, by = "x", scale = "log")] *)
Definition bin_by_values (df : DataFrame) (xrange : Binning.point) (nbins : Z)
  (scale : string) : result (DataFrame * list (nat * list nat) * list val) :=
  bins <- (if String.eqb scale "log"
           then b <- logspace (np_log (fst xrange)) (np_log (snd xrange))
                              nbins np_e ;;
                Ok (Some b)
           else Ok None) ;;
  bins <- (if String.eqb scale "linear"
           then b <- linspace (fst xrange) (snd xrange) nbins ;; Ok (Some b)
           else Ok bins) ;;
  match bins with
  | None => Raise UnboundLocalError
  | Some bins =>
      c <- cut (col_x df) bins ;;
      let df' := mkDF (index df) (col_x df) (col_y df) (col_slope df) (Some c) in
      binned_indices <- groups df' ;;
      Ok (df', binned_indices, bins)
  end.

(** The inward-shrunk evaluation points of [fit] and [spline]. *)
Definition shrunk_logspace (xrange : Binning.point) (nbins : Z)
  : result (list val) :=
  let binwidth := rdiv (rsub (snd xrange) (fst xrange)) (Fin (IZR nbins)) in
  let x0 := radd (fst xrange) (rdiv binwidth (Fin 2)) in
  let x1 := rsub (snd xrange) (rdiv binwidth (Fin 2)) in
  logspace x0 x1 nbins np_e.

(** Lines 60-74: the frame after grouping. *)
Definition aggregate_frame (df : DataFrame) (strategy : string)
  (logdomain : bool) : result DataFrame :=
  let df := if logdomain then map_xy np_log df else df in
  df <- (if Binning.is_mean strategy
         then g <- groupby_agg mean df ;; Ok (dropna g) else Ok df) ;;
  df <- (if Binning.is_median strategy
         then g <- groupby_agg median df ;; Ok (dropna g) else Ok df) ;;
  Ok (if logdomain then map_xy np_exp df else df).

(** Lines 76-121: the curve of each strategy. *)
Definition curve (df : DataFrame) (xrange : Binning.point) (ys : list val)
  (fixed_point : option Binning.point) (nbins : Z) (ypower : val)
  (strategy : string) : result (list val * list val) :=
  let xs := col_x df in
  ys <- (if Binning.is_y strategy
         then Ok (map (fun y => vpow y ypower) (col_y df)) else Ok ys) ;;
  ys <- (if Binning.is_slope strategy
         then s <- get_slope df ;;
              ys <- Binning.eval_power_function_series (col_x df) s
                      fixed_point ;;
              Ok (map (fun y => vpow y Binning.half) ys)
         else Ok ys) ;;
  xy <- (if String.eqb strategy "fit"
         then
           let ys := map (fun arg => vpow arg Binning.half) ys in
           let f := fun x slope =>
                      Binning.eval_power_function x slope fixed_point in
           slope <- curve_fit f xs ys ;;
           let xrange := (np_log (fst xrange), np_log (snd xrange)) in
           xs <- shrunk_logspace xrange nbins ;;
           ys <- map_result
                   (fun x => Binning.eval_power_function x slope fixed_point)
                   xs ;;
           Ok (xs, ys)
         else Ok (xs, ys)) ;;
  let '(xs, ys) := xy in
  if String.eqb strategy "spline"
  then
    let ys := map (fun arg => vpow arg Binning.half) ys in
    let xrange := (np_log (fst xrange), np_log (snd xrange)) in
    t <- logspace (fst xrange) (snd xrange) nbins np_e ;;
    sp <- LSQUnivariateSpline xs ys (Binning.inner t) ;;
    xs <- shrunk_logspace xrange nbins ;;
    Ok (xs, map sp xs)
  else Ok (xs, ys).

(** Lines 55-132, after the dictionary lookup. *)
Definition bin_and_aggregate (xrange : Binning.point) (df : DataFrame)
  (xs ys : list val) (fixed_point : option Binning.point) (nbins : Z)
  (ypower : val) (add_after : option (list Binning.point))
  (full_output : bool) (strategy : string) (logdomain : bool)
  : result Binning.output :=
  let scale := "log"%string in
  binned <- bin_by_values df xrange (nbins + 1) scale ;;
  let '(df, binned_indices, bins) := binned in
  grouped_points <- Binning.group_points xs ys binned_indices ;;
  df <- aggregate_frame df strategy logdomain ;;
  xy <- curve df xrange ys fixed_point nbins ypower strategy ;;
  let '(xs, ys) := Binning.prepend add_after xy in
  Ok (Binning.mkOut xs ys
        (if full_output then Some (bins, grouped_points) else None)).

(** [bin_and_average(xs, ys, fixed_point = None, nbins = 20,
    ypower = 0.5, add_after = None, full_output = False,
    strategy = "y_mean", logdomain = False, silent = True)] *)
Definition bin_and_average (used : Binning.dict) (xs ys : list val)
  (fixed_point : option Binning.point) (nbins : Z) (ypower : val)
  (add_after : option (list Binning.point)) (full_output : bool)
  (strategy : string) (logdomain silent : bool)
  : Binning.dict * result Binning.output :=
  match Binning.prepare xs ys fixed_point strategy with
  | Raise e => (used, Raise e)
  | Ok (xrange, df) =>
      match Binning.dict_get used strategy with
      | Raise e => (used, Raise e)
      | Ok seen =>
          let used' :=
            if negb seen && negb silent
            then Binning.dict_set used strategy true
            else used in
          (used',
           bin_and_aggregate xrange df xs ys fixed_point nbins ypower
                             add_after full_output strategy logdomain)
      end
  end.

End Rounding.

End Doubles.

(** ** Vocabulary of the statements in double precision *)

(** A power that is exact but at the logarithm of 2, where it returns the
    double just below 2, as numpy's [np.power(np.e, np.log(2))] does. *)
Definition power_below_two (base y : val) : val :=
  if veqb y (Fin (ln 2)) then Fin (2 - / 2 ^ 52) else vpow base y.

(** What the statements for [logdomain = True] ask of [np.log] and
    [np.exp] over the samples [rx]: the logarithms of the samples are
    finite and in the order of the samples, and between two of them the
    exponential is finite, positive and in the order of its arguments.  Two
    arguments may share one result. *)
Definition log_exp_monotone (np_log np_exp : val -> val) (rx : list R)
  : Prop :=
  (forall x y, In x rx -> In y rx -> x <= y ->
     exists a b, np_log (Fin x) = Fin a /\ np_log (Fin y) = Fin b /\ a <= b)
  /\ (forall x y a b l l',
        In x rx -> In y rx ->
        np_log (Fin x) = Fin a -> np_log (Fin y) = Fin b ->
        a <= l -> l <= l' -> l' <= b ->
        exists r r',
          np_exp (Fin l) = Fin r /\ np_exp (Fin l') = Fin r' /\ 0 < r <= r').


(** * Properties *)

(** ** Deciding comparisons of reals *)

Lemma Rltb_true (a b : R) : a < b -> Rltb a b = true.
Proof. intros H; unfold Rltb; destruct (Rlt_dec a b); [reflexivity | contradiction]. Qed.

Lemma Rltb_false (a b : R) : b <= a -> Rltb a b = false.
Proof. intros H; unfold Rltb; destruct (Rlt_dec a b); [lra | reflexivity]. Qed.

Lemma Rleb_true (a b : R) : a <= b -> Rleb a b = true.
Proof. intros H; unfold Rleb; destruct (Rle_dec a b); [reflexivity | contradiction]. Qed.

Lemma Rleb_false (a b : R) : b < a -> Rleb a b = false.
Proof. intros H; unfold Rleb; destruct (Rle_dec a b); [lra | reflexivity]. Qed.

Lemma Reqb_true (a b : R) : a = b -> Reqb a b = true.
Proof. intros H; unfold Reqb; destruct (Req_dec_T a b); [reflexivity | contradiction]. Qed.

Lemma Reqb_false (a b : R) : a <> b -> Reqb a b = false.
Proof. intros H; unfold Reqb; destruct (Req_dec_T a b); [contradiction | reflexivity]. Qed.


Lemma Rleb_iff (a b : R) : Rleb a b = true <-> a <= b.
Proof. unfold Rleb; destruct (Rle_dec a b); split; intros; (assumption || reflexivity || discriminate || contradiction). Qed.


(** Rewrites one comparison of the goal whose outcome [lra] settles. *)
Ltac rcmp1 :=
  match goal with
  | |- context [Rltb ?a ?b] =>
      first [ rewrite (Rltb_true a b) by lra | rewrite (Rltb_false a b) by lra ]
  | |- context [Rleb ?a ?b] =>
      first [ rewrite (Rleb_true a b) by lra | rewrite (Rleb_false a b) by lra ]
  | |- context [Reqb ?a ?b] =>
      first [ rewrite (Reqb_true a b) by lra | rewrite (Reqb_false a b) by lra ]
  end.

Ltac rcmp := repeat rcmp1.

Lemma ln_2_pos : 0 < ln 2.
Proof. rewrite <- ln_1. apply ln_increasing; lra. Qed.

Lemma ln_pos (x : R) : 1 < x -> 0 < ln x.
Proof. intros H. rewrite <- ln_1. apply ln_increasing; lra. Qed.

Lemma exp_1_gt_1 : 1 < exp 1.
Proof. pose proof (exp_ineq1 1); lra. Qed.

Lemma ln_exp_1 : ln (exp 1) = 1.
Proof. apply ln_exp. Qed.

(** ** Query-count conversions *)

Lemma round_half_even_IZR (z : Z) : round_half_even (IZR z) = z.
Proof.
  unfold round_half_even. rewrite ZfloorZ.
  replace (IZR z - IZR z) with 0 by lra.
  now rewrite Rltb_true by lra.
Qed.

Lemma ln_IZR_pow2 (k : Z) : (0 <= k)%Z -> ln (IZR (2 ^ k)) = IZR k * ln 2.
Proof.
  intros Hk. rewrite <- (Z2Nat.id k Hk) at 1.
  rewrite <- pow_IZR, ln_pow by lra.
  now rewrite INR_IZR_INZ, Z2Nat.id.
Qed.

Lemma pow2_below_overflow (m : Z) :
  (0 <= m <= 1022)%Z -> (2 * 2 ^ m + 1 < float_overflow_bound)%Z.
Proof.
  intros Hm.
  assert (H : (2 ^ m <= 2 ^ 1022)%Z) by (apply Z.pow_le_mono_r; lia).
  assert (B : (2 * 2 ^ 1022 + 1 <? float_overflow_bound)%Z = true)
    by (vm_compute; reflexivity).
  apply Z.ltb_lt in B. lia.
Qed.

Section QAE_facts.

Variable expb10 : pynum -> result pynum.

Lemma Nq_from_m_int (m nshots : Z) :
  (0 <= m)%Z ->
  QAEemulator.Nq_from_m expb10 m nshots false
  = Ok (PInt ((2 * 2 ^ m + 1) * nshots)).
Proof.
  intros Hm. unfold QAEemulator.Nq_from_m, py_pow2.
  apply Z.leb_le in Hm. rewrite Hm. reflexivity.
Qed.

Lemma m_from_Nq_exact (m nshots : Z) :
  (0 <= m <= 1022)%Z -> (1 <= nshots)%Z ->
  QAEemulator.m_from_Nq (PInt ((2 * 2 ^ m + 1) * nshots)) nshots = Ok m.
Proof.
  intros Hm Hn. unfold QAEemulator.m_from_Nq, py_truediv.
  assert (Hp : (0 < 2 ^ m)%Z) by (apply Z.pow_pos_nonneg; lia).
  replace (nshots =? 0)%Z with false by (symmetry; apply Z.eqb_neq; lia).
  replace (float_overflow_bound * Z.abs nshots
           <=? Z.abs ((2 * 2 ^ m + 1) * nshots))%Z with false.
  2:{ symmetry. apply Z.leb_gt.
      pose proof (pow2_below_overflow m Hm) as B.
      rewrite !Z.abs_eq by nia. nia. }
  cbn [bind].
  assert (Hn' : IZR nshots <> 0) by (apply not_0_IZR; lia).
  replace (IZR ((2 * 2 ^ m + 1) * nshots) / IZR nshots)
    with (IZR (2 ^ (m + 1)) + 1).
  2:{ rewrite Z.pow_add_r, Z.pow_1_r by lia.
      rewrite !mult_IZR, plus_IZR, !mult_IZR. field. exact Hn'. }
  unfold vlog2, vsub, vadd, vopp, vlog.
  replace (IZR (2 ^ (m + 1)) + 1 + - (1)) with (IZR (2 ^ (m + 1))) by lra.
  assert (Hq : 0 < IZR (2 ^ (m + 1)))
    by (apply IZR_lt, Z.pow_pos_nonneg; lia).
  rewrite Rltb_true by exact Hq.
  unfold vdiv. pose proof ln_2_pos as L.
  rewrite Reqb_false by lra.
  rewrite ln_IZR_pow2 by lia.
  replace (IZR (m + 1) * ln 2 / ln 2 + - (1)) with (IZR m)
    by (rewrite plus_IZR; field; lra).
  unfold py_round. now rewrite round_half_even_IZR.
Qed.

End QAE_facts.

Lemma pow2_above_overflow (m nshots : Z) :
  (1023 <= m)%Z -> (1 <= nshots)%Z ->
  (float_overflow_bound * Z.abs nshots
   <=? Z.abs ((2 * 2 ^ m + 1) * nshots))%Z = true.
Proof.
  intros Hm Hn. apply Z.leb_le.
  assert (H : (2 ^ 1023 <= 2 ^ m)%Z) by (apply Z.pow_le_mono_r; lia).
  assert (B : (float_overflow_bound <=? 2 * 2 ^ 1023 + 1)%Z = true)
    by (vm_compute; reflexivity).
  apply Z.leb_le in B.
  rewrite !Z.abs_eq by nia. nia.
Qed.

(** C10, as the code has it: converting a query count back recovers [m]
    as long as the count per shot fits a double, that is for
    [0 <= m <= 1022] and [nshots >= 1]; from [m = 1023] on, for every
    [nshots >= 1], the division of the query count by the number of shots
    raises [OverflowError]. *)
Theorem C10_roundtrip_in_float_range :
  forall (expb10 : pynum -> result pynum) (m nshots : Z),
    (0 <= m)%Z -> (1 <= nshots)%Z ->
    ((m <= 1022)%Z -> QAEemulator.roundtrip expb10 m nshots = Ok m)
    /\ ((1023 <= m)%Z ->
        QAEemulator.roundtrip expb10 m nshots = Raise OverflowError).
Proof.
  intros expb10 m nshots Hm Hn. unfold QAEemulator.roundtrip.
  rewrite Nq_from_m_int by lia. cbn [bind]. split; intros Hm'.
  - apply m_from_Nq_exact; lia.
  - unfold QAEemulator.m_from_Nq, py_truediv.
    replace (nshots =? 0)%Z with false by (symmetry; apply Z.eqb_neq; lia).
    now rewrite pow2_above_overflow by assumption.
Qed.

Lemma C10_roundtrip_witness :
  (3 <= 1022 -> QAEemulator.roundtrip (fun n => Ok n) 3 5 = Ok 3)%Z
  /\ (1023 <= 3 ->
      QAEemulator.roundtrip (fun n => Ok n) 3 5 = Raise OverflowError)%Z.
Proof.
  apply (C10_roundtrip_in_float_range (fun n => Ok n) 3 5); lia.
Defined.

(** C10 as stated fails: for [m = 1023] and one shot the division of the
    query count by the number of shots raises [OverflowError]. *)
Lemma C10_roundtrip_overflow :
  QAEemulator.roundtrip (fun n => Ok n) 1023 1 = Raise OverflowError /\
  QAEemulator.roundtrip (fun n => Ok n) 1023 1 <> Ok 1023%Z.
Proof.
  assert (E : QAEemulator.roundtrip (fun n => Ok n) 1023 1 = Raise OverflowError);
    [| split; [exact E | rewrite E; discriminate]].
  unfold QAEemulator.roundtrip.
  rewrite Nq_from_m_int by lia. cbn [bind].
  unfold QAEemulator.m_from_Nq, py_truediv.
  replace (1 =? 0)%Z with false by reflexivity.
  replace (float_overflow_bound * Z.abs 1
           <=? Z.abs ((2 * 2 ^ 1023 + 1) * 1))%Z with true
    by (vm_compute; reflexivity).
  reflexivity.
Qed.

(** ** The arithmetic on finite values *)

Lemma vsub_fin (a b : R) : vsub (Fin a) (Fin b) = Fin (a - b).
Proof. reflexivity. Qed.

Lemma vadd_fin (a b : R) : vadd (Fin a) (Fin b) = Fin (a + b).
Proof. reflexivity. Qed.

Lemma vmul_fin (a b : R) : vmul (Fin a) (Fin b) = Fin (a * b).
Proof. reflexivity. Qed.

Lemma vdiv_fin (a b : R) : b <> 0 -> vdiv (Fin a) (Fin b) = Fin (a / b).
Proof. intros H. unfold vdiv. now rewrite Reqb_false. Qed.

Lemma vdiv_zero_zero : vdiv (Fin 0) (Fin 0) = NaN.
Proof. unfold vdiv, inf_signed. now rcmp. Qed.

Lemma vlog_fin (r : R) : 0 < r -> vlog (Fin r) = Fin (ln r).
Proof. intros H. unfold vlog. now rewrite Rltb_true. Qed.

Lemma vexp_vlog (r : R) : 0 < r -> vexp (vlog (Fin r)) = Fin r.
Proof. intros H. rewrite vlog_fin by assumption. cbn. now rewrite exp_ln. Qed.

Lemma vpow_pos (x y : R) : 0 < x -> vpow (Fin x) (Fin y) = Fin (Rpower x y).
Proof.
  intros H. unfold vpow, Rpow_fin.
  destruct (Req_dec_T y 0) as [-> | Hy].
  - rewrite Reqb_true by reflexivity. now rewrite Rpower_O.
  - rewrite Reqb_false by assumption. now rewrite Rltb_true.
Qed.

Lemma Rpower_2 (x : R) : 0 < x -> Rpower x 2 = x ^ 2.
Proof.
  intros H. replace 2 with (INR 2) by (simpl; lra). now apply Rpower_pow.
Qed.

Lemma vpow_square (x : R) : vpow (Fin x) (Fin 2) = Fin (x ^ 2).
Proof.
  unfold vpow, Rpow_fin. rewrite Reqb_false by lra.
  destruct (Rlt_dec 0 x) as [Hpos | Hneg].
  - rewrite Rltb_true by assumption. now rewrite Rpower_2.
  - rewrite Rltb_false by lra.
    destruct (Req_dec_T x 0) as [-> | Hx].
    + rewrite Reqb_true by reflexivity. rewrite Rltb_true by lra. f_equal; lra.
    + rewrite Reqb_false by assumption.
      unfold is_integer. rewrite (ZfloorZ 2), Reqb_true by reflexivity.
      cbn [Z.odd]. rewrite Rpower_2 by lra. f_equal; lra.
Qed.

Lemma vpow_np_e (v : val) : vpow np_e v = vexp v.
Proof.
  pose proof exp_1_gt_1 as E.
  assert (A : Rabs (exp 1) = exp 1) by (apply Rabs_pos_eq; lra).
  destruct v as [r | | |]; unfold np_e; cbn [vpow vexp].
  - destruct (Req_dec_T r 0) as [-> | Hr].
    + rewrite Reqb_true by reflexivity. now rewrite exp_0.
    + rewrite Reqb_false by assumption. unfold Rpow_fin.
      rewrite Reqb_false by assumption. rewrite Rltb_true by lra.
      unfold Rpower. now rewrite ln_exp_1, Rmult_1_r.
  - rewrite A. rewrite Reqb_false, Rltb_false by lra. reflexivity.
  - rewrite A. rewrite Reqb_false, Rltb_false by lra. reflexivity.
  - rewrite Reqb_false by lra. reflexivity.
Qed.

(** ** The slope of a sample (C6) *)

Lemma calculate_slope_fin (x0 y0 x y : R) :
  0 < x0 -> 0 < y0 -> 0 < x -> 0 < y -> x <> x0 ->
  Binning.calculate_slope (Fin x0, Fin y0) (Fin x, Fin y)
  = Fin ((ln y0 - ln y) / (ln x0 - ln x)).
Proof.
  intros Hx0 Hy0 Hx Hy Hne.
  unfold Binning.calculate_slope, Binning.logscale. cbn [fst snd].
  rewrite !vlog_fin by assumption. rewrite !vsub_fin.
  apply vdiv_fin. intros E. apply Hne.
  apply ln_inv; [assumption | assumption | lra].
Qed.

Lemma calculate_slope_coincide (x y : R) :
  0 < x -> 0 < y ->
  Binning.calculate_slope (Fin x, Fin y) (Fin x, Fin y) = NaN.
Proof.
  intros Hx Hy.
  unfold Binning.calculate_slope, Binning.logscale. cbn [fst snd].
  rewrite !vlog_fin by assumption. rewrite !vsub_fin.
  replace (ln y - ln y) with 0 by lra. replace (ln x - ln x) with 0 by lra.
  apply vdiv_zero_zero.
Qed.

Lemma py_min_ok (xs : list val) : xs <> [] -> exists lo, py_min xs = Ok lo.
Proof. destruct xs; [congruence | intros _; eexists; reflexivity]. Qed.

Lemma py_max_ok (xs : list val) : xs <> [] -> exists hi, py_max xs = Ok hi.
Proof. destruct xs; [congruence | intros _; eexists; reflexivity]. Qed.

Lemma prepare_fixed_point (xs ys : list val) (fp : Binning.point)
  (strategy : string) :
  xs <> [] -> length xs = length ys ->
  exists xrange,
    Binning.prepare xs ys (Some fp) strategy
    = Ok (xrange,
          mkDF (seq 0 (length xs)) xs ys
               (Some (map (Binning.calculate_slope
                             (fst fp, vpow (snd fp) (Fin 2)))
                          (combine xs ys)))
               None).
Proof.
  intros Hne Hlen. unfold Binning.prepare.
  destruct (py_min_ok xs Hne) as [lo ->].
  destruct (py_max_ok xs Hne) as [hi ->].
  cbn [bind]. unfold new_frame.
  assert (L : length (map (Binning.calculate_slope
                             (fst fp, vpow (snd fp) (Fin 2)))
                          (combine xs ys)) = length xs)
    by (rewrite length_map; unfold Binning.point;
        rewrite length_combine, <- Hlen; apply Nat.min_id).
  rewrite L, <- Hlen, Nat.eqb_refl.
  cbn. eexists; reflexivity.
Qed.



(** ** Concrete runs *)

Ltac run_step :=
  first
    [ rcmp1
    | match goal with
      | |- context [String.eqb ?a ?b] =>
          let v := eval vm_compute in (String.eqb a b) in
          change (String.eqb a b) with v
      | |- context [Z.ltb ?a ?b] =>
          let v := eval vm_compute in (Z.ltb a b) in
          change (Z.ltb a b) with v
      | |- context [Z.to_nat ?a] =>
          let v := eval vm_compute in (Z.to_nat a) in
          change (Z.to_nat a) with v
      | |- context [(?a + ?b)%Z] =>
          let v := eval vm_compute in (a + b)%Z in
          change (a + b)%Z with v
      | |- context [(?a - ?b)%Z] =>
          let v := eval vm_compute in (a - b)%Z in
          change (a - b)%Z with v
      end
    | rewrite vpow_np_e
    | rewrite vlog_fin by lra
    | progress cbn [bind fst snd map combine filter fold_left fold_right app
                    length seq negb andb orb removelast option_map
                    Nat.eqb Nat.sub Nat.leb Nat.even Nat.div Nat.divmod nth
                    existsb isnan notna vexp INR nth_error vdiv vadd vsub vopp vmul vltb vleb veqb
                    index col_x col_y col_slope col_bin ncat codes
                    py_min py_max py_index map_result set_last np_insert0
                    new_frame is_monotonic_increasing has_duplicates
                    searchsorted_left cut_code cut code_is observed_keys
                    select groups vsum mean insert_sorted sort median
                    groupby_agg filter_mask row_notna dropna map_xy get_slope
                    Binning.dict_get Binning.dict_set Binning.STRAT_USED
                    Binning.strats Binning.power_law
                    Binning.eval_power_function
                    Binning.eval_power_function_series
                    Binning.group_points Binning.prepend
                    Binning.out_xs Binning.out_ys Binning.out_full ] ].

Ltac run_binning :=
  unfold Binning.bin_and_average, Binning.prepare, Binning.bin_and_aggregate,
    Binning.bin_by_values, Binning.aggregate_frame, Binning.curve,
    Binning.is_mean, Binning.is_median, Binning.is_y, Binning.is_slope,
    logspace, linspace;
  repeat run_step.

(** ** Unknown strategy names (C3) *)

Lemma dict_get_missing (d : Binning.dict) (k : string) :
  ~ In k (map fst d) -> Binning.dict_get d k = Raise KeyError.
Proof.
  induction d as [| [k' v] d IH]; intros H; cbn in *; [reflexivity |].
  destruct (String.eqb_spec k k') as [-> | Hne].
  - exfalso. apply H. now left.
  - apply IH. intros Hin. apply H. now right.
Qed.

Lemma dict_get_present (d : Binning.dict) (k : string) :
  In k (map fst d) -> exists v, Binning.dict_get d k = Ok v.
Proof.
  induction d as [| [k' v] d IH]; intros H; cbn in *; [contradiction |].
  destruct (String.eqb_spec k k') as [-> | Hne].
  - now exists v.
  - destruct H as [H | H]; [congruence | now apply IH].
Qed.

Lemma dict_set_keys (d : Binning.dict) (k : string) (v : bool) :
  In k (map fst d) -> map fst (Binning.dict_set d k v) = map fst d.
Proof.
  induction d as [| [k' v'] d IH]; intros H; cbn in *; [contradiction |].
  destruct (String.eqb_spec k k') as [-> | Hne]; cbn; [reflexivity |].
  f_equal. destruct H as [H | H]; [congruence | now apply IH].
Qed.

Lemma prepare_no_fixed_point (xs ys : list val) (strategy : string) :
  xs <> [] -> length xs = length ys -> strategy <> "slope"%string ->
  exists xrange,
    Binning.prepare xs ys None strategy
    = Ok (xrange, mkDF (seq 0 (length xs)) xs ys None None).
Proof.
  intros Hne Hlen Hs. unfold Binning.prepare.
  destruct (py_min_ok xs Hne) as [lo ->].
  destruct (py_max_ok xs Hne) as [hi ->].
  cbn [bind]. apply String.eqb_neq in Hs. rewrite Hs.
  unfold new_frame. rewrite <- Hlen, Nat.eqb_refl. cbn.
  eexists; reflexivity.
Qed.

Section Aggregator_facts.

Variable curve_fit :
  (val -> val -> result val) -> list val -> list val -> result val.
Variable LSQUnivariateSpline :
  list val -> list val -> list val -> result (val -> val).

Let bin_and_average := Binning.bin_and_average curve_fit LSQUnivariateSpline.

(** The keys of [STRAT_USED] never change. *)
Lemma bin_and_average_keys used xs ys fixed_point nbins ypower add_after
  full_output strategy logdomain silent :
  map fst (fst (bin_and_average used xs ys fixed_point nbins ypower add_after
                                full_output strategy logdomain silent))
  = map fst used.
Proof.
  unfold bin_and_average, Binning.bin_and_average.
  destruct (Binning.prepare xs ys fixed_point strategy) as [[xrange df] | e];
    [| reflexivity].
  destruct (Binning.dict_get used strategy) as [seen | e] eqn:E; [| reflexivity].
  cbn [fst]. destruct (negb seen && negb silent); [| reflexivity].
  apply dict_set_keys.
  destruct (in_dec string_dec strategy (map fst used)) as [Hin | Hout];
    [assumption |].
  rewrite dict_get_missing in E by assumption. discriminate.
Qed.

Lemma unknown_strategy_fails used xs ys fixed_point nbins ypower add_after
  full_output strategy logdomain silent :
  map fst used = Binning.strats -> ~ In strategy Binning.strats ->
  length xs = length ys ->
  bin_and_average used xs ys fixed_point nbins ypower add_after
                  full_output strategy logdomain silent
  = (used,
     Raise (match xs with
            | [] => ValueError
            | _ :: _ =>
                match fixed_point with
                | None =>
                    if String.eqb strategy "slope" then AssertionError
                    else KeyError
                | Some _ => KeyError
                end
            end)).
Proof.
  intros Hkeys Hout Hlen.
  unfold bin_and_average, Binning.bin_and_average.
  destruct xs as [| x xs]; [reflexivity |].
  assert (Hne : x :: xs <> []) by discriminate.
  rewrite <- Hkeys in Hout.
  destruct fixed_point as [fp |].
  - destruct (prepare_fixed_point (x :: xs) ys fp strategy Hne Hlen) as [r ->].
    now rewrite dict_get_missing.
  - destruct (String.eqb_spec strategy "slope") as [-> | Hs].
    + unfold Binning.prepare. cbn [py_min py_max bind].
      now rewrite String.eqb_refl.
    + destruct (prepare_no_fixed_point (x :: xs) ys strategy Hne Hlen Hs)
        as [r ->].
      now rewrite dict_get_missing.
Qed.

End Aggregator_facts.

(** C3, as the code has it: an unsupported strategy name makes the
    aggregator fail for every point set, but never with
    [ConfigurationError]: the lookup [STRAT_USED[strategy]] raises
    [KeyError] (for the name "slope" without a fixed point the assertion
    fails first); on an empty point set [min] raises [ValueError] before
    the lookup. *)
Theorem C3_unknown_strategy_key_error :
  forall curve_fit LSQUnivariateSpline used xs ys fixed_point nbins ypower
         add_after full_output strategy logdomain silent,
    map fst used = Binning.strats -> ~ In strategy Binning.strats ->
    length xs = length ys ->
    exists e,
      Binning.bin_and_average curve_fit LSQUnivariateSpline used xs ys
        fixed_point nbins ypower add_after full_output strategy logdomain
        silent
      = (used, Raise e)
      /\ e <> ConfigurationError
      /\ (xs = [] -> e = ValueError)
      /\ (xs <> [] ->
          (fixed_point <> None \/ strategy <> "slope"%string) ->
          e = KeyError).
Proof.
  intros cf sp used xs ys fixed_point nbins ypower add_after full_output
         strategy logdomain silent Hkeys Hout Hlen.
  eexists. split.
  - apply unknown_strategy_fails; assumption.
  - destruct xs as [| x xs].
    + split; [discriminate | split; [reflexivity | congruence]].
    + destruct fixed_point as [fp |].
      * split; [discriminate | split; [discriminate | reflexivity]].
      * destruct (String.eqb_spec strategy "slope") as [-> | Hs].
        -- split; [discriminate | split; [discriminate |]].
           intros _ [H | H]; congruence.
        -- split; [discriminate | split; [discriminate | reflexivity]].
Qed.

Lemma C3_unknown_strategy_witness :
  exists e,
    Binning.bin_and_average Binning.failing_curve_fit Binning.failing_spline
      Binning.STRAT_USED [Fin 1; Fin 2] [Fin 1; Fin 1] None 20 Binning.half
      None false "mean" false true
    = (Binning.STRAT_USED, Raise e)
    /\ e <> ConfigurationError
    /\ ([Fin 1; Fin 2] = [] -> e = ValueError)
    /\ ([Fin 1; Fin 2] <> [] ->
        (@None Binning.point <> None \/ "mean"%string <> "slope"%string) ->
        e = KeyError).
Proof.
  apply (C3_unknown_strategy_key_error
           Binning.failing_curve_fit Binning.failing_spline
           Binning.STRAT_USED [Fin 1; Fin 2] [Fin 1; Fin 1] None 20
           Binning.half None false "mean" false true).
  - reflexivity.
  - cbn. intros H. repeat (destruct H as [H | H]; [discriminate |]). exact H.
  - reflexivity.
Defined.

(** C3 as stated fails: the name "mean" is not supported and the call
    raises [KeyError], not [ConfigurationError]. *)
Lemma C3_unknown_strategy_not_configuration_error :
  snd (Binning.bin_and_average Binning.failing_curve_fit
         Binning.failing_spline Binning.STRAT_USED [Fin 1; Fin 2]
         [Fin 1; Fin 1] None 20 Binning.half None false "mean" false true)
  = Raise KeyError
  /\ snd (Binning.bin_and_average Binning.failing_curve_fit
            Binning.failing_spline Binning.STRAT_USED [Fin 1; Fin 2]
            [Fin 1; Fin 1] None 20 Binning.half None false "mean" false true)
     <> Raise ConfigurationError.
Proof.
  assert (E : snd (Binning.bin_and_average Binning.failing_curve_fit
                     Binning.failing_spline Binning.STRAT_USED [Fin 1; Fin 2]
                     [Fin 1; Fin 1] None 20 Binning.half None false "mean"
                     false true)
              = Raise KeyError) by (run_binning; reflexivity).
  split; [exact E | rewrite E; discriminate].
Qed.

(** ** Points added after the aggregation (C8) *)

Lemma prepend_rev (pts : list Binning.point) (xy : list val * list val) :
  Binning.prepend (Some pts) xy
  = (rev (map fst pts) ++ fst xy, rev (map snd pts) ++ snd xy).
Proof.
  unfold Binning.prepend. revert xy.
  induction pts as [| p pts IH]; intros [xs ys]; cbn; [reflexivity |].
  rewrite IH. cbn [fst snd np_insert0]. now rewrite <- !app_assoc.
Qed.


(** ** The binner: failures (C2) *)

Lemma linspace_negative (start stop : val) (num : Z) :
  (num < 0)%Z -> linspace start stop num = Raise ValueError.
Proof.
  intros H. unfold linspace. apply Z.ltb_lt in H. now rewrite H.
Qed.

Lemma linspace_raises (start stop : val) (num : Z) (e : exn) :
  linspace start stop num = Raise e -> e = ValueError.
Proof.
  unfold linspace. destruct (num <? 0)%Z; [congruence | discriminate].
Qed.

Lemma logspace_raises (start stop : val) (num : Z) (base : val) (e : exn) :
  logspace start stop num base = Raise e -> e = ValueError.
Proof.
  unfold logspace.
  destruct (linspace start stop num) as [y | e'] eqn:E; cbn; [discriminate |].
  intros H; inversion H; subst. eapply linspace_raises; eassumption.
Qed.

Lemma cut_raises (x bins : list val) (e : exn) :
  cut x bins = Raise e -> e = ValueError \/ e = IndexError.
Proof.
  unfold cut.
  destruct (negb (is_monotonic_increasing bins)); [intros H; left; congruence |].
  destruct (has_duplicates bins && negb (length bins =? 2)%nat);
    [intros H; left; congruence |].
  destruct bins; [intros H; right; congruence | discriminate].
Qed.

Lemma bin_by_values_raises df xrange nbins scale e :
  Binning.bin_by_values df xrange nbins scale = Raise e ->
  e = ValueError \/ e = IndexError \/ e = UnboundLocalError.
Proof.
  unfold Binning.bin_by_values.
  assert (T : forall bins,
             (c <- cut (col_x df) bins ;;
              (let df' := mkDF (index df) (col_x df) (col_y df)
                               (col_slope df) (Some c) in
               binned_indices <- groups df' ;;
               Ok (df', binned_indices, bins))) = Raise e ->
             e = ValueError \/ e = IndexError \/ e = UnboundLocalError).
  { intros bins. destruct (cut (col_x df) bins) as [c | e'] eqn:Ec;
      cbn [bind groups col_bin]; [discriminate |].
    intros H; inversion H; subst. destruct (cut_raises _ _ _ Ec); auto. }
  assert (L : forall bins0 : option (list val),
             (bins <- (if String.eqb scale "linear"
                       then b <- linspace (fst xrange) (snd xrange) nbins ;;
                            Ok (Some b)
                       else Ok bins0) ;;
              match bins with
              | None => Raise UnboundLocalError
              | Some bins =>
                  c <- cut (col_x df) bins ;;
                  (let df' := mkDF (index df) (col_x df) (col_y df)
                                   (col_slope df) (Some c) in
                   binned_indices <- groups df' ;;
                   Ok (df', binned_indices, bins))
              end) = Raise e ->
             e = ValueError \/ e = IndexError \/ e = UnboundLocalError).
  { intros bins0. destruct (String.eqb scale "linear").
    - destruct (linspace (fst xrange) (snd xrange) nbins) as [b' | e'] eqn:E';
        cbn [bind].
      + apply T.
      + intros H; inversion H; subst. left. eapply linspace_raises; eassumption.
    - cbn [bind]. destruct bins0 as [b |]; [apply T |].
      intros H; inversion H; auto. }
  destruct (String.eqb scale "log").
  - destruct (logspace (vlog (fst xrange)) (vlog (snd xrange)) nbins np_e)
      as [b | e'] eqn:E; cbn [bind].
    + apply L.
    + intros H; inversion H; subst. left. eapply logspace_raises; eassumption.
  - cbn [bind]. apply L.
Qed.

Lemma vlog_nonpositive (lo : R) : lo <= 0 -> undefined_log (vlog (Fin lo)).
Proof.
  intros H. unfold vlog, undefined_log. rewrite Rltb_false by assumption.
  destruct (Req_dec_T lo 0) as [-> | Hne].
  - rewrite Reqb_true by reflexivity. now left.
  - rewrite Reqb_false by assumption. now right.
Qed.

Lemma vmul_zero_step (start stop : val) (d : R) :
  undefined_log start -> 0 < d ->
  vadd (vmul (Fin 0) (vsub stop start)) start = NaN /\
  vadd (vmul (Fin 0) (vdiv (vsub stop start) (Fin d))) start = NaN /\
  veqb (vdiv (vsub stop start) (Fin d)) (Fin 0) = false.
Proof.
  intros [-> | ->] Hd.
  - destruct stop as [r | | |]; cbn;
      unfold inf_signed; rcmp; cbn; unfold inf_signed; rcmp; repeat split.
  - destruct stop; cbn; repeat split.
Qed.

Lemma linspace_first_nan (start stop : val) (num : Z) :
  undefined_log start -> (1 <= num)%Z ->
  exists rest, linspace start stop num = Ok (NaN :: rest).
Proof.
  intros Hs Hn. unfold linspace.
  replace (num <? 0)%Z with false by (symmetry; apply Z.ltb_ge; lia).
  destruct (Z.to_nat num) as [| n] eqn:En; [lia |].
  cbn [seq map INR].
  destruct (Z.ltb_spec 0 (num - 1)) as [Hdiv | Hdiv].
  - assert (Hd : 0 < IZR (num - 1)) by (now apply IZR_lt).
    destruct (vmul_zero_step start stop (IZR (num - 1)) Hs Hd) as (_ & A & B).
    rewrite B. cbn [map]. rewrite A.
    replace (1 <? num)%Z with true by (symmetry; apply Z.ltb_lt; lia).
    destruct n as [| n]; [lia |].
    cbn [seq map]. unfold set_last. cbn [removelast].
    eexists. cbn [app]. reflexivity.
  - destruct (vmul_zero_step start stop 1 Hs Rlt_0_1) as (A & _ & _).
    cbn [map]. rewrite A.
    replace (1 <? num)%Z with false by (symmetry; apply Z.ltb_ge; lia).
    eexists; reflexivity.
Qed.

Lemma cut_first_nan (x rest : list val) : cut x (NaN :: rest) = Raise ValueError.
Proof. reflexivity. Qed.

Lemma logspace_single_edge (lo h : R) :
  0 < lo -> 0 < h ->
  logspace (vlog (Fin lo)) (vlog (Fin h)) 1 np_e = Ok [Fin lo].
Proof.
  intros Hlo Hh. rewrite !vlog_fin by assumption.
  unfold logspace, linspace.
  change (1 <? 0)%Z with false. change (0 <? 1 - 1)%Z with false.
  change (1 <? 1)%Z with false. change (Z.to_nat 1) with 1%nat.
  cbn [seq map INR vsub vopp vadd vmul bind].
  rewrite vpow_np_e. cbn [vexp]. do 3 f_equal.
  rewrite Rmult_0_l, Rplus_0_l. now apply exp_ln.
Qed.

Lemma cut_code_single_edge (b0 x : val) : cut_code [b0] b0 x = None.
Proof.
  unfold cut_code, searchsorted_left. cbn [filter length].
  destruct (veqb x b0); [now rewrite orb_true_r |].
  destruct (vltb b0 x); cbn [length Nat.eqb]; now rewrite ?orb_true_r.
Qed.

(** C2, as the code has it: the binner checks nothing beforehand and
    never raises [ConfigurationError].  A negative number of edges makes
    [np.logspace] raise [ValueError]; on the log scale a lower end of the
    range [<= 0], with at least one edge, gives a first edge that is not a
    number, which [cut] rejects with [ValueError]; and a single edge over a
    positive range (the case [nbins = 0] of [bin_and_average]) fails in no
    way: no sample gets a bucket. *)
Theorem C2_binner_failures :
  forall (df : DataFrame) (xrange : Binning.point) (nbins : Z),
    ((nbins < 0)%Z ->
     Binning.bin_by_values df xrange nbins "log" = Raise ValueError)
    /\ (forall lo : R,
          fst xrange = Fin lo -> lo <= 0 -> (1 <= nbins)%Z ->
          Binning.bin_by_values df xrange nbins "log" = Raise ValueError)
    /\ (forall lo hi : R,
          xrange = (Fin lo, Fin hi) -> 0 < lo -> 0 < hi ->
          Binning.bin_by_values df xrange 1 "log"
          = Ok (mkDF (index df) (col_x df) (col_y df) (col_slope df)
                     (Some (mkCat 0 (map (fun _ => None) (col_x df)))),
                [], [Fin lo]))
    /\ (forall scale : string,
          Binning.bin_by_values df xrange nbins scale
          <> Raise ConfigurationError).
Proof.
  intros df xrange nbins. split; [| split; [| split]].
  - intros Hn. unfold Binning.bin_by_values, logspace.
    cbn [String.eqb Ascii.eqb Bool.eqb].
    now rewrite linspace_negative.
  - intros lo Hlo Hle Hn. unfold Binning.bin_by_values, logspace.
    cbn [String.eqb Ascii.eqb Bool.eqb]. rewrite Hlo.
    destruct (linspace_first_nan (vlog (Fin lo)) (vlog (snd xrange)) nbins
                (vlog_nonpositive lo Hle) Hn) as [rest ->].
    cbn [bind map]. rewrite vpow_np_e. reflexivity.
  - intros lo hi -> Hlo Hhi. unfold Binning.bin_by_values.
    cbn [String.eqb Ascii.eqb Bool.eqb fst snd].
    rewrite logspace_single_edge by assumption. cbn [bind].
    unfold cut. cbn [is_monotonic_increasing has_duplicates existsb notna
                     isnan negb andb orb length Nat.sub bind groups col_bin
                     observed_keys ncat seq filter map].
    rewrite (map_ext _ (fun _ => None) (cut_code_single_edge (Fin lo))).
    reflexivity.
  - intros scale H. apply bin_by_values_raises in H.
    destruct H as [H | [H | H]]; discriminate.
Qed.

Lemma C2_binner_failures_witness :
  Binning.bin_by_values (mkDF [0%nat] [Fin 1] [Fin 1] None None)
                        (Fin 0, Fin 1) 3 "log"
  = Raise ValueError.
Proof.
  apply (proj1 (proj2 (C2_binner_failures
                         (mkDF [0%nat] [Fin 1] [Fin 1] None None)
                         (Fin 0, Fin 1) 3)) 0);
    [reflexivity | lra | lia].
Defined.

(** C2 as stated fails: with [nbins = 0] there is one edge and no bucket;
    nothing is raised, every sample falls outside and the curve is empty. *)
Lemma C2_zero_bins_empty_curve :
  snd (Binning.bin_and_average Binning.failing_curve_fit
         Binning.failing_spline Binning.STRAT_USED [Fin 1; Fin 2]
         [Fin 1; Fin 1] None 0 Binning.half None false "y_mean" false true)
  = Ok (Binning.mkOut [] [] None)
  /\ snd (Binning.bin_and_average Binning.failing_curve_fit
            Binning.failing_spline Binning.STRAT_USED [Fin 1; Fin 2]
            [Fin 1; Fin 1] None 0 Binning.half None false "y_mean" false true)
     <> Raise ConfigurationError.
Proof.
  assert (E : snd (Binning.bin_and_average Binning.failing_curve_fit
                     Binning.failing_spline Binning.STRAT_USED [Fin 1; Fin 2]
                     [Fin 1; Fin 1] None 0 Binning.half None false "y_mean"
                     false true)
              = Ok (Binning.mkOut [] [] None)) by (run_binning; reflexivity).
  split; [exact E | rewrite E; discriminate].
Qed.

(** With [nbins = -2] the number of edges is negative: the failure is the
    [ValueError] of [np.logspace], raised while binning. *)
Example negative_nbins_value_error :
  Binning.bin_and_average Binning.failing_curve_fit Binning.failing_spline
    Binning.STRAT_USED [Fin 1; Fin 2] [Fin 1; Fin 1] None (-2) Binning.half
    None false "y_mean" false true
  = (Binning.STRAT_USED, Raise ValueError).
Proof. run_binning. reflexivity. Qed.

(** ** Increasing edges *)

Section Increasing_edges.

Variable E : nat -> R.
Hypothesis E_increasing : forall i j : nat, (i < j)%nat -> E i < E j.

Let edge (i : nat) : val := Fin (E i).

Lemma edges_monotonic (a n : nat) :
  is_monotonic_increasing (map edge (seq a n)) = true.
Proof.
  revert a. induction n as [| n IH]; intros a; [reflexivity |].
  cbn [seq map is_monotonic_increasing]. rewrite IH.
  destruct n as [| n]; [reflexivity |].
  cbn [seq map edge notna isnan negb andb vleb].
  rewrite Rleb_true; [reflexivity |].
  apply Rlt_le, E_increasing. lia.
Qed.

Lemma edges_above (a b n : nat) :
  (a < b)%nat -> existsb (veqb (edge a)) (map edge (seq b n)) = false.
Proof.
  revert b. induction n as [| n IH]; intros b Hab; [reflexivity |].
  cbn [seq map existsb edge veqb].
  rewrite Reqb_false.
  - apply IH. lia.
  - pose proof (E_increasing a b Hab). lra.
Qed.

Lemma edges_unique (a n : nat) : has_duplicates (map edge (seq a n)) = false.
Proof.
  revert a. induction n as [| n IH]; intros a; [reflexivity |].
  cbn [seq map has_duplicates]. rewrite IH, edges_above by lia. reflexivity.
Qed.

(** The edges strictly below the edge [j]. *)
Lemma edges_below (a n j : nat) :
  (a <= j)%nat -> (j < a + n)%nat ->
  searchsorted_left (map edge (seq a n)) (edge j) = (j - a)%nat.
Proof.
  unfold searchsorted_left. revert a.
  induction n as [| n IH]; intros a Ha Hj; [lia |].
  cbn [seq map filter edge vltb].
  destruct (Nat.eq_dec a j) as [-> | Hne].
  - rewrite Rltb_false by lra.
    replace (j - j)%nat with 0%nat by lia.
    clear IH Ha Hj.
    assert (G : forall b m, (j < b)%nat ->
                filter (fun b0 => vltb b0 (Fin (E j))) (map edge (seq b m)) = []).
    { intros b m. revert b. induction m as [| m IHm]; intros b Hb; [reflexivity |].
      cbn [seq map filter edge vltb].
      rewrite Rltb_false by (apply Rlt_le, E_increasing; lia).
      apply IHm. lia. }
    rewrite G by lia. reflexivity.
  - rewrite Rltb_true by (apply E_increasing; lia).
    cbn [length]. rewrite IH by lia. lia.
Qed.

End Increasing_edges.

(** ** Edges spaced evenly in log-space (C7) *)

Lemma removelast_map_seq {A : Type} (f : nat -> A) (m : nat) :
  removelast (map f (seq 0 (S m))) = map f (seq 0 m).
Proof. rewrite seq_S, map_app. cbn [map]. apply removelast_last. Qed.

Lemma log_edge_increasing (lo hi : R) (m : nat) :
  0 < lo < hi -> (1 <= m)%nat ->
  forall i j : nat, (i < j)%nat -> log_edge lo hi m i < log_edge lo hi m j.
Proof.
  intros [Hlo Hhi] Hm i j Hij. unfold log_edge. apply exp_increasing.
  assert (Hd : 0 < ln hi - ln lo) by (pose proof (ln_increasing lo hi Hlo Hhi); lra).
  assert (HM : 0 < INR m) by (apply lt_0_INR; lia).
  assert (Hst : 0 < (ln hi - ln lo) / INR m) by (now apply Rdiv_lt_0_compat).
  apply lt_INR in Hij. nra.
Qed.

Lemma log_edge_first (lo hi : R) (m : nat) : 0 < lo -> log_edge lo hi m 0 = lo.
Proof.
  intros H. unfold log_edge. cbn [INR]. rewrite Rmult_0_l, Rplus_0_r.
  now apply exp_ln.
Qed.

Lemma log_edge_last (lo hi : R) (m : nat) :
  0 < hi -> (1 <= m)%nat -> log_edge lo hi m m = hi.
Proof.
  intros H Hm. unfold log_edge.
  assert (HM : 0 < INR m) by (apply lt_0_INR; lia).
  replace (ln lo + INR m * ((ln hi - ln lo) / INR m)) with (ln hi)
    by (field; lra).
  now apply exp_ln.
Qed.

Lemma logspace_log_edges (lo hi : R) (num : Z) :
  0 < lo < hi -> (2 <= num)%Z ->
  logspace (vlog (Fin lo)) (vlog (Fin hi)) num np_e
  = Ok (map (fun i => Fin (log_edge lo hi (Z.to_nat num - 1) i))
            (seq 0 (S (Z.to_nat num - 1)))).
Proof.
  intros [Hlo Hhi] Hnum.
  assert (Hd : 0 < ln hi - ln lo)
    by (pose proof (ln_increasing lo hi Hlo Hhi); lra).
  remember (Z.to_nat num - 1)%nat as m eqn:Em.
  assert (Hm : (1 <= m)%nat) by lia.
  assert (En : Z.to_nat num = S m) by lia.
  assert (HM : 0 < INR m) by (apply lt_0_INR; lia).
  assert (Ediv : IZR (num - 1) = INR m).
  { rewrite INR_IZR_INZ. f_equal. lia. }
  unfold logspace, linspace.
  replace (num <? 0)%Z with false by (symmetry; apply Z.ltb_ge; lia).
  replace (0 <? num - 1)%Z with true by (symmetry; apply Z.ltb_lt; lia).
  replace (1 <? num)%Z with true by (symmetry; apply Z.ltb_lt; lia).
  rewrite !vlog_fin by lra. rewrite vsub_fin, Ediv, vdiv_fin by lra.
  assert (Hst : 0 < (ln hi - ln lo) / INR m) by (now apply Rdiv_lt_0_compat).
  cbn [veqb]. rewrite Reqb_false by lra.
  rewrite En, !map_map. cbn [vmul vadd bind].
  unfold set_last. rewrite removelast_map_seq, map_app, map_map.
  cbn [map]. rewrite !vpow_np_e. cbn [vexp].
  rewrite seq_S, map_app. cbn [map Nat.add]. f_equal. f_equal.
  - apply map_ext. intros i. rewrite vpow_np_e. cbn [vexp].
    unfold log_edge. f_equal. f_equal. lra.
  - rewrite log_edge_last; [| lra | lia]. rewrite exp_ln by lra. reflexivity.
Qed.

Lemma cut_log_edges (x : list val) (lo hi : R) (m : nat) :
  0 < lo < hi -> (1 <= m)%nat ->
  let bins := map (fun i => Fin (log_edge lo hi m i)) (seq 0 (S m)) in
  cut x bins = Ok (mkCat m (map (cut_code bins (Fin lo)) x)).
Proof.
  intros H Hm bins. unfold cut.
  pose proof (log_edge_increasing lo hi m H Hm) as Inc.
  unfold bins at 1 2.
  rewrite (edges_monotonic _ Inc), (edges_unique _ Inc).
  cbn [negb andb]. unfold bins. cbn [seq map].
  rewrite log_edge_first by lra.
  cbn [length]. rewrite length_map, length_seq.
  replace (S m - 1)%nat with m by lia. reflexivity.
Qed.

Lemma cut_code_lowest (lo hi : R) (m : nat) :
  0 < lo < hi -> (1 <= m)%nat ->
  cut_code (map (fun i => Fin (log_edge lo hi m i)) (seq 0 (S m))) (Fin lo)
           (Fin lo)
  = Some 0%nat.
Proof.
  intros H Hm. unfold cut_code. cbn [veqb isnan orb].
  rewrite Reqb_true by reflexivity.
  rewrite length_map, length_seq.
  destruct m as [| m]; [lia | reflexivity].
Qed.

Lemma cut_code_highest (lo hi : R) (m : nat) :
  0 < lo < hi -> (1 <= m)%nat ->
  cut_code (map (fun i => Fin (log_edge lo hi m i)) (seq 0 (S m))) (Fin lo)
           (Fin hi)
  = Some (m - 1)%nat.
Proof.
  intros H Hm. unfold cut_code. cbn [veqb isnan orb].
  rewrite Reqb_false by lra.
  pose proof (log_edge_increasing lo hi m H Hm) as Inc.
  pose proof (edges_below _ Inc 0 (S m) m) as B.
  cbn beta in B. rewrite log_edge_last in B; [| lra | lia].
  rewrite B by lia.
  rewrite length_map, length_seq, Nat.sub_0_r.
  replace (m =? S m)%nat with false by (symmetry; apply Nat.eqb_neq; lia).
  replace (m =? 0)%nat with false by (symmetry; apply Nat.eqb_neq; lia).
  reflexivity.
Qed.

(** ** The runner and its driver (C9) *)

Lemma Runner_run_zero (f : nat -> Testing.trace) process_fun nruns cancel_at :
  nruns = 0%nat \/ cancel_at = Some 0%nat ->
  Testing.Runner_run f process_fun nruns cancel_at = (0%nat, []).
Proof.
  intros [-> | ->]; unfold Testing.Runner_run; [reflexivity |].
  destruct nruns; reflexivity.
Qed.

Lemma run_from_count (f : nat -> Testing.trace) process_fun cancel_at i todo rdata :
  (i <= fst (Testing.run_from f process_fun cancel_at i todo rdata))%nat.
Proof.
  revert i rdata. induction todo as [| todo IH]; intros i rdata; cbn; [lia |].
  destruct (match cancel_at with Some k => (k <=? i)%nat | None => false end);
    cbn; [lia |].
  specialize (IH (S i) (process_fun rdata (f i))). lia.
Qed.

(** As soon as one run completes the collected data is aggregated. *)
Lemma driver_aggregates get_final get_final_dscr self f nruns :
  (1 <= nruns)%nat ->
  exists nqs sqes stds,
    In (Testing.ProcessAndPlot nqs sqes stds (Testing.save self)
                               (Testing.show self))
       (snd (Testing.sqe_evolution_multiple get_final get_final_dscr self f
                                            nruns None)).
Proof.
  intros Hn. unfold Testing.sqe_evolution_multiple, Testing.Runner_run.
  destruct nruns as [| n]; [lia |]. cbn [Testing.run_from].
  pose proof (run_from_count f Testing.add_run_data None 1 n
                (Testing.add_run_data [] (f 0%nat))) as C.
  destruct (Testing.run_from f Testing.add_run_data None 1 n
              (Testing.add_run_data [] (f 0%nat))) as [done rdata].
  cbn [fst] in C. cbn [Testing.get_lists].
  destruct (Nat.eqb_spec done 0) as [-> | _]; [lia |].
  destruct (Testing.full_lists rdata) as [[nqs sqes] stds].
  exists nqs, sqes, stds. cbn [snd].
  apply in_or_app. right. cbn. right. left. reflexivity.
Qed.

(** C9: when no trial completes, because none was asked for or because
    the abort came before the first one, the runner returns the count 0
    and the driver returns at once: no statistics, no estimation data, no
    aggregation (processing and plotting) and no file. *)
Theorem C9_no_data_no_aggregation :
  forall get_final get_final_dscr (self : Testing.TestBAE)
         (sqe_evolution : nat -> Testing.trace) (nruns : nat)
         (cancel_at : option nat),
    nruns = 0%nat \/ cancel_at = Some 0%nat ->
    fst (Testing.Runner_run sqe_evolution Testing.add_run_data nruns cancel_at)
    = 0%nat
    /\ Testing.sqe_evolution_multiple get_final get_final_dscr self
         sqe_evolution nruns cancel_at
       = (0%nat, []).
Proof.
  intros get_final get_final_dscr self f nruns cancel_at H.
  unfold Testing.sqe_evolution_multiple.
  rewrite Runner_run_zero by assumption. split; reflexivity.
Qed.

Lemma C9_no_data_witness :
  fst (Testing.Runner_run (fun _ => ([Fin 1], [Fin 1], [Fin 1]))
                          Testing.add_run_data 0 None)
  = 0%nat
  /\ Testing.sqe_evolution_multiple (fun _ => []) (fun _ => [])
       (Testing.mkTestBAE false true true)
       (fun _ => ([Fin 1], [Fin 1], [Fin 1])) 0 None
     = (0%nat, []).
Proof.
  apply (C9_no_data_no_aggregation (fun _ => []) (fun _ => [])
           (Testing.mkTestBAE false true true)
           (fun _ => ([Fin 1], [Fin 1], [Fin 1])) 0 None).
  left. reflexivity.
Defined.

(** ** Minimum and maximum of finite values *)

Lemma positive_list (xs : list val) :
  (forall v, In v xs -> positive v) ->
  exists rx, xs = map Fin rx /\ (forall r, In r rx -> 0 < r).
Proof.
  induction xs as [| v xs IH]; intros H.
  - exists []. split; [reflexivity | contradiction].
  - destruct (H v (or_introl eq_refl)) as (r & -> & Hr).
    destruct IH as (rx & -> & Hrx); [intros w Hw; apply H; now right |].
    exists (r :: rx). split; [reflexivity |].
    intros r' [<- | Hin]; [assumption | now apply Hrx].
Qed.

Lemma fold_min_fin (rs : list R) (a : R) :
  exists m,
    fold_left (fun best item => if vltb item best then item else best)
              (map Fin rs) (Fin a) = Fin m
    /\ In m (a :: rs) /\ (forall r, In r (a :: rs) -> m <= r).
Proof.
  revert a. induction rs as [| b rs IH]; intros a; cbn [map fold_left].
  - exists a. split; [reflexivity |]. split; [now left |].
    intros r [<- | []]; lra.
  - cbn [vltb]. unfold Rltb. destruct (Rlt_dec b a) as [Hlt | Hge].
    + destruct (IH b) as (m & E & Hin & Hle). exists m. split; [exact E |].
      split.
      * right. exact Hin.
      * intros r [<- | Hr]; [| now apply Hle].
        specialize (Hle b (or_introl eq_refl)). lra.
    + destruct (IH a) as (m & E & Hin & Hle). exists m. split; [exact E |].
      split.
      * destruct Hin as [<- | Hin]; [now left | right; now right].
      * intros r [<- | [<- | Hr]].
        -- apply Hle. now left.
        -- specialize (Hle a (or_introl eq_refl)). lra.
        -- apply Hle. now right.
Qed.

Lemma fold_max_fin (rs : list R) (a : R) :
  exists m,
    fold_left (fun best item => if vltb best item then item else best)
              (map Fin rs) (Fin a) = Fin m
    /\ In m (a :: rs) /\ (forall r, In r (a :: rs) -> r <= m).
Proof.
  revert a. induction rs as [| b rs IH]; intros a; cbn [map fold_left].
  - exists a. split; [reflexivity |]. split; [now left |].
    intros r [<- | []]; lra.
  - cbn [vltb]. unfold Rltb. destruct (Rlt_dec a b) as [Hlt | Hge].
    + destruct (IH b) as (m & E & Hin & Hle). exists m. split; [exact E |].
      split.
      * right. exact Hin.
      * intros r [<- | Hr]; [| now apply Hle].
        specialize (Hle b (or_introl eq_refl)). lra.
    + destruct (IH a) as (m & E & Hin & Hle). exists m. split; [exact E |].
      split.
      * destruct Hin as [<- | Hin]; [now left | right; now right].
      * intros r [<- | [<- | Hr]].
        -- apply Hle. now left.
        -- specialize (Hle a (or_introl eq_refl)). lra.
        -- apply Hle. now right.
Qed.

Lemma py_min_fin (rx : list R) :
  rx <> [] ->
  exists lo, py_min (map Fin rx) = Ok (Fin lo)
             /\ In lo rx /\ (forall r, In r rx -> lo <= r).
Proof.
  destruct rx as [| a rs]; [congruence | intros _]. cbn [map py_min].
  destruct (fold_min_fin rs a) as (m & -> & H). now exists m.
Qed.

Lemma py_max_fin (rx : list R) :
  rx <> [] ->
  exists hi, py_max (map Fin rx) = Ok (Fin hi)
             /\ In hi rx /\ (forall r, In r rx -> r <= hi).
Proof.
  destruct rx as [| a rs]; [congruence | intros _]. cbn [map py_max].
  destruct (fold_max_fin rs a) as (m & -> & H). now exists m.
Qed.

(** ** The order of the codes [cut] gives *)

Lemma vleb_refl (v : val) : notna v = true -> vleb v v = true.
Proof.
  destruct v; cbn; try reflexivity; try discriminate.
  intros _. apply Rleb_true. lra.
Qed.

Lemma vleb_trans (a b c : val) :
  vleb a b = true -> vleb b c = true -> vleb a c = true.
Proof.
  destruct a, b, c; cbn; try reflexivity; try discriminate.
  rewrite !Rleb_iff. lra.
Qed.







(** ** Mean and median of finite values *)

Lemma filter_notna_fin (rs : list R) : filter notna (map Fin rs) = map Fin rs.
Proof. induction rs as [| r rs IH]; cbn; [reflexivity | now rewrite IH]. Qed.

Lemma fold_vadd_fin (rs : list R) (a : R) :
  fold_left vadd (map Fin rs) (Fin a) = Fin (a + Rsum rs).
Proof.
  revert a. induction rs as [| r rs IH]; intros a; cbn [map fold_left Rsum fold_right].
  - f_equal. lra.
  - cbn [vadd]. rewrite IH. f_equal. unfold Rsum. lra.
Qed.

Lemma vsum_fin (rs : list R) : vsum (map Fin rs) = Fin (Rsum rs).
Proof. unfold vsum. rewrite fold_vadd_fin. f_equal. lra. Qed.

Lemma mean_fin (rs : list R) :
  rs <> [] -> mean (map Fin rs) = Fin (Rsum rs / INR (length rs)).
Proof.
  intros Hne. unfold mean. rewrite filter_notna_fin.
  destruct rs as [| r rs]; [congruence |].
  cbn [map]. change (Fin r :: map Fin rs) with (map Fin (r :: rs)).
  rewrite vsum_fin, length_map. apply vdiv_fin.
  apply not_0_INR. discriminate.
Qed.

Lemma Rsum_lower (rs : list R) :
  rs <> [] -> exists r, In r rs /\ r * INR (length rs) <= Rsum rs.
Proof.
  induction rs as [| a rs IH]; [congruence | intros _].
  destruct rs as [| b rs].
  - exists a. split; [now left |]. cbn. lra.
  - destruct IH as (r & Hin & Hr); [discriminate |].
    remember (b :: rs) as l eqn:El.
    assert (Hn : 0 < INR (length l)) by (subst l; apply lt_0_INR; cbn; lia).
    change (Rsum (a :: l)) with (a + Rsum l).
    change (length (a :: l)) with (S (length l)). rewrite S_INR.
    destruct (Rle_dec a r) as [Har | Har].
    + exists a. split; [now left | nra].
    + exists r. split; [now right | nra].
Qed.

Lemma Rsum_upper (rs : list R) :
  rs <> [] -> exists r, In r rs /\ Rsum rs <= r * INR (length rs).
Proof.
  induction rs as [| a rs IH]; [congruence | intros _].
  destruct rs as [| b rs].
  - exists a. split; [now left |]. cbn. lra.
  - destruct IH as (r & Hin & Hr); [discriminate |].
    remember (b :: rs) as l eqn:El.
    assert (Hn : 0 < INR (length l)) by (subst l; apply lt_0_INR; cbn; lia).
    change (Rsum (a :: l)) with (a + Rsum l).
    change (length (a :: l)) with (S (length l)). rewrite S_INR.
    destruct (Rle_dec r a) as [Har | Har].
    + exists a. split; [now left | nra].
    + exists r. split; [now right | nra].
Qed.

Lemma mean_between : between mean.
Proof.
  intros rs Hne. rewrite mean_fin by assumption.
  destruct (Rsum_lower rs Hne) as (r1 & H1 & L1).
  destruct (Rsum_upper rs Hne) as (r2 & H2 & L2).
  assert (Hn : 0 < INR (length rs)).
  { apply lt_0_INR. destruct rs; [congruence | cbn; lia]. }
  exists (Rsum rs / INR (length rs)), r1, r2.
  repeat split; try assumption.
  - apply Rmult_le_reg_r with (INR (length rs)); [assumption |].
    unfold Rdiv. rewrite Rmult_assoc, Rinv_l by lra. lra.
  - apply Rmult_le_reg_r with (INR (length rs)); [assumption |].
    unfold Rdiv. rewrite Rmult_assoc, Rinv_l by lra. lra.
Qed.

Lemma insert_sorted_fin (r : R) (l : list val) :
  (forall v, In v l -> exists s, v = Fin s) ->
  length (insert_sorted (Fin r) l) = S (length l)
  /\ (forall v, In v (insert_sorted (Fin r) l) <-> v = Fin r \/ In v l).
Proof.
  induction l as [| a l IH]; intros Hl; cbn [insert_sorted].
  - split; [reflexivity |]. intros v. cbn. intuition congruence.
  - destruct (vleb (Fin r) a).
    + split; [reflexivity |]. intros v. cbn. intuition congruence.
    + destruct IH as [IHl IHi]; [intros v Hv; apply Hl; now right |].
      split; [cbn; now rewrite IHl |].
      intros v. cbn [In]. rewrite IHi. intuition congruence.
Qed.

Lemma sort_fin (rs : list R) :
  length (sort (map Fin rs)) = length rs
  /\ (forall v, In v (sort (map Fin rs)) <-> In v (map Fin rs)).
Proof.
  induction rs as [| r rs [IHl IHi]]; cbn [map sort fold_right].
  - split; [reflexivity | tauto].
  - fold (sort (map Fin rs)).
    destruct (insert_sorted_fin r (sort (map Fin rs))) as [L I].
    { intros v Hv. apply IHi in Hv. apply in_map_iff in Hv.
      destruct Hv as (s & <- & _). now exists s. }
    split; [rewrite L, IHl; reflexivity |].
    intros v. rewrite I, IHi. cbn. intuition congruence.
Qed.

Lemma nth_sorted_fin (rs : list R) (i : nat) :
  (i < length rs)%nat ->
  exists r, nth i (sort (map Fin rs)) NaN = Fin r /\ In r rs.
Proof.
  intros Hi. destruct (sort_fin rs) as [L I].
  assert (Hin : In (nth i (sort (map Fin rs)) NaN) (sort (map Fin rs)))
    by (apply nth_In; lia).
  apply I in Hin. apply in_map_iff in Hin. destruct Hin as (r & E & Hr).
  exists r. split; [now rewrite E | assumption].
Qed.

Lemma median_between : between median.
Proof.
  intros rs Hne. unfold median. rewrite filter_notna_fin.
  destruct (sort_fin rs) as [L _]. rewrite L.
  assert (Hn : (0 < length rs)%nat) by (destruct rs; [congruence | cbn; lia]).
  destruct (length rs) as [| n] eqn:En; [lia |].
  assert (Hhalf : (S n / 2 < length rs)%nat)
    by (rewrite En; apply Nat.div_lt; lia).
  destruct (Nat.even (S n)) eqn:Ev.
  - assert (Hprev : (S n / 2 - 1 < length rs)%nat) by lia.
    destruct (nth_sorted_fin rs _ Hprev) as (a & -> & Ha).
    destruct (nth_sorted_fin rs _ Hhalf) as (b & -> & Hb).
    cbn [vadd]. rewrite vdiv_fin by lra.
    destruct (Rle_dec a b).
    + exists ((a + b) / 2), a, b. repeat split; try assumption; lra.
    + exists ((a + b) / 2), b, a. repeat split; try assumption; lra.
  - destruct (nth_sorted_fin rs _ Hhalf) as (b & -> & Hb).
    exists b, b, b. repeat split; try assumption; lra.
Qed.

(** ** Groups of one frame *)

Lemma select_map {A B : Type} (f : A -> B) (k : nat) (cs : list (option nat))
  (col : list A) :
  select k cs (map f col) = map f (select k cs col).
Proof.
  unfold select. revert col.
  induction cs as [| c cs IH]; intros [| a col]; cbn [map combine filter];
    try reflexivity.
  cbn [fst]. destruct (code_is k c); cbn [map snd]; now rewrite IH.
Qed.

Lemma select_In {A : Type} (k : nat) (cs : list (option nat)) (col : list A)
  (a : A) :
  In a (select k cs col) ->
  exists i, nth_error cs i = Some (Some k) /\ nth_error col i = Some a.
Proof.
  unfold select. revert col.
  induction cs as [| c cs IH]; intros [| b col]; cbn [combine filter map];
    try contradiction.
  cbn [fst]. destruct (code_is k c) eqn:E.
  - cbn [map snd In]. intros [<- | H].
    + exists 0%nat. cbn. split; [| reflexivity].
      destruct c as [j |]; cbn in E; [| discriminate].
      apply Nat.eqb_eq in E. now subst.
    + destruct (IH col H) as (i & H1 & H2). now exists (S i).
  - intros H. destruct (IH col H) as (i & H1 & H2). now exists (S i).
Qed.

Lemma select_nonempty {A : Type} (k : nat) (cs : list (option nat))
  (col : list A) :
  length cs = length col -> existsb (code_is k) cs = true ->
  select k cs col <> [].
Proof.
  unfold select. revert col.
  induction cs as [| c cs IH]; intros [| b col] Hlen Hex; cbn in Hlen;
    try discriminate.
  cbn [existsb] in Hex. cbn [combine filter fst].
  destruct (code_is k c); [discriminate |].
  cbn [orb] in Hex. apply IH; [lia | assumption].
Qed.

Lemma seq_sorted (a n : nat) : StronglySorted lt (seq a n).
Proof.
  revert a. induction n as [| n IH]; intros a; cbn [seq]; constructor.
  - apply IH.
  - apply Forall_forall. intros j Hj. apply in_seq in Hj. lia.
Qed.



Lemma observed_keys_observed (c : Categorical) (k : nat) :
  In k (observed_keys c) -> existsb (code_is k) (codes c) = true.
Proof. unfold observed_keys. intros H. now apply filter_In in H. Qed.


Lemma filter_mask_In {A : Type} (mask : list bool) (l : list A) (a : A) :
  In a (filter_mask mask l) -> In a l.
Proof.
  unfold filter_mask. revert l.
  induction mask as [| m mask IH]; intros [| b l]; cbn [combine filter map];
    try contradiction.
  cbn [fst]. destruct m; cbn [map snd In].
  - intros [<- | H]; [now left | right; now apply IH].
  - intros H. right. now apply IH.
Qed.


Lemma map_sorted (f : nat -> val) (keys : list nat) :
  StronglySorted lt keys ->
  (forall k k', In k keys -> In k' keys -> (k < k')%nat ->
                val_lt (f k) (f k')) ->
  StronglySorted val_lt (map f keys).
Proof.
  induction 1 as [| k keys Hs IH Hf]; intros H; cbn [map]; constructor.
  - apply IH. intros a b Ha Hb. apply H; now right.
  - apply Forall_forall. intros v Hv. apply in_map_iff in Hv.
    destruct Hv as (k' & <- & Hk').
    rewrite Forall_forall in Hf.
    apply H; [now left | now right | now apply Hf].
Qed.

Lemma sorted_strictly_ascending (l : list val) :
  StronglySorted val_lt l -> strictly_ascending l.
Proof.
  induction 1 as [| a l Hs IH Hf]; cbn [strictly_ascending]; [exact I |].
  split; [| exact IH].
  destruct l as [| b l]; [exact I |].
  apply Forall_inv in Hf. destruct Hf as (x & y & -> & -> & Hxy).
  cbn. now apply Rltb_true.
Qed.

(** ** The aggregated [x] of the buckets *)

Section Grouped_x.

Variables (b0 : val) (rest : list val) (rx : list R).
Hypothesis bins_monotonic : is_monotonic_increasing (b0 :: rest) = true.
Hypothesis rx_positive : forall r, In r rx -> 0 < r.

Let cs : list (option nat) := map (cut_code (b0 :: rest) b0) (map Fin rx).




Variable agg : list val -> val.
Hypothesis agg_between : between agg.




End Grouped_x.

(** ** The steps of [bin_and_average] *)

Lemma cut_ok_inv (x bins : list val) (c : Categorical) :
  cut x bins = Ok c ->
  exists b0 rest,
    bins = b0 :: rest
    /\ is_monotonic_increasing bins = true
    /\ (has_duplicates bins = false \/ length bins = 2%nat)
    /\ c = mkCat (length bins - 1) (map (cut_code bins b0) x).
Proof.
  unfold cut.
  destruct (is_monotonic_increasing bins) eqn:Hm; cbn [negb]; [| discriminate].
  destruct (has_duplicates bins) eqn:Hd; cbn [andb].
  - destruct (Nat.eqb_spec (length bins) 2) as [E2 | N2]; cbn [negb];
      [| discriminate].
    destruct bins as [| b0 rest]; [discriminate |].
    intros H. injection H as <-. exists b0, rest. auto.
  - destruct bins as [| b0 rest]; [discriminate |].
    intros H. injection H as <-. exists b0, rest. auto.
Qed.

Lemma bin_by_values_log_inv df xrange n df' binned_indices bins :
  Binning.bin_by_values df xrange n "log" = Ok (df', binned_indices, bins) ->
  logspace (vlog (fst xrange)) (vlog (snd xrange)) n np_e = Ok bins
  /\ exists c,
       cut (col_x df) bins = Ok c
       /\ df' = mkDF (index df) (col_x df) (col_y df) (col_slope df) (Some c).
Proof.
  unfold Binning.bin_by_values. cbn [String.eqb Ascii.eqb Bool.eqb].
  destruct (logspace (vlog (fst xrange)) (vlog (snd xrange)) n np_e)
    as [b | e]; cbn [bind]; [| discriminate].
  destruct (cut (col_x df) b) as [c | e] eqn:Ec; cbn [bind groups col_bin];
    [| discriminate].
  intros H. injection H as <- _ <-. split; [reflexivity |].
  exists c. split; [exact Ec | reflexivity].
Qed.

Lemma prepare_inv xs ys fixed_point strategy xrange df :
  Binning.prepare xs ys fixed_point strategy = Ok (xrange, df) ->
  py_min xs = Ok (fst xrange) /\ py_max xs = Ok (snd xrange)
  /\ col_x df = xs /\ col_y df = ys /\ col_bin df = None
  /\ col_slope df
     = option_map
         (fun fp => map (Binning.calculate_slope (fst fp, vpow (snd fp) (Fin 2)))
                        (combine xs ys))
         fixed_point.
Proof.
  unfold Binning.prepare.
  destruct (py_min xs) as [lo | e]; cbn [bind]; [| discriminate].
  destruct (py_max xs) as [hi | e]; cbn [bind]; [| discriminate].
  destruct fixed_point as [fp |].
  - unfold new_frame.
    match goal with |- context [if ?b then _ else _] => destruct b end;
      cbn [bind]; [| discriminate].
    intros H. injection H as <- <-. cbn. auto 10.
  - destruct (String.eqb strategy "slope"); [discriminate |].
    unfold new_frame.
    match goal with |- context [if ?b then _ else _] => destruct b end;
      cbn [bind]; [| discriminate].
    intros H. injection H as <- <-. cbn. auto 10.
Qed.

Lemma aggregate_frame_grouping df c strategy logdomain :
  col_bin df = Some c -> grouping strategy ->
  Binning.aggregate_frame df strategy logdomain
  = Ok ((if logdomain then map_xy vexp else fun d => d)
          (dropna (grouped (aggregate_of strategy) c
                           ((if logdomain then map_xy vlog else fun d => d) df)))).
Proof.
  intros Hc Hs. unfold Binning.aggregate_frame, aggregate_of.
  assert (G : forall d, col_bin d = Some c ->
                        forall agg, groupby_agg agg d = Ok (grouped agg c d)).
  { intros d Hd agg. unfold groupby_agg. now rewrite Hd. }
  assert (Hc' : col_bin ((if logdomain then map_xy vlog else fun d => d) df)
                = Some c) by (destruct logdomain; exact Hc).
  destruct Hs as [-> | [-> | [-> | ->]]];
    cbn [Binning.is_mean Binning.is_median String.eqb Ascii.eqb Bool.eqb orb];
    destruct logdomain; cbn [bind]; rewrite G by exact Hc'; reflexivity.
Qed.

Section Pipeline.

Variable curve_fit :
  (val -> val -> result val) -> list val -> list val -> result val.
Variable LSQUnivariateSpline :
  list val -> list val -> list val -> result (val -> val).

Lemma bin_and_average_inv used xs ys fixed_point nbins ypower full_output
  strategy logdomain silent o :
  snd (Binning.bin_and_average curve_fit LSQUnivariateSpline used xs ys
         fixed_point nbins ypower None full_output strategy logdomain silent)
  = Ok o ->
  exists xrange df df' binned_indices bins agg,
    Binning.prepare xs ys fixed_point strategy = Ok (xrange, df)
    /\ Binning.bin_by_values df xrange (nbins + 1) "log"
       = Ok (df', binned_indices, bins)
    /\ Binning.aggregate_frame df' strategy logdomain = Ok agg
    /\ Binning.curve curve_fit LSQUnivariateSpline agg xrange ys fixed_point
                     nbins ypower strategy
       = Ok (Binning.out_xs o, Binning.out_ys o).
Proof.
  unfold Binning.bin_and_average.
  destruct (Binning.prepare xs ys fixed_point strategy) as [[xrange df] | e]
    eqn:Ep; [| discriminate].
  destruct (Binning.dict_get used strategy) as [seen | e]; [| discriminate].
  cbn [snd]. unfold Binning.bin_and_aggregate.
  destruct (Binning.bin_by_values df xrange (nbins + 1) "log")
    as [[[df' binned_indices] bins] | e] eqn:Eb; cbn [bind]; [| discriminate].
  destruct (Binning.group_points xs ys binned_indices) as [grouped_points | e];
    cbn [bind]; [| discriminate].
  destruct (Binning.aggregate_frame df' strategy logdomain) as [agg | e]
    eqn:Ea; cbn [bind]; [| discriminate].
  destruct (Binning.curve curve_fit LSQUnivariateSpline agg xrange ys
              fixed_point nbins ypower strategy) as [[cx cy] | e] eqn:Ec;
    cbn [bind Binning.prepend]; [| discriminate].
  intros H. injection H as <-. cbn [Binning.out_xs Binning.out_ys].
  exists xrange, df, df', binned_indices, bins, agg. auto.
Qed.

Lemma curve_grouping_x df xrange ys fixed_point nbins ypower strategy cx cy :
  grouping strategy ->
  Binning.curve curve_fit LSQUnivariateSpline df xrange ys fixed_point nbins
                ypower strategy = Ok (cx, cy) ->
  cx = col_x df.
Proof.
  intros Hs. unfold Binning.curve.
  destruct Hs as [-> | [-> | [-> | ->]]];
    cbn [Binning.is_y Binning.is_slope String.eqb Ascii.eqb Bool.eqb orb bind].
  - intros H. now injection H as <- _.
  - intros H. now injection H as <- _.
  - destruct (get_slope df) as [s | e]; cbn [bind]; [| discriminate].
    destruct (Binning.eval_power_function_series (col_x df) s fixed_point)
      as [v | e]; cbn [bind]; [| discriminate].
    intros H. now injection H as <- _.
  - destruct (get_slope df) as [s | e]; cbn [bind]; [| discriminate].
    destruct (Binning.eval_power_function_series (col_x df) s fixed_point)
      as [v | e]; cbn [bind]; [| discriminate].
    intros H. now injection H as <- _.
Qed.

Lemma curve_fitting_x df xrange ys fixed_point nbins ypower strategy cx cy :
  strategy = "fit"%string \/ strategy = "spline"%string ->
  Binning.curve curve_fit LSQUnivariateSpline df xrange ys fixed_point nbins
                ypower strategy = Ok (cx, cy) ->
  Binning.shrunk_logspace (vlog (fst xrange), vlog (snd xrange)) nbins = Ok cx.
Proof.
  intros Hs. unfold Binning.curve.
  destruct Hs as [-> | ->];
    cbn [Binning.is_y Binning.is_slope String.eqb Ascii.eqb Bool.eqb orb bind].
  - destruct (curve_fit _ _ _) as [slope | e]; cbn [bind]; [| discriminate].
    destruct (Binning.shrunk_logspace _ nbins) as [pts | e]; cbn [bind];
      [| discriminate].
    destruct (map_result _ pts) as [v | e]; cbn [bind]; [| discriminate].
    intros H. now injection H as <- _.
  - destruct (logspace _ _ nbins np_e) as [t | e]; cbn [bind]; [| discriminate].
    destruct (LSQUnivariateSpline _ _ _) as [sp | e]; cbn [bind];
      [| discriminate].
    destruct (Binning.shrunk_logspace _ nbins) as [pts | e]; cbn [bind];
      [| discriminate].
    intros H. now injection H as <- _.
Qed.

End Pipeline.

(** ** The evaluation points of [fit] and [spline] *)

Lemma set_last_length (y : list val) (stop : val) :
  y <> [] -> length (set_last y stop) = length y.
Proof.
  intros H. unfold set_last. rewrite length_app. cbn [length].
  destruct (exists_last H) as (l & a & ->).
  rewrite removelast_last, length_app. cbn [length]. lia.
Qed.

Lemma linspace_length (start stop : val) (num : Z) (l : list val) :
  linspace start stop num = Ok l -> length l = Z.to_nat num.
Proof.
  unfold linspace. destruct (num <? 0)%Z; [discriminate |].
  intros H. injection H as <-.
  assert (L : forall f g : val -> val,
             length (map f (map g (map (fun i => Fin (INR i))
                                       (seq 0 (Z.to_nat num)))))
             = Z.to_nat num)
    by (intros; now rewrite !length_map, length_seq).
  destruct (Z.ltb_spec 1 num) as [H1 | H1].
  - rewrite set_last_length.
    + destruct (0 <? num - 1)%Z; [destruct (veqb _ _) |]; apply L.
    + intros E. apply (f_equal (@length val)) in E. cbn [length] in E.
      destruct (0 <? num - 1)%Z; [destruct (veqb _ _) |];
        rewrite L in E; lia.
  - destruct (0 <? num - 1)%Z; [destruct (veqb _ _) |]; apply L.
Qed.

Lemma logspace_length (start stop : val) (num : Z) (base : val) (l : list val) :
  logspace start stop num base = Ok l -> length l = Z.to_nat num.
Proof.
  unfold logspace.
  destruct (linspace start stop num) as [y | e] eqn:E; cbn [bind];
    [| discriminate].
  intros H. injection H as <-. rewrite length_map.
  eapply linspace_length; eassumption.
Qed.

Lemma logspace_none (start stop base : val) :
  logspace start stop 0 base = Ok [].
Proof. reflexivity. Qed.

Lemma logspace_one (s t : R) :
  logspace (Fin s) (Fin t) 1 np_e = Ok [Fin (exp s)].
Proof.
  unfold logspace, linspace.
  change (1 <? 0)%Z with false. change (0 <? 1 - 1)%Z with false.
  change (1 <? 1)%Z with false. change (Z.to_nat 1) with 1%nat.
  cbn [seq map INR vsub vopp vadd vmul bind].
  rewrite vpow_np_e. cbn [vexp]. do 4 f_equal. lra.
Qed.

(** An interval reduced to a point gives equal edges. *)
Lemma logspace_degenerate (s : R) (num : Z) :
  (3 <= num)%Z ->
  exists l, logspace (Fin s) (Fin s) num np_e = Ok l
            /\ has_duplicates l = true.
Proof.
  intros Hn. unfold logspace, linspace.
  replace (num <? 0)%Z with false by (symmetry; apply Z.ltb_ge; lia).
  replace (0 <? num - 1)%Z with true by (symmetry; apply Z.ltb_lt; lia).
  replace (1 <? num)%Z with true by (symmetry; apply Z.ltb_lt; lia).
  assert (Hd : IZR (num - 1) <> 0) by (apply not_0_IZR; lia).
  rewrite vsub_fin, vdiv_fin by assumption.
  replace (s - s) with 0 by lra.
  cbn [veqb]. rewrite Reqb_true by (unfold Rdiv; lra).
  destruct (Z.to_nat num) as [| [| [| n]]] eqn:En; try lia.
  cbn [seq map]. rewrite !vdiv_fin by assumption. cbn [vmul vadd].
  unfold set_last. cbn [removelast bind map app].
  eexists. split; [reflexivity |].
  rewrite !vpow_np_e. cbn [vexp has_duplicates existsb veqb].
  rewrite Reqb_true; [reflexivity |]. f_equal. lra.
Qed.

Lemma bin_by_values_needs_range df (lo : R) (n : Z) X :
  0 < lo -> (3 <= n)%Z ->
  Binning.bin_by_values df (Fin lo, Fin lo) n "log" = Ok X -> False.
Proof.
  intros Hlo Hn H. destruct X as [[df' binned_indices] bins].
  apply bin_by_values_log_inv in H. destruct H as (Hl & c & Hc & _).
  cbn [fst snd] in Hl. rewrite vlog_fin in Hl by assumption.
  destruct (logspace_degenerate (ln lo) n Hn) as (l & El & Hdup).
  rewrite El in Hl. injection Hl as <-.
  apply logspace_length in El.
  apply cut_ok_inv in Hc. destruct Hc as (b0 & rest & _ & _ & [Hd | Hd] & _).
  - congruence.
  - lia.
Qed.

Lemma shrunk_logspace_sorted (lo hi : R) (nbins : Z) (cx : list val) :
  0 < lo -> lo <= hi -> ((nbins <= 1)%Z \/ lo < hi) ->
  Binning.shrunk_logspace (vlog (Fin lo), vlog (Fin hi)) nbins = Ok cx ->
  StronglySorted val_lt cx /\ (forall v, In v cx -> positive v).
Proof.
  intros Hlo Hle Hcase. unfold Binning.shrunk_logspace. cbn [fst snd].
  rewrite !vlog_fin by lra. rewrite vsub_fin.
  destruct (Z.ltb_spec nbins 0) as [Hneg | Hnn].
  { unfold logspace. rewrite linspace_negative by assumption. discriminate. }
  destruct (Z.eq_dec nbins 0) as [-> | H0].
  { rewrite logspace_none. intros H. injection H as <-.
    split; [constructor | contradiction]. }
  assert (Hn : IZR nbins <> 0) by (apply not_0_IZR; lia).
  rewrite vdiv_fin by assumption. rewrite vdiv_fin by lra.
  rewrite vadd_fin, vsub_fin.
  destruct (Z.eq_dec nbins 1) as [-> | H1].
  { rewrite logspace_one. intros H. injection H as <-. split.
    - repeat constructor.
    - intros v [<- | []]. eexists. split; [reflexivity | apply exp_pos]. }
  destruct Hcase as [Hc | Hlt]; [lia |].
  assert (Hd : 0 < ln hi - ln lo)
    by (pose proof (ln_increasing lo hi Hlo Hlt); lra).
  assert (HN : 2 <= IZR nbins) by (apply IZR_le; lia).
  set (w := (ln hi - ln lo) / IZR nbins).
  assert (Hw : 0 < w /\ 2 * w <= ln hi - ln lo).
  { unfold w. split.
    - apply Rdiv_lt_0_compat; lra.
    - apply Rmult_le_reg_r with (IZR nbins); [lra |].
      unfold Rdiv. rewrite Rmult_assoc, Rmult_assoc, Rinv_l by lra. nra. }
  set (lo' := exp (ln lo + w / 2)). set (hi' := exp (ln hi - w / 2)).
  assert (Hr : 0 < lo' < hi').
  { unfold lo', hi'. split; [apply exp_pos | apply exp_increasing; lra]. }
  replace (Fin (ln lo + w / 2)) with (vlog (Fin lo'))
    by (rewrite vlog_fin by apply Hr; unfold lo'; now rewrite ln_exp).
  replace (Fin (ln hi - w / 2)) with (vlog (Fin hi'))
    by (rewrite vlog_fin by lra; unfold hi'; now rewrite ln_exp).
  rewrite logspace_log_edges by (assumption || lia).
  remember (map (fun i => Fin (log_edge lo' hi' (Z.to_nat nbins - 1) i))
                (seq 0 (S (Z.to_nat nbins - 1)))) as L eqn:EL.
  intros H. injection H as <-. subst L.
  assert (Hm : (1 <= Z.to_nat nbins - 1)%nat) by lia.
  pose proof (log_edge_increasing lo' hi' _ Hr Hm) as Inc.
  split.
  - apply map_sorted; [apply seq_sorted |].
    intros k k' _ _ Hk. eexists _, _. split; [reflexivity |].
    split; [reflexivity |]. now apply Inc.
  - intros v Hv. apply in_map_iff in Hv. destruct Hv as (i & <- & _).
    eexists. split; [reflexivity |]. unfold log_edge. apply exp_pos.
Qed.

(** ** The aggregated [x] values ascend (C5) *)

Lemma aggregate_of_between (strategy : string) : between (aggregate_of strategy).
Proof.
  unfold aggregate_of. destruct (Binning.is_mean strategy);
    [apply mean_between | apply median_between].
Qed.

Lemma strategy_cases (strategy : string) :
  In strategy Binning.strats ->
  grouping strategy \/ strategy = "fit"%string \/ strategy = "spline"%string.
Proof.
  unfold grouping. cbn.
  intros [<- | [<- | [<- | [<- | [<- | [<- | []]]]]]]; tauto.
Qed.


(** ** A run of the slope strategy

    Two samples, [(1, 1)] and [(100, 1/4)], one bucket, the fixed point
    [(100, 1/2)]: the second sample is the fixed point in squared-error
    units. *)

Lemma ln_100_pos : 0 < ln 100.
Proof. apply ln_pos. lra. Qed.

Lemma slope_first :
  Binning.calculate_slope (Fin 100, vpow (Fin (1 / 2)) (Fin 2)) (Fin 1, Fin 1)
  = Fin (ln (1 / 4) / ln 100).
Proof.
  rewrite vpow_square, calculate_slope_fin by lra.
  replace ((1 / 2) ^ 2) with (1 / 4) by lra.
  rewrite ln_1. f_equal. unfold Rminus. now rewrite Ropp_0, !Rplus_0_r.
Qed.

Lemma slope_second :
  Binning.calculate_slope (Fin 100, vpow (Fin (1 / 2)) (Fin 2))
                          (Fin 100, Fin (1 / 4))
  = NaN.
Proof.
  rewrite vpow_square. replace ((1 / 2) ^ 2) with (1 / 4) by lra.
  apply calculate_slope_coincide; lra.
Qed.

Lemma bin_two_ends (df : DataFrame) (lo hi : R) :
  0 < lo < hi -> col_x df = [Fin lo; Fin hi] ->
  Binning.bin_by_values df (Fin lo, Fin hi) 2 "log"
  = Ok (mkDF (index df) (col_x df) (col_y df) (col_slope df)
             (Some (mkCat 1 [Some 0%nat; Some 0%nat])),
        [(0%nat, select 0 [Some 0%nat; Some 0%nat] (index df))],
        [Fin lo; Fin hi]).
Proof.
  intros H Hx. unfold Binning.bin_by_values.
  cbn [String.eqb Ascii.eqb Bool.eqb fst snd].
  rewrite logspace_log_edges by (assumption || lia). cbn [bind].
  change (Z.to_nat 2 - 1)%nat with 1%nat.
  rewrite cut_log_edges by (assumption || lia). cbn [bind groups col_bin].
  rewrite Hx. cbn [map codes index col_x observed_keys ncat].
  rewrite cut_code_lowest, cut_code_highest by (assumption || lia).
  cbn [seq map filter existsb code_is Nat.eqb orb Nat.sub].
  rewrite log_edge_first, log_edge_last by (lra || lia).
  reflexivity.
Qed.

Lemma slope_run :
  Binning.bin_and_average Binning.failing_curve_fit Binning.failing_spline
    Binning.STRAT_USED [Fin 1; Fin 100] [Fin 1; Fin (1 / 4)]
    (Some (Fin 100, Fin (1 / 2))) 1 Binning.half None false "slope_mean"
    false true
  = (Binning.STRAT_USED,
     Ok (Binning.mkOut
           [Fin (101 / 2)]
           [Fin (Rpower (100 * (1 / 2)
                         * Rpower (101 / 2) (ln (1 / 4) / ln 100))
                        (1 / 2))]
           None)).
Proof.
  unfold Binning.bin_and_average, Binning.prepare.
  cbn [py_min py_max fold_left vltb bind]. rcmp.
  cbn [fst snd combine map new_frame length Nat.eqb andb bind seq].
  rewrite slope_first, slope_second.
  cbn [Binning.dict_get Binning.STRAT_USED Binning.strats map].
  repeat run_step.
  unfold Binning.bin_and_aggregate. change (1 + 1)%Z with 2%Z.
  rewrite bin_two_ends by (lra || reflexivity). cbn [bind].
  unfold Binning.aggregate_frame, Binning.curve, Binning.is_mean,
    Binning.is_median, Binning.is_y, Binning.is_slope.
  repeat run_step.
  replace ((0 + 1 + 100) / (1 + 1)) with (101 / 2) by lra.
  replace ((0 + ln (1 / 4) / ln 100) / 1) with (ln (1 / 4) / ln 100)
    by (unfold Rdiv; rewrite Rinv_1; ring).
  rewrite (vpow_pos (101 / 2)) by lra.
  unfold Binning.half.
  rewrite vpow_pos; [reflexivity |].
  apply Rmult_lt_0_compat; [lra | apply exp_pos].
Qed.

(** ** A run of the mean strategy over two buckets *)

Lemma bin_ends (df : DataFrame) (lo hi : R) (num : Z) :
  0 < lo < hi -> (2 <= num)%Z -> col_x df = [Fin lo; Fin hi] ->
  let m := (Z.to_nat num - 1)%nat in
  let c := mkCat m [Some 0%nat; Some (m - 1)%nat] in
  Binning.bin_by_values df (Fin lo, Fin hi) num "log"
  = Ok (mkDF (index df) (col_x df) (col_y df) (col_slope df) (Some c),
        map (fun k => (k, select k (codes c) (index df))) (observed_keys c),
        map (fun i => Fin (log_edge lo hi m i)) (seq 0 (S m))).
Proof.
  intros H Hn Hx m c. unfold Binning.bin_by_values.
  cbn [String.eqb Ascii.eqb Bool.eqb fst snd].
  rewrite logspace_log_edges by (assumption || lia). cbn [bind].
  fold m. rewrite cut_log_edges by (assumption || lia).
  cbn [bind groups col_bin]. rewrite Hx. cbn [map].
  rewrite cut_code_lowest, cut_code_highest by (assumption || lia).
  reflexivity.
Qed.

Lemma mean_run :
  Binning.bin_and_average Binning.failing_curve_fit Binning.failing_spline
    Binning.STRAT_USED [Fin 1; Fin 100] [Fin 1; Fin 1] None 2 Binning.half
    None false "y_mean" false true
  = (Binning.STRAT_USED,
     Ok (Binning.mkOut [Fin 1; Fin 100]
                       [Fin (Rpower 1 (1 / 2)); Fin (Rpower 1 (1 / 2))]
                       None)).
Proof.
  unfold Binning.bin_and_average, Binning.prepare.
  cbn [py_min py_max fold_left vltb bind]. rcmp.
  repeat run_step.
  unfold Binning.bin_and_aggregate. change (2 + 1)%Z with 3%Z.
  rewrite bin_ends by (lra || lia || reflexivity).
  change (Z.to_nat 3 - 1)%nat with 2%nat. cbn [bind].
  unfold Binning.aggregate_frame, Binning.curve, Binning.is_mean,
    Binning.is_median, Binning.is_y, Binning.is_slope.
  repeat run_step.
  replace ((0 + 1) / 1) with 1 by lra.
  replace ((0 + 100) / 1) with 100 by lra.
  unfold Binning.half. rewrite vpow_pos by lra. reflexivity.
Qed.

(** ** The power law of the slope strategies (C1) *)

(** C1 at the run above: the curve is the square root of
    [(x0*y0) * x_bin^slope_bin] with the fixed point [(100, 1/2)] as it
    was given; with its [y] squared, as the slopes have it, the value would
    be another one. *)
Theorem C1_power_law_fixed_point_not_squared :
  snd (Binning.bin_and_average Binning.failing_curve_fit
         Binning.failing_spline Binning.STRAT_USED [Fin 1; Fin 100]
         [Fin 1; Fin (1 / 4)] (Some (Fin 100, Fin (1 / 2))) 1 Binning.half
         None false "slope_mean" false true)
  = Ok (Binning.mkOut
          [Fin (101 / 2)]
          [Fin (Rpower (100 * (1 / 2)
                        * Rpower (101 / 2) (ln (1 / 4) / ln 100))
                       (1 / 2))]
          None)
  /\ Rpower (100 * (1 / 2) * Rpower (101 / 2) (ln (1 / 4) / ln 100)) (1 / 2)
     <> Rpower (100 * (1 / 2) ^ 2 * Rpower (101 / 2) (ln (1 / 4) / ln 100))
               (1 / 2).
Proof.
  split; [now rewrite slope_run |].
  assert (P : 0 < Rpower (101 / 2) (ln (1 / 4) / ln 100)) by apply exp_pos.
  apply Rgt_not_eq, Rlt_Rpower_l; [lra |].
  split; [apply Rmult_lt_0_compat; [lra | exact P] |].
  apply Rmult_lt_compat_r; [exact P | lra].
Qed.

(** ** Degenerate slopes (C4) *)

Lemma map_result_ok {A B : Type} (f : A -> result B) (l : list A) :
  (forall a, In a l -> exists b, f a = Ok b) ->
  exists bs, map_result f l = Ok bs.
Proof.
  induction l as [| a l IH]; intros H; cbn [map_result].
  - now exists [].
  - destruct (H a (or_introl eq_refl)) as [b ->].
    destruct IH as [bs ->]; [intros a' Ha'; apply H; now right |].
    cbn [bind]. now exists (b :: bs).
Qed.

Lemma py_index_ok {A : Type} (l : list A) (i : nat) :
  (i < length l)%nat -> exists a, py_index l i = Ok a.
Proof.
  intros H. unfold py_index.
  destruct (nth_error l i) as [a |] eqn:E; [now exists a |].
  apply nth_error_None in E. lia.
Qed.

Lemma group_points_ok (xs ys : list val) (c : Categorical) :
  length xs = length ys ->
  exists grouped_points,
    Binning.group_points xs ys
      (map (fun k => (k, select k (codes c) (seq 0 (length xs))))
           (observed_keys c))
    = Ok grouped_points.
Proof.
  intros Hlen. unfold Binning.group_points. apply map_result_ok.
  intros entry He. apply in_map_iff in He. destruct He as (k & <- & _).
  cbn [snd].
  assert (R : forall i, In i (select k (codes c) (seq 0 (length xs))) ->
                        (i < length xs)%nat).
  { intros i Hi. apply select_In in Hi. destruct Hi as (j & _ & Hj).
    apply nth_error_In, in_seq in Hj. lia. }
  destruct (map_result_ok (py_index xs) (select k (codes c) (seq 0 (length xs))))
    as [gx ->].
  { intros i Hi. apply py_index_ok. now apply R. }
  destruct (map_result_ok (py_index ys) (select k (codes c) (seq 0 (length xs))))
    as [gy ->].
  { intros i Hi. apply py_index_ok. rewrite <- Hlen. now apply R. }
  cbn [bind]. eexists; reflexivity.
Qed.

Lemma bin_by_values_positive_range (df : DataFrame) (lo hi : R) (n : Z) :
  0 < lo < hi -> (2 <= n)%Z ->
  exists rest,
    is_monotonic_increasing (Fin lo :: rest) = true
    /\ let c := mkCat (Z.to_nat n - 1)
                      (map (cut_code (Fin lo :: rest) (Fin lo)) (col_x df)) in
       Binning.bin_by_values df (Fin lo, Fin hi) n "log"
       = Ok (mkDF (index df) (col_x df) (col_y df) (col_slope df) (Some c),
             map (fun k => (k, select k (codes c) (index df)))
                 (observed_keys c),
             Fin lo :: rest).
Proof.
  intros H Hn. set (m := (Z.to_nat n - 1)%nat).
  assert (Hm : (1 <= m)%nat) by (unfold m; lia).
  exists (map (fun i => Fin (log_edge lo hi m i)) (seq 1 m)).
  assert (E : map (fun i => Fin (log_edge lo hi m i)) (seq 0 (S m))
              = Fin lo :: map (fun i => Fin (log_edge lo hi m i)) (seq 1 m)).
  { cbn [seq map]. now rewrite log_edge_first by lra. }
  split.
  - rewrite <- E. apply edges_monotonic. now apply log_edge_increasing.
  - cbn zeta. unfold Binning.bin_by_values.
    cbn [String.eqb Ascii.eqb Bool.eqb fst snd].
    rewrite logspace_log_edges by assumption. cbn [bind]. fold m.
    rewrite cut_log_edges by assumption. cbn [bind groups col_bin].
    rewrite E. reflexivity.
Qed.

Section Slope_facts.

Variable curve_fit :
  (val -> val -> result val) -> list val -> list val -> result val.
Variable LSQUnivariateSpline :
  list val -> list val -> list val -> result (val -> val).

(** What the slope strategies return for an aggregated frame: the power
    law through the fixed point as given, then the square root. *)
Lemma curve_slope df xrange ys fp nbins ypower strategy slopes :
  slope_strategy strategy -> col_slope df = Some slopes ->
  Binning.curve curve_fit LSQUnivariateSpline df xrange ys (Some fp) nbins
                ypower strategy
  = Ok (col_x df,
        map (fun p => vpow (Binning.power_law fp (fst p) (snd p)) Binning.half)
            (combine (col_x df) slopes)).
Proof.
  intros Hs Hc. unfold Binning.curve, get_slope. rewrite Hc.
  destruct Hs as [-> | ->];
    cbn [Binning.is_y Binning.is_slope String.eqb Ascii.eqb Bool.eqb orb bind
         Binning.eval_power_function_series];
    now rewrite map_map.
Qed.

End Slope_facts.







Lemma filter_mask_length {A B : Type} (mask : list bool) (l : list A)
  (l' : list B) :
  length l = length l' ->
  length (filter_mask mask l) = length (filter_mask mask l').
Proof.
  unfold filter_mask. revert l l'.
  induction mask as [| m mask IH]; intros [| a l] [| b l'] H; cbn in H;
    try discriminate; cbn [combine filter map length]; try reflexivity.
  cbn [fst]. destruct m; cbn [map length]; rewrite (IH l l') by lia;
    reflexivity.
Qed.






(** The two samples in a bucket each: the bucket of the sample that is the
    fixed point disappears from the curve. *)
Lemma dropped_bucket_run :
  Binning.bin_and_average Binning.failing_curve_fit Binning.failing_spline
    Binning.STRAT_USED [Fin 1; Fin 100] [Fin 1; Fin (1 / 4)]
    (Some (Fin 100, Fin (1 / 2))) 2 Binning.half None false "slope_mean"
    false true
  = (Binning.STRAT_USED,
     Ok (Binning.mkOut
           [Fin 1]
           [Fin (Rpower (100 * (1 / 2) * Rpower 1 (ln (1 / 4) / ln 100))
                        (1 / 2))]
           None)).
Proof.
  unfold Binning.bin_and_average, Binning.prepare.
  cbn [py_min py_max fold_left vltb bind]. rcmp.
  cbn [fst snd combine map new_frame length Nat.eqb andb bind seq].
  rewrite slope_first, slope_second.
  cbn [Binning.dict_get Binning.STRAT_USED Binning.strats map].
  repeat run_step.
  unfold Binning.bin_and_aggregate. change (2 + 1)%Z with 3%Z.
  rewrite bin_ends by (lra || lia || reflexivity).
  change (Z.to_nat 3 - 1)%nat with 2%nat. cbn [bind].
  unfold Binning.aggregate_frame, Binning.curve, Binning.is_mean,
    Binning.is_median, Binning.is_y, Binning.is_slope.
  repeat run_step.
  replace ((0 + 1) / 1) with 1 by lra.
  replace ((0 + ln (1 / 4) / ln 100) / 1) with (ln (1 / 4) / ln 100)
    by (unfold Rdiv; rewrite Rinv_1; ring).
  rewrite (vpow_pos 1) by lra.
  unfold Binning.half.
  rewrite vpow_pos; [reflexivity |].
  apply Rmult_lt_0_compat; [lra | apply exp_pos].
Qed.


(** A point set with a single [x] value cannot be binned by more than one
    bucket: all the edges are equal and [cut] raises [ValueError]. *)
Lemma bin_by_values_single_x (df : DataFrame) (lo : R) (n : Z) :
  0 < lo -> (3 <= n)%Z ->
  Binning.bin_by_values df (Fin lo, Fin lo) n "log" = Raise ValueError.
Proof.
  intros Hlo Hn. unfold Binning.bin_by_values.
  cbn [String.eqb Ascii.eqb Bool.eqb fst snd].
  rewrite vlog_fin by assumption.
  destruct (logspace_degenerate (ln lo) n Hn) as (l & El & Hdup).
  rewrite El. cbn [bind]. unfold cut.
  destruct (is_monotonic_increasing l); cbn [negb]; [| reflexivity].
  rewrite Hdup. apply logspace_length in El. rewrite El.
  replace (Z.to_nat n =? 2)%nat with false
    by (symmetry; apply Nat.eqb_neq; lia).
  reflexivity.
Qed.

Example single_sample_raises :
  Binning.bin_and_average Binning.failing_curve_fit Binning.failing_spline
    Binning.STRAT_USED [Fin 100] [Fin (1 / 4)] (Some (Fin 100, Fin (1 / 2))) 20
    Binning.half None false "slope_mean" false true
  = (Binning.STRAT_USED, Raise ValueError).
Proof.
  unfold Binning.bin_and_average, Binning.prepare.
  cbn [py_min py_max fold_left bind fst snd combine map new_frame length
       Nat.eqb andb seq Binning.dict_get Binning.STRAT_USED Binning.strats].
  repeat run_step.
  unfold Binning.bin_and_aggregate. change (20 + 1)%Z with 21%Z.
  rewrite bin_by_values_single_x by (lra || lia). reflexivity.
Qed.

(** ** The grouping strategies return a curve *)

Section Returns.

Variable curve_fit :
  (val -> val -> result val) -> list val -> list val -> result val.
Variable LSQUnivariateSpline :
  list val -> list val -> list val -> result (val -> val).

Lemma curve_y df xrange ys fixed_point nbins ypower strategy :
  strategy = "y_mean"%string \/ strategy = "y_median"%string ->
  Binning.curve curve_fit LSQUnivariateSpline df xrange ys fixed_point nbins
                ypower strategy
  = Ok (col_x df, map (fun y => vpow y ypower) (col_y df)).
Proof.
  intros [-> | ->]; reflexivity.
Qed.

(** Over finite positive [x] values, two of them distinct, with at least
    one bucket, the mean and median strategies return a curve; the slope
    strategies do when the fixed point is given. *)
Lemma grouping_returns used xs ys fixed_point nbins ypower full_output
  strategy logdomain silent (a b : R) :
  map fst used = Binning.strats ->
  grouping strategy ->
  (slope_strategy strategy -> fixed_point <> None) ->
  (forall v, In v xs -> positive v) ->
  length xs = length ys ->
  In (Fin a) xs -> In (Fin b) xs -> a < b -> (1 <= nbins)%Z ->
  exists o,
    snd (Binning.bin_and_average curve_fit LSQUnivariateSpline used xs ys
           fixed_point nbins ypower None full_output strategy logdomain
           silent)
    = Ok o.
Proof.
  intros Hkeys Hg Hfp Hpos Hlen Ha Hb Hab Hn.
  destruct (positive_list xs Hpos) as (rx & -> & Hrx).
  assert (Ha' : In a rx)
    by (apply in_map_iff in Ha; destruct Ha as (r & E & Hr); now injection E as <-).
  assert (Hb' : In b rx)
    by (apply in_map_iff in Hb; destruct Hb as (r & E & Hr); now injection E as <-).
  assert (Hne : rx <> []) by (intros ->; contradiction).
  assert (Hne' : map Fin rx <> []) by (intros E; apply Hne; now destruct rx).
  destruct (py_min_fin rx Hne) as (lo & Elo & Hlo & Hlo').
  destruct (py_max_fin rx Hne) as (hi & Ehi & Hhi & Hhi').
  assert (Hr : 0 < lo < hi).
  { split; [now apply Hrx |].
    pose proof (Hlo' a Ha'). pose proof (Hhi' b Hb'). lra. }
  assert (Ep : exists df,
             Binning.prepare (map Fin rx) ys fixed_point strategy
             = Ok ((Fin lo, Fin hi), df)
             /\ index df = seq 0 (length (map Fin rx))
             /\ col_x df = map Fin rx
             /\ (fixed_point <> None -> exists s, col_slope df = Some s)).
  { destruct fixed_point as [fp |].
    - destruct (prepare_fixed_point (map Fin rx) ys fp strategy Hne' Hlen)
        as [xrange Ep].
      pose proof (prepare_inv _ _ _ _ _ _ Ep) as (Emin & Emax & _).
      rewrite Elo in Emin. rewrite Ehi in Emax.
      destruct xrange as [vlo vhi]. cbn [fst snd] in Emin, Emax.
      injection Emin as <-. injection Emax as <-.
      eexists. split; [exact Ep |]. cbn. repeat split. intros _. eauto.
    - assert (Hslope : strategy <> "slope"%string)
        by (destruct Hg as [-> | [-> | [-> | ->]]]; discriminate).
      destruct (prepare_no_fixed_point (map Fin rx) ys strategy Hne' Hlen Hslope)
        as [xrange Ep].
      pose proof (prepare_inv _ _ _ _ _ _ Ep) as (Emin & Emax & _).
      rewrite Elo in Emin. rewrite Ehi in Emax.
      destruct xrange as [vlo vhi]. cbn [fst snd] in Emin, Emax.
      injection Emin as <-. injection Emax as <-.
      eexists. split; [exact Ep |]. cbn. repeat split. congruence. }
  destruct Ep as (df & Ep & Ei & Ex & Esl).
  destruct (bin_by_values_positive_range df lo hi (nbins + 1) Hr ltac:(lia))
    as (rest & Hmono & Eb).
  cbn zeta in Eb. rewrite Ei in Eb.
  match type of Eb with
  | _ = Ok (?d, _, _) => set (df' := d) in *
  end.
  match type of Eb with
  | context [observed_keys ?cc] => set (c := cc) in *
  end.
  pose proof (aggregate_frame_grouping df' c strategy logdomain eq_refl Hg)
    as Ea.
  destruct (group_points_ok (map Fin rx) ys c Hlen) as [gp Eg].
  destruct (dict_get_present used strategy) as [seen Ed].
  { rewrite Hkeys.
    destruct Hg as [-> | [-> | [-> | ->]]]; cbn; tauto. }
  unfold Binning.bin_and_average. rewrite Ep, Ed. cbn [snd].
  unfold Binning.bin_and_aggregate. rewrite Eb. cbn [bind].
  rewrite Eg. cbn [bind]. rewrite Ea. cbn [bind].
  destruct Hg as [Hy | [Hy | [Hsl | Hsl]]].
  - rewrite curve_y by tauto. cbn [bind Binning.prepend]. eauto.
  - rewrite curve_y by tauto. cbn [bind Binning.prepend]. eauto.
  - assert (Hs : slope_strategy strategy) by (now left).
    destruct fixed_point as [fp |]; [| now destruct (Hfp Hs)].
    destruct (Esl ltac:(discriminate)) as [s Es].
    match goal with
    | |- context [Binning.curve _ _ ?agg _ _ _ _ _ _] =>
        assert (Eagg : exists s', col_slope agg = Some s')
    end.
    { destruct logdomain; cbn [map_xy dropna grouped col_slope df'];
        rewrite Es; cbn [option_map]; eauto. }
    destruct Eagg as [s' Eagg].
    rewrite (curve_slope _ _ _ _ _ _ _ _ _ _ Hs Eagg).
    cbn [bind Binning.prepend]. eauto.
  - assert (Hs : slope_strategy strategy) by (now right).
    destruct fixed_point as [fp |]; [| now destruct (Hfp Hs)].
    destruct (Esl ltac:(discriminate)) as [s Es].
    match goal with
    | |- context [Binning.curve _ _ ?agg _ _ _ _ _ _] =>
        assert (Eagg : exists s', col_slope agg = Some s')
    end.
    { destruct logdomain; cbn [map_xy dropna grouped col_slope df'];
        rewrite Es; cbn [option_map]; eauto. }
    destruct Eagg as [s' Eagg].
    rewrite (curve_slope _ _ _ _ _ _ _ _ _ _ Hs Eagg).
    cbn [bind Binning.prepend]. eauto.
Qed.

End Returns.

(** * Further properties *)

(** ** Curves through a fixed point *)

Lemma ln_quotient (x y : R) : 0 < x -> 0 < y -> ln (x / y) = ln x - ln y.
Proof.
  intros Hx Hy. unfold Rdiv.
  rewrite ln_mult by (assumption || now apply Rinv_0_lt_compat).
  rewrite ln_Rinv by assumption. ring.
Qed.

Lemma affine_log_value (s x0 y0 x : R) :
  0 < x0 -> 0 < y0 -> 0 < x ->
  Curves.affine_function (Fin s) (Fin x0, Fin y0) true (Fin x)
  = Fin (exp (s * (ln x - ln x0) + ln y0)).
Proof.
  intros Hx0 Hy0 Hx.
  unfold Curves.affine_function, Binning.to_log, Curves.logfun.
  cbn [fst snd]. rewrite !vlog_fin by assumption. reflexivity.
Qed.

(** X1: the curve [affine_function(slope, fixed_point)] passes through
    its fixed point, on the log scale (where it is the power law
    [y0 * (x / x0)^slope]) and on the linear one. *)
Theorem affine_function_through_fixed_point :
  forall (s x0 y0 : R),
    0 < x0 -> 0 < y0 ->
    Curves.affine_function (Fin s) (Fin x0, Fin y0) true (Fin x0) = Fin y0
    /\ (forall x : R,
          0 < x ->
          Curves.affine_function (Fin s) (Fin x0, Fin y0) true (Fin x)
          = Fin (y0 * Rpower (x / x0) s))
    /\ Curves.affine_function (Fin s) (Fin x0, Fin y0) false (Fin x0) = Fin y0.
Proof.
  intros s x0 y0 Hx0 Hy0. split; [| split].
  - rewrite affine_log_value by assumption. f_equal.
    replace (s * (ln x0 - ln x0) + ln y0) with (ln y0) by ring.
    now apply exp_ln.
  - intros x Hx. rewrite affine_log_value by assumption. f_equal.
    rewrite exp_plus, exp_ln by assumption.
    unfold Rpower. rewrite ln_quotient by assumption. ring.
  - unfold Curves.affine_function. cbn. f_equal. ring.
Qed.

Lemma affine_function_through_fixed_point_witness :
  Curves.affine_function (Fin (-1)) (Fin 100, Fin (1 / 2)) true (Fin 100)
  = Fin (1 / 2).
Proof.
  apply (affine_function_through_fixed_point (-1) 100 (1 / 2)); lra.
Defined.





Lemma power_law_at_fixed_point (x0 y0 p : R) :
  0 < x0 ->
  Binning.power_law (Fin x0, Fin y0) (Fin x0) (Fin p)
  = Fin (y0 * Rpower x0 (p + 1)).
Proof.
  intros Hx0. unfold Binning.power_law.
  rewrite vpow_pos by assumption. cbn [vmul]. f_equal.
  rewrite Rpower_plus, Rpower_1 by assumption. ring.
Qed.

(** X4: the power law [power_function(power, fixed_point)] takes the
    value [y0 * x0^(power + 1)] at [x0]; it passes through its fixed point
    exactly when [power = -1] or [x0 = 1]. *)
Theorem power_function_at_fixed_point :
  forall (x0 y0 p : R),
    0 < x0 -> 0 < y0 ->
    Binning.power_function (Fin p) (Fin x0, Fin y0) (Fin x0)
    = Fin (y0 * Rpower x0 (p + 1))
    /\ Binning.eval_power_function (Fin x0) (Fin p) (Some (Fin x0, Fin y0))
       = Ok (Binning.power_function (Fin p) (Fin x0, Fin y0) (Fin x0))
    /\ (Binning.power_function (Fin p) (Fin x0, Fin y0) (Fin x0) = Fin y0
        <-> p = -1 \/ x0 = 1).
Proof.
  intros x0 y0 p Hx0 Hy0. unfold Binning.power_function.
  cbn [Binning.eval_power_function].
  rewrite power_law_at_fixed_point by assumption.
  split; [reflexivity |]. split; [reflexivity |].
  split.
  - intros E. injection E as E.
    assert (E1 : Rpower x0 (p + 1) = 1) by nra.
    assert (E2 : exp ((p + 1) * ln x0) = exp 0) by (now rewrite exp_0).
    apply exp_inv in E2. clear E1. rename E2 into E1.
    apply Rmult_integral in E1. destruct E1 as [E1 | E1]; [left; lra | right].
    apply ln_inv; [assumption | lra | now rewrite ln_1].
  - intros [-> | ->]; f_equal.
    + replace (-1 + 1) with 0 by lra. rewrite Rpower_O by assumption. ring.
    + unfold Rpower. rewrite ln_1, Rmult_0_r, exp_0. ring.
Qed.

Lemma power_function_at_fixed_point_witness :
  Binning.power_function (Fin (-1)) (Fin 100, Fin (1 / 2)) (Fin 100)
  = Fin (1 / 2 * Rpower 100 (-1 + 1)).
Proof.
  apply (power_function_at_fixed_point 100 (1 / 2) (-1)); lra.
Defined.

(** ** The buckets over the range of the samples *)

Lemma log_edge_equal (lo : R) (m i : nat) : 0 < lo -> log_edge lo lo m i = lo.
Proof.
  intros H. unfold log_edge.
  replace (ln lo + INR i * ((ln lo - ln lo) / INR m)) with (ln lo)
    by (unfold Rdiv; ring).
  now apply exp_ln.
Qed.

Lemma logspace_equal_ends (lo : R) (num : Z) :
  0 < lo -> (2 <= num)%Z ->
  logspace (vlog (Fin lo)) (vlog (Fin lo)) num np_e
  = Ok (log_edges lo lo (Z.to_nat num - 1)).
Proof.
  intros Hlo Hnum. unfold log_edges.
  remember (Z.to_nat num - 1)%nat as m eqn:Em.
  assert (En : Z.to_nat num = S m) by lia.
  assert (Hd : IZR (num - 1) <> 0) by (apply not_0_IZR; lia).
  unfold logspace, linspace.
  replace (num <? 0)%Z with false by (symmetry; apply Z.ltb_ge; lia).
  replace (0 <? num - 1)%Z with true by (symmetry; apply Z.ltb_lt; lia).
  replace (1 <? num)%Z with true by (symmetry; apply Z.ltb_lt; lia).
  rewrite !vlog_fin by assumption. rewrite vsub_fin, vdiv_fin by assumption.
  cbn [veqb]. rewrite Reqb_true by (unfold Rdiv; ring).
  rewrite En, !map_map. cbn [bind]. unfold set_last.
  rewrite removelast_map_seq, map_app, map_map. cbn [map].
  rewrite seq_S, map_app. cbn [map Nat.add]. f_equal. f_equal.
  - apply map_ext. intros i. rewrite vdiv_fin by assumption.
    cbn [vmul vadd]. rewrite vpow_np_e. cbn [vexp].
    rewrite log_edge_equal by assumption. f_equal.
    replace (INR i / IZR (num - 1) * (ln lo - ln lo) + ln lo) with (ln lo)
      by (unfold Rdiv; ring).
    now apply exp_ln.
  - rewrite vpow_np_e. cbn [vexp].
    rewrite log_edge_equal, exp_ln by assumption. reflexivity.
Qed.

Lemma logspace_range (lo hi : R) (num : Z) :
  0 < lo -> lo <= hi -> (2 <= num)%Z ->
  logspace (vlog (Fin lo)) (vlog (Fin hi)) num np_e
  = Ok (log_edges lo hi (Z.to_nat num - 1)).
Proof.
  intros Hlo [Hlt | <-] Hnum.
  - now apply logspace_log_edges.
  - now apply logspace_equal_ends.
Qed.

Lemma log_edges_head (lo hi : R) (m : nat) :
  0 < lo ->
  log_edges lo hi m
  = Fin lo :: map (fun i => Fin (log_edge lo hi m i)) (seq 1 m).
Proof.
  intros H. unfold log_edges. cbn [seq map]. now rewrite log_edge_first.
Qed.

Lemma log_edges_length (lo hi : R) (m : nat) :
  length (log_edges lo hi m) = S m.
Proof. unfold log_edges. now rewrite length_map, length_seq. Qed.

Lemma log_edges_last (lo hi : R) (m : nat) :
  0 < hi -> (1 <= m)%nat -> last (log_edges lo hi m) NaN = Fin hi.
Proof.
  intros H Hm. unfold log_edges. rewrite seq_S, map_app. cbn [map Nat.add].
  rewrite last_last. now rewrite log_edge_last.
Qed.

Lemma log_edges_In_hi (lo hi : R) (m : nat) :
  0 < hi -> (1 <= m)%nat -> In (Fin hi) (log_edges lo hi m).
Proof.
  intros H Hm. rewrite <- (log_edges_last lo hi m H Hm).
  unfold log_edges. rewrite seq_S, map_app. cbn [map Nat.add].
  rewrite last_last. apply in_or_app. right. now left.
Qed.

Lemma log_edges_monotonic (lo hi : R) (m : nat) :
  0 < lo -> lo <= hi -> (1 <= m)%nat ->
  is_monotonic_increasing (log_edges lo hi m) = true.
Proof.
  intros Hlo [Hlt | <-] Hm; unfold log_edges.
  - apply edges_monotonic. now apply log_edge_increasing.
  - generalize 0%nat. generalize (S m). clear Hm.
    intros n. induction n as [| n IH]; intros a; [reflexivity |].
    cbn [seq map is_monotonic_increasing]. rewrite IH.
    destruct n as [| n]; [reflexivity |].
    cbn [seq map notna isnan negb andb vleb].
    rewrite !log_edge_equal by assumption.
    rewrite Rleb_true by lra. reflexivity.
Qed.

Lemma cut_range (x : list val) (lo hi : R) (m : nat) :
  0 < lo -> lo <= hi -> (1 <= m)%nat -> (lo < hi \/ m = 1%nat) ->
  cut x (log_edges lo hi m) = Ok (log_codes lo hi m x).
Proof.
  intros Hlo Hle Hm Hcase. unfold log_codes.
  destruct Hle as [Hlt | <-].
  - unfold log_edges. now rewrite cut_log_edges.
  - destruct Hcase as [Hlt | ->]; [lra |].
    unfold cut. rewrite log_edges_monotonic by (lra || lia).
    rewrite log_edges_length. cbn [negb Nat.eqb andb].
    rewrite andb_false_r. rewrite log_edges_head at 1 by assumption.
    cbn [length Nat.sub]. reflexivity.
Qed.

Lemma filter_length_lt {A : Type} (p : A -> bool) (l : list A) (a : A) :
  In a l -> p a = false -> (length (filter p l) < length l)%nat.
Proof.
  induction l as [| b l IH]; intros Hin Hp; [contradiction |].
  cbn [filter length]. destruct Hin as [-> | Hin].
  - rewrite Hp. pose proof (filter_length_le p l). lia.
  - specialize (IH Hin Hp). destruct (p b); cbn [length]; lia.
Qed.

(** A value within the range of the edges gets a bucket. *)
Lemma cut_code_some (rest : list val) (lo hi x : R) :
  rest <> [] -> In (Fin hi) (Fin lo :: rest) -> lo <= x <= hi ->
  exists k, cut_code (Fin lo :: rest) (Fin lo) (Fin x) = Some k
            /\ (k < length rest)%nat.
Proof.
  intros Hne Hin [Hlo Hhi]. unfold cut_code. cbn [isnan orb veqb length].
  destruct (Req_dec_T x lo) as [-> | Hx].
  - rewrite Reqb_true by reflexivity.
    destruct rest as [| b rest]; [congruence |].
    cbn [length Nat.eqb orb Nat.sub]. exists 0%nat. split; [reflexivity | lia].
  - rewrite Reqb_false by assumption.
    unfold searchsorted_left. cbn [filter vltb].
    rewrite Rltb_true by lra. cbn [length].
    assert (L : (length (filter (fun b => vltb b (Fin x)) rest)
                 < length rest)%nat).
    { destruct Hin as [E | Hin].
      - injection E as E. lra.
      - apply (filter_length_lt _ rest (Fin hi) Hin).
        cbn. apply Rltb_false. lra. }
    set (c := length (filter (fun b => vltb b (Fin x)) rest)) in *.
    replace (S c =? S (length rest))%nat with false
      by (symmetry; apply Nat.eqb_neq; lia).
    cbn [Nat.eqb orb]. exists c. split; [f_equal; lia | exact L].
Qed.

Lemma log_codes_some (lo hi : R) (m : nat) (rx : list R) :
  0 < lo -> lo <= hi -> (1 <= m)%nat ->
  (forall r, In r rx -> lo <= r <= hi) ->
  forall c, In c (codes (log_codes lo hi m (map Fin rx))) ->
            exists k, c = Some k /\ (k < m)%nat.
Proof.
  intros Hlo Hle Hm Hr c Hc. cbn [log_codes codes] in Hc.
  rewrite map_map in Hc. apply in_map_iff in Hc.
  destruct Hc as (r & <- & Hin).
  pose proof (log_edges_In_hi lo hi m ltac:(lra) Hm) as Hhi.
  rewrite log_edges_head in * by assumption.
  destruct (cut_code_some
              (map (fun i => Fin (log_edge lo hi m i)) (seq 1 m)) lo hi r)
    as (k & -> & Hk); [| exact Hhi | now apply Hr |].
  - destruct m; [lia | discriminate].
  - exists k. split; [reflexivity |]. now rewrite length_map, length_seq in Hk.
Qed.

Lemma bin_by_values_range (df : DataFrame) (lo hi : R) (nbins : Z) :
  0 < lo -> lo <= hi -> (1 <= nbins)%Z -> (lo < hi \/ nbins = 1%Z) ->
  let m := Z.to_nat nbins in
  let c := log_codes lo hi m (col_x df) in
  Binning.bin_by_values df (Fin lo, Fin hi) (nbins + 1) "log"
  = Ok (mkDF (index df) (col_x df) (col_y df) (col_slope df) (Some c),
        map (fun k => (k, select k (codes c) (index df))) (observed_keys c),
        log_edges lo hi m).
Proof.
  intros Hlo Hle Hn Hcase m c. unfold Binning.bin_by_values.
  cbn [String.eqb Ascii.eqb Bool.eqb fst snd].
  rewrite logspace_range by (assumption || lia). cbn [bind].
  replace (Z.to_nat (nbins + 1) - 1)%nat with m by (unfold m; lia).
  rewrite cut_range; [reflexivity | assumption | assumption | unfold m; lia |].
  destruct Hcase as [H | ->]; [now left | right; reflexivity].
Qed.

(** ** The grouped points *)

Lemma select_cons {A : Type} (k : nat) (c : option nat) (cs : list (option nat))
  (a : A) (l : list A) :
  select k (c :: cs) (a :: l)
  = if code_is k c then a :: select k cs l else select k cs l.
Proof. unfold select. cbn [combine filter fst]. now destruct (code_is k c). Qed.

Lemma select_nil_r {A : Type} (k : nat) (cs : list (option nat)) :
  select k cs (@nil A) = [].
Proof. unfold select. now destruct cs. Qed.

Lemma select_combine {A B : Type} (k : nat) (cs : list (option nat))
  (l : list A) (l' : list B) :
  combine (select k cs l) (select k cs l') = select k cs (combine l l').
Proof.
  revert l l'. induction cs as [| c cs IH]; intros l l'; [reflexivity |].
  destruct l as [| a l]; [now rewrite !select_nil_r |].
  destruct l' as [| b l'].
  - rewrite select_nil_r. cbn [combine]. rewrite select_nil_r.
    now destruct (select k (c :: cs) (a :: l)).
  - cbn [combine]. rewrite !select_cons.
    destruct (code_is k c); cbn [combine]; now rewrite IH.
Qed.

Lemma index_select {A : Type} (k : nat) (cs : list (option nat))
  (pre l : list A) :
  map_result (py_index (pre ++ l)) (select k cs (seq (length pre) (length l)))
  = Ok (select k cs l).
Proof.
  revert cs pre. induction l as [| a l IH]; intros cs pre.
  - cbn [length seq]. now rewrite !select_nil_r.
  - destruct cs as [| c cs]; [reflexivity |].
    cbn [length seq]. rewrite !select_cons.
    specialize (IH cs (pre ++ [a])).
    rewrite <- app_assoc, length_app in IH. cbn [app length] in IH.
    replace (length pre + 1)%nat with (S (length pre)) in IH by lia.
    destruct (code_is k c); [| exact IH].
    cbn [map_result]. unfold py_index at 1.
    rewrite nth_error_app2, Nat.sub_diag by lia. cbn [nth_error bind].
    now rewrite IH.
Qed.

Lemma group_points_select (xs ys : list val) (cs : list (option nat))
  (keys : list nat) :
  length xs = length ys ->
  Binning.group_points xs ys
    (map (fun k => (k, select k cs (seq 0 (length xs)))) keys)
  = Ok (map (fun k => select k cs (combine xs ys)) keys).
Proof.
  intros Hlen. unfold Binning.group_points.
  induction keys as [| k keys IH]; [reflexivity |].
  cbn [map map_result snd].
  pose proof (index_select k cs [] xs) as Ex. cbn [app length] in Ex.
  pose proof (index_select k cs [] ys) as Ey. cbn [app length] in Ey.
  rewrite <- Hlen in Ey. rewrite Ex, Ey. cbn [bind].
  rewrite IH. cbn [bind]. now rewrite select_combine.
Qed.

Lemma select_unobserved {A : Type} (k : nat) (cs : list (option nat))
  (l : list A) :
  existsb (code_is k) cs = false -> select k cs l = [].
Proof.
  revert l. induction cs as [| c cs IH]; intros l H; [reflexivity |].
  destruct l as [| a l]; [apply select_nil_r |].
  cbn [existsb] in H. apply orb_false_elim in H. destruct H as [H1 H2].
  rewrite select_cons, H1. now apply IH.
Qed.

Lemma concat_observed {A : Type} (c : Categorical) (l : list A) :
  concat (map (fun k => select k (codes c) l) (observed_keys c))
  = concat (map (fun k => select k (codes c) l) (seq 0 (ncat c))).
Proof.
  unfold observed_keys. induction (seq 0 (ncat c)) as [| k ks IH];
    [reflexivity |].
  cbn [filter map concat].
  destruct (existsb (code_is k) (codes c)) eqn:E; cbn [map concat].
  - now rewrite IH.
  - now rewrite (select_unobserved k _ l E), IH.
Qed.

Lemma concat_insert {A : Type} (g : nat -> list A) (a : A) (j s n : nat) :
  (s <= j < s + n)%nat ->
  Permutation
    (concat (map (fun k => if Nat.eqb j k then a :: g k else g k) (seq s n)))
    (a :: concat (map g (seq s n))).
Proof.
  revert s. induction n as [| n IH]; intros s Hj; [lia |].
  cbn [seq map concat].
  destruct (Nat.eqb_spec j s) as [-> | Hne].
  - cbn [app]. apply perm_skip. apply Permutation_app_head.
    replace (map (fun k => if Nat.eqb s k then a :: g k else g k) (seq (S s) n))
      with (map g (seq (S s) n)); [reflexivity |].
    apply map_ext_in. intros k Hk. apply in_seq in Hk.
    destruct (Nat.eqb_spec s k); [lia | reflexivity].
  - etransitivity; [apply Permutation_app_head, IH; lia |].
    symmetry. apply Permutation_middle.
Qed.

(** When every row has a bucket, the groups hold every row once. *)
Lemma groups_partition {A : Type} (n : nat) (cs : list (option nat))
  (l : list A) :
  length cs = length l ->
  (forall c, In c cs -> exists k, c = Some k /\ (k < n)%nat) ->
  Permutation (concat (map (fun k => select k cs l) (seq 0 n))) l.
Proof.
  revert l. induction cs as [| c cs IH]; intros l Hlen Hc.
  - destruct l; [| discriminate]. cbn [length] in *.
    replace (map (fun k => select k [] (@nil A)) (seq 0 n))
      with (map (fun _ : nat => @nil A) (seq 0 n)) by reflexivity.
    induction (seq 0 n); [constructor | assumption].
  - destruct l as [| a l]; [discriminate |].
    destruct (Hc c (or_introl eq_refl)) as (j & -> & Hj).
    replace (map (fun k => select k (Some j :: cs) (a :: l)) (seq 0 n))
      with (map (fun k => if Nat.eqb j k then a :: select k cs l
                          else select k cs l) (seq 0 n))
      by (apply map_ext; intros k; now rewrite select_cons).
    etransitivity; [apply concat_insert; lia |].
    apply perm_skip. apply IH.
    + cbn in Hlen. lia.
    + intros c' Hc'. apply Hc. now right.
Qed.

(** ** The aggregation over positive samples, step by step *)

Lemma range_of_exists (rx : list R) :
  rx <> [] -> exists lo hi, range_of rx lo hi.
Proof.
  intros Hne.
  destruct (py_min_fin rx Hne) as (lo & _ & Hlo & Hlo').
  destruct (py_max_fin rx Hne) as (hi & _ & Hhi & Hhi').
  exists lo, hi. repeat split; auto.
Qed.

Lemma range_of_min_max (rx : list R) (lo hi : R) :
  range_of rx lo hi ->
  py_min (map Fin rx) = Ok (Fin lo) /\ py_max (map Fin rx) = Ok (Fin hi).
Proof.
  intros (Hlo & Hhi & Hr).
  assert (Hne : rx <> []) by (intros ->; contradiction).
  destruct (py_min_fin rx Hne) as (lo' & -> & Hlo1 & Hlo2).
  destruct (py_max_fin rx Hne) as (hi' & -> & Hhi1 & Hhi2).
  pose proof (Hr lo' Hlo1). pose proof (Hlo2 lo Hlo).
  pose proof (Hr hi' Hhi1). pose proof (Hhi2 hi Hhi).
  split; do 2 f_equal; lra.
Qed.

Lemma range_of_le (rx : list R) (lo hi : R) : range_of rx lo hi -> lo <= hi.
Proof. intros (Hlo & _ & Hr). apply (Hr lo Hlo). Qed.

Lemma range_of_distinct (rx : list R) (lo hi a b : R) :
  range_of rx lo hi -> In a rx -> In b rx -> a < b -> lo < hi.
Proof.
  intros (_ & _ & Hr) Ha Hb Hab.
  pose proof (Hr a Ha). pose proof (Hr b Hb). lra.
Qed.

Lemma prepare_range (rx : list R) (ys : list val) (lo hi : R)
  (fixed_point : option Binning.point) (strategy : string) :
  range_of rx lo hi -> length rx = length ys ->
  (fixed_point = None -> strategy <> "slope"%string) ->
  Binning.prepare (map Fin rx) ys fixed_point strategy
  = Ok ((Fin lo, Fin hi),
        mkDF (seq 0 (length (map Fin rx))) (map Fin rx) ys
             (slopes_of fixed_point (map Fin rx) ys) None).
Proof.
  intros Hr Hlen Hs. unfold Binning.prepare.
  destruct (range_of_min_max rx lo hi Hr) as [-> ->]. cbn [bind].
  unfold new_frame. rewrite length_map, Hlen, Nat.eqb_refl.
  destruct fixed_point as [fp |]; cbn [slopes_of option_map andb].
  - rewrite length_map. unfold Binning.point.
    rewrite length_combine, length_map, Hlen, Nat.min_id, Nat.eqb_refl.
    reflexivity.
  - specialize (Hs eq_refl). apply String.eqb_neq in Hs. rewrite Hs.
    reflexivity.
Qed.

Lemma prepare_ok (xs ys : list val) (fixed_point : option Binning.point)
  (strategy : string) p :
  Binning.prepare xs ys fixed_point strategy = Ok p ->
  xs <> [] /\ length xs = length ys
  /\ (fixed_point = None -> strategy <> "slope"%string).
Proof.
  unfold Binning.prepare.
  destruct xs as [| x xs]; [discriminate |]. cbn [py_min py_max bind].
  intros H. split; [discriminate |].
  destruct fixed_point as [fp |].
  - unfold new_frame in H.
    destruct (Nat.eqb_spec (length (x :: xs)) (length ys)) as [E | E];
      [| discriminate].
    split; [exact E | discriminate].
  - destruct (String.eqb_spec strategy "slope") as [E | E]; [discriminate |].
    unfold new_frame in H.
    destruct (Nat.eqb_spec (length (x :: xs)) (length ys)) as [E' | E'];
      [| discriminate].
    split; [exact E' | intros _; exact E].
Qed.

Section Steps.

Variable curve_fit :
  (val -> val -> result val) -> list val -> list val -> result val.
Variable LSQUnivariateSpline :
  list val -> list val -> list val -> result (val -> val).

Lemma bin_and_aggregate_range (lo hi : R) (rx : list R) (ys : list val)
  fixed_point nbins ypower add_after full_output strategy logdomain :
  range_of rx lo hi -> 0 < lo -> length rx = length ys ->
  (1 <= nbins)%Z -> (lo < hi \/ nbins = 1%Z) ->
  Binning.bin_and_aggregate curve_fit LSQUnivariateSpline (Fin lo, Fin hi)
    (mkDF (seq 0 (length (map Fin rx))) (map Fin rx) ys
          (slopes_of fixed_point (map Fin rx) ys) None)
    (map Fin rx) ys fixed_point nbins ypower add_after full_output strategy
    logdomain
  = finish curve_fit LSQUnivariateSpline lo hi rx ys fixed_point nbins
           ypower add_after full_output strategy logdomain.
Proof.
  intros Hr Hlo Hlen Hn Hcase. unfold Binning.bin_and_aggregate, finish.
  rewrite bin_by_values_range
    by (assumption || eapply range_of_le; eassumption).
  cbn [bind col_x col_y col_slope index].
  rewrite group_points_select by (now rewrite length_map).
  cbn [bind]. fold (binned lo hi (Z.to_nat nbins) fixed_point (map Fin rx) ys).
  destruct (Binning.aggregate_frame _ strategy logdomain) as [agg | e];
    cbn [bind]; [| reflexivity].
  destruct (Binning.curve _ _ agg _ ys fixed_point nbins ypower strategy)
    as [xy | e]; cbn [bind]; [| reflexivity].
  destruct (Binning.prepend add_after xy) as [cx cy]. reflexivity.
Qed.

Lemma bin_and_average_range (used : Binning.dict) (lo hi : R) (rx : list R)
  (ys : list val) fixed_point nbins ypower add_after full_output strategy
  logdomain silent (seen : bool) :
  range_of rx lo hi -> 0 < lo -> length rx = length ys ->
  (1 <= nbins)%Z -> (lo < hi \/ nbins = 1%Z) ->
  (fixed_point = None -> strategy <> "slope"%string) ->
  Binning.dict_get used strategy = Ok seen ->
  Binning.bin_and_average curve_fit LSQUnivariateSpline used (map Fin rx) ys
    fixed_point nbins ypower add_after full_output strategy logdomain silent
  = (if negb seen && negb silent then Binning.dict_set used strategy true
     else used,
     finish curve_fit LSQUnivariateSpline lo hi rx ys fixed_point nbins
            ypower add_after full_output strategy logdomain).
Proof.
  intros Hr Hlo Hlen Hn Hcase Hs Hd. unfold Binning.bin_and_average.
  rewrite (prepare_range rx ys lo hi) by assumption.
  rewrite Hd. f_equal. now apply bin_and_aggregate_range.
Qed.

(** A point set with one [x] value and more than one bucket does not
    reach the aggregation. *)
Lemma bin_and_average_single_x (used : Binning.dict) (lo : R) (rx : list R)
  (ys : list val) fixed_point nbins ypower add_after full_output strategy
  logdomain silent :
  range_of rx lo lo -> 0 < lo -> (2 <= nbins)%Z ->
  exists e,
    snd (Binning.bin_and_average curve_fit LSQUnivariateSpline used
           (map Fin rx) ys fixed_point nbins ypower add_after full_output
           strategy logdomain silent)
    = Raise e.
Proof.
  intros Hr Hlo Hn. unfold Binning.bin_and_average.
  destruct (Binning.prepare (map Fin rx) ys fixed_point strategy)
    as [[xrange df] | e] eqn:Ep; [| now exists e].
  destruct (Binning.dict_get used strategy) as [seen | e]; [| now exists e].
  apply prepare_inv in Ep. destruct Ep as (Emin & Emax & _).
  destruct (range_of_min_max rx lo lo Hr) as [E1 E2].
  rewrite E1 in Emin. rewrite E2 in Emax.
  destruct xrange as [vlo vhi]. cbn [fst snd] in Emin, Emax.
  injection Emin as <-. injection Emax as <-.
  cbn [snd]. unfold Binning.bin_and_aggregate.
  rewrite bin_by_values_single_x by (assumption || lia).
  now exists ValueError.
Qed.

(** What a returned result was computed from. *)
Lemma bin_and_average_ok (used : Binning.dict) (rx : list R) (ys : list val)
  fixed_point nbins ypower add_after full_output strategy logdomain silent o :
  (forall r, In r rx -> 0 < r) -> (1 <= nbins)%Z ->
  snd (Binning.bin_and_average curve_fit LSQUnivariateSpline used (map Fin rx)
         ys fixed_point nbins ypower add_after full_output strategy logdomain
         silent)
  = Ok o ->
  exists lo hi,
    range_of rx lo hi /\ 0 < lo /\ length rx = length ys
    /\ (lo < hi \/ nbins = 1%Z)
    /\ finish curve_fit LSQUnivariateSpline lo hi rx ys fixed_point nbins
              ypower add_after full_output strategy logdomain
       = Ok o.
Proof.
  intros Hpos Hn Hok.
  destruct (Binning.prepare (map Fin rx) ys fixed_point strategy) as [p | e]
    eqn:Ep.
  2:{ unfold Binning.bin_and_average in Hok. rewrite Ep in Hok. discriminate. }
  apply prepare_ok in Ep. destruct Ep as (Hne & Hlen & Hs).
  rewrite length_map in Hlen.
  assert (Hne' : rx <> []) by (intros ->; now apply Hne).
  destruct (range_of_exists rx Hne') as (lo & hi & Hr).
  assert (Hlo : 0 < lo) by (apply Hpos, Hr).
  pose proof (range_of_le rx lo hi Hr) as Hle.
  exists lo, hi.
  assert (Hcase : lo < hi \/ nbins = 1%Z).
  { destruct (Rlt_dec lo hi) as [Hlt | Hge]; [now left |].
    destruct (Z.eq_dec nbins 1) as [E | Hn1]; [now right | exfalso].
    assert (hi = lo) by lra. subst hi.
    destruct (bin_and_average_single_x used lo rx ys fixed_point nbins
                ypower add_after full_output strategy logdomain silent Hr Hlo
                ltac:(lia)) as [e He].
    rewrite He in Hok. discriminate. }
  repeat (split; [assumption |]).
  destruct (Binning.dict_get used strategy) as [seen | e] eqn:Ed.
  - rewrite (bin_and_average_range used lo hi rx ys _ _ _ _ _ _ _ _ seen)
      in Hok by assumption.
    exact Hok.
  - unfold Binning.bin_and_average in Hok.
    rewrite (prepare_range rx ys lo hi) in Hok by assumption.
    rewrite Ed in Hok. discriminate.
Qed.

End Steps.

(** ** The edges and the groups of a full output *)

Lemma mean_run_full :
  Binning.bin_and_average Binning.failing_curve_fit Binning.failing_spline
    Binning.STRAT_USED [Fin 1; Fin 100] [Fin 1; Fin 1] None 2 Binning.half
    None true "y_mean" false true
  = (Binning.STRAT_USED,
     Ok (Binning.mkOut [Fin 1; Fin 100]
           [Fin (Rpower 1 (1 / 2)); Fin (Rpower 1 (1 / 2))]
           (Some (log_edges 1 100 2,
                  [[(Fin 1, Fin 1)]; [(Fin 100, Fin 1)]])))).
Proof.
  unfold Binning.bin_and_average, Binning.prepare.
  cbn [py_min py_max fold_left vltb bind]. rcmp.
  repeat run_step.
  unfold Binning.bin_and_aggregate. change (2 + 1)%Z with 3%Z.
  rewrite bin_ends by (lra || lia || reflexivity).
  change (Z.to_nat 3 - 1)%nat with 2%nat. cbn [bind].
  unfold Binning.aggregate_frame, Binning.curve, Binning.is_mean,
    Binning.is_median, Binning.is_y, Binning.is_slope.
  repeat run_step.
  replace ((0 + 1) / 1) with 1 by lra.
  replace ((0 + 100) / 1) with 100 by lra.
  unfold Binning.half. rewrite vpow_pos by lra. reflexivity.
Qed.

Section Full_output.

Variable curve_fit :
  (val -> val -> result val) -> list val -> list val -> result val.
Variable LSQUnivariateSpline :
  list val -> list val -> list val -> result (val -> val).

Lemma finish_inv lo hi rx ys fixed_point nbins ypower add_after full_output
  strategy logdomain o :
  finish curve_fit LSQUnivariateSpline lo hi rx ys fixed_point nbins ypower
         add_after full_output strategy logdomain = Ok o ->
  exists agg xy,
    Binning.aggregate_frame
      (binned lo hi (Z.to_nat nbins) fixed_point (map Fin rx) ys) strategy
      logdomain = Ok agg
    /\ Binning.curve curve_fit LSQUnivariateSpline agg (Fin lo, Fin hi) ys
         fixed_point nbins ypower strategy = Ok xy
    /\ Binning.out_xs o = fst (Binning.prepend add_after xy)
    /\ Binning.out_ys o = snd (Binning.prepend add_after xy)
    /\ Binning.out_full o
       = if full_output
         then Some (log_edges lo hi (Z.to_nat nbins),
                    bucket_points lo hi (Z.to_nat nbins) (map Fin rx) ys)
         else None.
Proof.
  unfold finish.
  destruct (Binning.aggregate_frame _ strategy logdomain) as [agg | e] eqn:Ea;
    cbn [bind]; [| discriminate].
  destruct (Binning.curve _ _ agg _ ys fixed_point nbins ypower strategy)
    as [xy | e] eqn:Ec; cbn [bind]; [| discriminate].
  intros H. injection H as <-. exists agg, xy.
  split; [reflexivity |]. split; [exact Ec |]. split; [reflexivity |].
  split; reflexivity.
Qed.

End Full_output.

Lemma bucket_points_partition (lo hi : R) (m : nat) (rx : list R)
  (ys : list val) :
  range_of rx lo hi -> 0 < lo -> (1 <= m)%nat -> length rx = length ys ->
  let groups := bucket_points lo hi m (map Fin rx) ys in
  Permutation (concat groups) (combine (map Fin rx) ys)
  /\ (forall g, In g groups -> g <> [])
  /\ (length groups <= m)%nat.
Proof.
  intros Hr Hlo Hm Hlen groups. unfold groups, bucket_points.
  set (c := log_codes lo hi m (map Fin rx)).
  assert (Lc : length (codes c) = length (combine (map Fin rx) ys)).
  { cbn [c log_codes codes]. unfold Binning.point.
    rewrite length_combine, !length_map, <- Hlen. now rewrite Nat.min_id. }
  split; [| split].
  - rewrite concat_observed. cbn [c log_codes ncat].
    apply groups_partition; [exact Lc |].
    apply log_codes_some; try assumption.
    + eapply range_of_le; eassumption.
    + apply Hr.
  - intros g Hg. apply in_map_iff in Hg. destruct Hg as (k & <- & Hk).
    apply select_nonempty; [exact Lc |].
    now apply observed_keys_observed.
  - rewrite length_map. unfold observed_keys.
    etransitivity; [apply filter_length_le |].
    now rewrite length_seq.
Qed.

Lemma log_edges_ascending (lo hi : R) (m : nat) :
  0 < lo < hi -> (1 <= m)%nat -> strictly_ascending (log_edges lo hi m).
Proof.
  intros H Hm. apply sorted_strictly_ascending. unfold log_edges.
  apply map_sorted; [apply seq_sorted |].
  intros k k' _ _ Hk. eexists _, _. split; [reflexivity |].
  split; [reflexivity |]. now apply log_edge_increasing.
Qed.


(** ** The shape of the returned curve *)

Lemma map_result_length {A B : Type} (f : A -> result B) (l : list A)
  (bs : list B) :
  map_result f l = Ok bs -> length bs = length l.
Proof.
  revert bs. induction l as [| a l IH]; intros bs; cbn [map_result].
  - intros H. now injection H as <-.
  - destruct (f a) as [b | e]; cbn [bind]; [| discriminate].
    destruct (map_result f l) as [bs' | e]; cbn [bind]; [| discriminate].
    intros H. injection H as <-. cbn [length]. now rewrite (IH bs').
Qed.

Lemma filter_mask_length_le {A : Type} (mask : list bool) (l : list A) :
  (length (filter_mask mask l) <= length l)%nat.
Proof.
  unfold filter_mask. rewrite length_map.
  etransitivity; [apply filter_length_le |].
  rewrite length_combine. lia.
Qed.

Lemma grouped_well_formed (agg : list val -> val) (c : Categorical)
  (df : DataFrame) :
  well_formed (grouped agg c df).
Proof.
  unfold well_formed, grouped. cbn [col_x col_y col_slope index].
  rewrite !length_map. split; [reflexivity |]. split; [reflexivity |].
  intros s Hs. destruct (col_slope df); [| discriminate].
  injection Hs as <-. now rewrite length_map.
Qed.

Lemma dropna_well_formed (df : DataFrame) :
  well_formed df -> well_formed (dropna df).
Proof.
  intros (Hx & Hy & Hs). unfold well_formed, dropna.
  cbn [col_x col_y col_slope index].
  split; [now apply filter_mask_length |].
  split; [now apply filter_mask_length |].
  intros s E. destruct (col_slope df) as [s0 |]; [| discriminate].
  injection E as <-. apply filter_mask_length. now apply Hs.
Qed.

Lemma map_xy_well_formed (f : val -> val) (df : DataFrame) :
  well_formed df -> well_formed (map_xy f df).
Proof.
  intros (Hx & Hy & Hs). unfold well_formed, map_xy.
  cbn [col_x col_y col_slope index]. now rewrite !length_map.
Qed.

Lemma grouping_frame_well_formed (strategy : string) (c : Categorical)
  (df : DataFrame) (logdomain : bool) :
  well_formed
    ((if logdomain then map_xy vexp else fun d => d)
       (dropna (grouped (aggregate_of strategy) c
                  ((if logdomain then map_xy vlog else fun d => d) df)))).
Proof.
  destruct logdomain.
  - apply map_xy_well_formed, dropna_well_formed, grouped_well_formed.
  - apply dropna_well_formed, grouped_well_formed.
Qed.

Lemma grouping_frame_rows (strategy : string) (c : Categorical)
  (df : DataFrame) (logdomain : bool) :
  (length
     (index
        ((if logdomain then map_xy vexp else fun d => d)
           (dropna (grouped (aggregate_of strategy) c
                      ((if logdomain then map_xy vlog else fun d => d) df)))))
   <= ncat c)%nat.
Proof.
  assert (L : forall d,
             (length (index (dropna (grouped (aggregate_of strategy) c d)))
              <= ncat c)%nat).
  { intros d. cbn [dropna index grouped].
    etransitivity; [apply filter_mask_length_le |].
    unfold observed_keys.
    etransitivity; [apply filter_length_le |]. now rewrite length_seq. }
  destruct logdomain; apply L.
Qed.

Section Shape.

Variable curve_fit :
  (val -> val -> result val) -> list val -> list val -> result val.
Variable LSQUnivariateSpline :
  list val -> list val -> list val -> result (val -> val).

(** The steps behind a returned result, with points added after or not. *)
Lemma bin_and_average_steps used xs ys fixed_point nbins ypower add_after
  full_output strategy logdomain silent o :
  snd (Binning.bin_and_average curve_fit LSQUnivariateSpline used xs ys
         fixed_point nbins ypower add_after full_output strategy logdomain
         silent)
  = Ok o ->
  exists xrange df df' binned_indices bins agg xy,
    Binning.prepare xs ys fixed_point strategy = Ok (xrange, df)
    /\ Binning.bin_by_values df xrange (nbins + 1) "log"
       = Ok (df', binned_indices, bins)
    /\ Binning.aggregate_frame df' strategy logdomain = Ok agg
    /\ Binning.curve curve_fit LSQUnivariateSpline agg xrange ys fixed_point
                     nbins ypower strategy
       = Ok xy
    /\ Binning.out_xs o = fst (Binning.prepend add_after xy)
    /\ Binning.out_ys o = snd (Binning.prepend add_after xy).
Proof.
  unfold Binning.bin_and_average.
  destruct (Binning.prepare xs ys fixed_point strategy) as [[xrange df] | e]
    eqn:Ep; [| discriminate].
  destruct (Binning.dict_get used strategy) as [seen | e]; [| discriminate].
  cbn [snd]. unfold Binning.bin_and_aggregate.
  destruct (Binning.bin_by_values df xrange (nbins + 1) "log")
    as [[[df' binned_indices] bins] | e] eqn:Eb; cbn [bind]; [| discriminate].
  destruct (Binning.group_points xs ys binned_indices) as [grouped_points | e];
    cbn [bind]; [| discriminate].
  destruct (Binning.aggregate_frame df' strategy logdomain) as [agg | e]
    eqn:Ea; cbn [bind]; [| discriminate].
  destruct (Binning.curve curve_fit LSQUnivariateSpline agg xrange ys
              fixed_point nbins ypower strategy) as [xy | e] eqn:Ec;
    cbn [bind]; [| discriminate].
  destruct (Binning.prepend add_after xy) as [cx cy] eqn:Epre.
  intros H. injection H as <-. cbn [Binning.out_xs Binning.out_ys].
  exists xrange, df, df', binned_indices, bins, agg, xy.
  rewrite Epre. cbn [fst snd]. auto 10.
Qed.

(** The frame a grouping strategy computes its curve from. *)
Lemma grouping_frame used xs ys fixed_point nbins ypower add_after
  full_output strategy logdomain silent o :
  grouping strategy ->
  snd (Binning.bin_and_average curve_fit LSQUnivariateSpline used xs ys
         fixed_point nbins ypower add_after full_output strategy logdomain
         silent)
  = Ok o ->
  exists (c : Categorical) (df : DataFrame) (agg : DataFrame) xy,
    ncat c = Z.to_nat nbins
    /\ length (codes c) = length xs
    /\ length xs = length ys
    /\ col_y df = ys
    /\ agg = (if logdomain then map_xy vexp else fun d => d)
               (dropna (grouped (aggregate_of strategy) c
                          ((if logdomain then map_xy vlog else fun d => d)
                             df)))
    /\ Binning.curve curve_fit LSQUnivariateSpline agg
         (match py_min xs, py_max xs with
          | Ok lo, Ok hi => (lo, hi)
          | _, _ => (NaN, NaN)
          end)
         ys fixed_point nbins ypower strategy
       = Ok xy
    /\ Binning.out_xs o = fst (Binning.prepend add_after xy)
    /\ Binning.out_ys o = snd (Binning.prepend add_after xy).
Proof.
  intros Hg Hok. apply bin_and_average_steps in Hok.
  destruct Hok as (xrange & df & df' & bi & bins & agg & xy
                   & Hp & Hb & Ha & Hc & Hx & Hy).
  pose proof (prepare_ok _ _ _ _ _ Hp) as (_ & Hlen & _).
  apply prepare_inv in Hp. destruct Hp as (Emin & Emax & Ex & Ey & _).
  pose proof Hb as Hb'.
  apply bin_by_values_log_inv in Hb. destruct Hb as (Hl & c & Hcut & ->).
  apply logspace_length in Hl.
  apply cut_ok_inv in Hcut. destruct Hcut as (b0 & rest & Eb & _ & _ & ->).
  match type of Ha with
  | Binning.aggregate_frame ?d _ _ = _ =>
      rewrite (aggregate_frame_grouping d _ strategy logdomain eq_refl Hg)
        in Ha
  end.
  injection Ha as <-.
  exists (mkCat (length bins - 1) (map (cut_code bins b0) (col_x df))),
         (mkDF (index df) (col_x df) (col_y df) (col_slope df)
               (Some (mkCat (length bins - 1)
                            (map (cut_code bins b0) (col_x df))))).
  eexists _, xy. split; [| split; [| split; [| split; [| split;
    [reflexivity | split; [| split; [exact Hx | exact Hy]]]]]]].
  - cbn [ncat]. rewrite Hl. lia.
  - cbn [codes]. now rewrite length_map, Ex.
  - exact Hlen.
  - cbn [col_y]. exact Ey.
  - rewrite Emin, Emax. destruct xrange. exact Hc.
Qed.

Lemma curve_lengths (df : DataFrame) xrange ys fixed_point nbins ypower
  strategy cx cy :
  In strategy Binning.strats -> well_formed df ->
  Binning.curve curve_fit LSQUnivariateSpline df xrange ys fixed_point nbins
                ypower strategy = Ok (cx, cy) ->
  length cx = length cy.
Proof.
  intros Hs (Hx & Hy & Hsl). unfold Binning.curve.
  cbn in Hs.
  destruct Hs as [<- | [<- | [<- | [<- | [<- | [<- | []]]]]]];
    cbn [Binning.is_y Binning.is_slope String.eqb Ascii.eqb Bool.eqb orb bind].
  - intros H. injection H as <- <-. rewrite length_map. congruence.
  - intros H. injection H as <- <-. rewrite length_map. congruence.
  - destruct (get_slope df) as [s | e] eqn:Es; cbn [bind]; [| discriminate].
    destruct fixed_point as [fp |];
      cbn [Binning.eval_power_function_series bind]; [| discriminate].
    intros H. injection H as <- <-. rewrite !length_map, length_combine.
    unfold get_slope in Es. destruct (col_slope df) as [s' |] eqn:E';
      [| discriminate].
    injection Es as ->. rewrite (Hsl s eq_refl), Hx. apply eq_sym, Nat.min_id.
  - destruct (get_slope df) as [s | e] eqn:Es; cbn [bind]; [| discriminate].
    destruct fixed_point as [fp |];
      cbn [Binning.eval_power_function_series bind]; [| discriminate].
    intros H. injection H as <- <-. rewrite !length_map, length_combine.
    unfold get_slope in Es. destruct (col_slope df) as [s' |] eqn:E';
      [| discriminate].
    injection Es as ->. rewrite (Hsl s eq_refl), Hx. apply eq_sym, Nat.min_id.
  - destruct (curve_fit _ _ _) as [slope | e]; cbn [bind]; [| discriminate].
    destruct (Binning.shrunk_logspace _ nbins) as [pts | e]; cbn [bind];
      [| discriminate].
    destruct (map_result _ pts) as [v | e] eqn:Ev; cbn [bind];
      [| discriminate].
    intros H. injection H as <- <-. symmetry.
    eapply map_result_length; eassumption.
  - destruct (logspace _ _ nbins np_e) as [t | e]; cbn [bind]; [| discriminate].
    destruct (LSQUnivariateSpline _ _ _) as [sp | e]; cbn [bind];
      [| discriminate].
    destruct (Binning.shrunk_logspace _ nbins) as [pts | e]; cbn [bind];
      [| discriminate].
    intros H. injection H as <- <-. now rewrite length_map.
Qed.

Lemma prepend_lengths (add_after : option (list Binning.point))
  (xy : list val * list val) :
  length (fst xy) = length (snd xy) ->
  length (fst (Binning.prepend add_after xy))
  = length (snd (Binning.prepend add_after xy)).
Proof.
  intros H. destruct add_after as [pts |]; [| exact H].
  rewrite prepend_rev. cbn [fst snd].
  now rewrite !length_app, !length_rev, !length_map, H.
Qed.

End Shape.

(** X7: for every supported strategy, with or without points added
    after, a returned curve has as many [x] values as [y] values. *)
Theorem curve_has_matching_lengths :
  forall curve_fit LSQUnivariateSpline used xs ys fixed_point nbins ypower
         add_after full_output strategy logdomain silent o,
    In strategy Binning.strats ->
    snd (Binning.bin_and_average curve_fit LSQUnivariateSpline used xs ys
           fixed_point nbins ypower add_after full_output strategy logdomain
           silent)
    = Ok o ->
    length (Binning.out_xs o) = length (Binning.out_ys o).
Proof.
  intros cf sp used xs ys fixed_point nbins ypower add_after full_output
         strategy logdomain silent o Hs Hok.
  destruct (strategy_cases strategy Hs) as [Hg | Hf].
  - apply grouping_frame in Hok; [| exact Hg].
    destruct Hok as (c & df & agg & [cx cy] & _ & _ & _ & _ & -> & Hc & -> & ->).
    apply prepend_lengths. cbn [fst snd].
    eapply curve_lengths; [exact Hs | | exact Hc].
    apply grouping_frame_well_formed.
  - apply bin_and_average_steps in Hok.
    destruct Hok as (xrange & df & df' & bi & bins & agg & [cx cy]
                     & _ & _ & _ & Hc & -> & ->).
    apply prepend_lengths. cbn [fst snd].
    clear -Hf Hc. unfold Binning.curve in Hc.
    destruct Hf as [-> | ->];
      cbn [Binning.is_y Binning.is_slope String.eqb Ascii.eqb Bool.eqb orb bind]
        in Hc.
    + destruct (cf _ _ _) as [slope | e]; cbn [bind] in Hc; [| discriminate].
      destruct (Binning.shrunk_logspace _ nbins) as [pts | e]; cbn [bind] in Hc;
        [| discriminate].
      destruct (map_result _ pts) as [v | e] eqn:Ev; cbn [bind] in Hc;
        [| discriminate].
      injection Hc as <- <-. symmetry.
      eapply map_result_length; eassumption.
    + destruct (logspace _ _ nbins np_e) as [t | e]; cbn [bind] in Hc;
        [| discriminate].
      destruct (sp _ _ _) as [f | e]; cbn [bind] in Hc; [| discriminate].
      destruct (Binning.shrunk_logspace _ nbins) as [pts | e]; cbn [bind] in Hc;
        [| discriminate].
      injection Hc as <- <-. now rewrite length_map.
Qed.

Lemma curve_has_matching_lengths_witness :
  length [Fin 1; Fin 100]
  = length [Fin (Rpower 1 (1 / 2)); Fin (Rpower 1 (1 / 2))].
Proof.
  apply (curve_has_matching_lengths
           Binning.failing_curve_fit Binning.failing_spline
           Binning.STRAT_USED [Fin 1; Fin 100] [Fin 1; Fin 1] None 2
           Binning.half None false "y_mean" false true
           (Binning.mkOut [Fin 1; Fin 100]
              [Fin (Rpower 1 (1 / 2)); Fin (Rpower 1 (1 / 2))] None)).
  - cbn. tauto.
  - rewrite mean_run. reflexivity.
Defined.

(** X8: without points added after, a returned curve has at most [nbins]
    points under the strategies that group by bucket (one for each bucket
    that keeps a row), and exactly [nbins] points under [fit] and
    [spline]. *)
Theorem curve_has_at_most_nbins_points :
  forall curve_fit LSQUnivariateSpline used xs ys fixed_point nbins ypower
         full_output strategy logdomain silent o,
    In strategy Binning.strats ->
    snd (Binning.bin_and_average curve_fit LSQUnivariateSpline used xs ys
           fixed_point nbins ypower None full_output strategy logdomain
           silent)
    = Ok o ->
    (length (Binning.out_xs o) <= Z.to_nat nbins)%nat
    /\ (fitting strategy -> length (Binning.out_xs o) = Z.to_nat nbins).
Proof.
  intros cf sp used xs ys fixed_point nbins ypower full_output strategy
         logdomain silent o Hs Hok.
  destruct (strategy_cases strategy Hs) as [Hg | Hf].
  - split.
    + apply grouping_frame in Hok; [| exact Hg].
      destruct Hok as (c & df & agg & [cx cy] & Hn & _ & _ & _ & -> & Hc & ->
                       & _).
      cbn [Binning.prepend fst].
      apply (curve_grouping_x cf sp) in Hc; [| exact Hg]. subst cx.
      destruct (grouping_frame_well_formed strategy c df logdomain) as (-> & _).
      rewrite <- Hn. apply grouping_frame_rows.
    + intros [-> | ->]; destruct Hg as [E | [E | [E | E]]]; discriminate.
  - apply bin_and_average_steps in Hok.
    destruct Hok as (xrange & df & df' & bi & bins & agg & [cx cy]
                     & _ & _ & _ & Hc & -> & _).
    cbn [Binning.prepend fst].
    apply (curve_fitting_x cf sp) in Hc; [| exact Hf].
    apply logspace_length in Hc. rewrite Hc. split; [lia | reflexivity].
Qed.

Lemma curve_has_at_most_nbins_points_witness :
  (length [Fin 1; Fin 100] <= Z.to_nat 2)%nat
  /\ (fitting "y_mean" -> length [Fin 1; Fin 100] = Z.to_nat 2).
Proof.
  apply (curve_has_at_most_nbins_points
           Binning.failing_curve_fit Binning.failing_spline
           Binning.STRAT_USED [Fin 1; Fin 100] [Fin 1; Fin 1] None 2
           Binning.half false "y_mean" false true
           (Binning.mkOut [Fin 1; Fin 100]
              [Fin (Rpower 1 (1 / 2)); Fin (Rpower 1 (1 / 2))] None)).
  - cbn. tauto.
  - rewrite mean_run. reflexivity.
Defined.

(** ** One bucket *)

Lemma select_all {A : Type} (k : nat) (cs : list (option nat)) (l : list A) :
  (forall c, In c cs -> c = Some k) -> length cs = length l ->
  select k cs l = l.
Proof.
  revert l. induction cs as [| c cs IH]; intros l Hc Hlen.
  - destruct l; [reflexivity | discriminate].
  - destruct l as [| a l]; [discriminate |].
    rewrite select_cons, (Hc c (or_introl eq_refl)). cbn [code_is].
    rewrite Nat.eqb_refl. f_equal. apply IH.
    + intros c' Hc'. apply Hc. now right.
    + cbn in Hlen. lia.
Qed.

Lemma one_bucket_codes (lo hi : R) (rx : list R) :
  range_of rx lo hi -> 0 < lo ->
  codes (log_codes lo hi 1 (map Fin rx)) = map (fun _ => Some 0%nat) rx.
Proof.
  intros Hr Hlo.
  pose proof (log_codes_some lo hi 1 rx Hlo (range_of_le _ _ _ Hr)
                (le_n 1) (proj2 (proj2 Hr))) as H.
  cbn [log_codes codes] in *. rewrite map_map in *.
  apply map_ext_in. intros r Hin.
  destruct (H (cut_code (log_edges lo hi 1) (Fin lo) (Fin r))) as (k & -> & Hk).
  - apply in_map_iff. now exists r.
  - f_equal. lia.
Qed.

Lemma one_bucket_keys (lo hi : R) (rx : list R) :
  range_of rx lo hi -> 0 < lo ->
  observed_keys (log_codes lo hi 1 (map Fin rx)) = [0%nat].
Proof.
  intros Hr Hlo. unfold observed_keys.
  rewrite one_bucket_codes by assumption. cbn [log_codes ncat seq filter].
  destruct rx as [| r rx]; [destruct Hr as (H & _); contradiction |].
  reflexivity.
Qed.

Lemma one_bucket_select {A : Type} (lo hi : R) (rx : list R) (l : list A) :
  range_of rx lo hi -> 0 < lo -> length rx = length l ->
  select 0 (codes (log_codes lo hi 1 (map Fin rx))) l = l.
Proof.
  intros Hr Hlo Hlen. rewrite one_bucket_codes by assumption.
  apply select_all.
  - intros c Hc. apply in_map_iff in Hc. now destruct Hc as (_ & <- & _).
  - now rewrite length_map.
Qed.

Lemma aggregate_of_fin (strategy : string) (rs : list R) :
  rs <> [] -> exists a, aggregate_of strategy (map Fin rs) = Fin a.
Proof.
  intros H. destruct (aggregate_of_between strategy rs H) as (a & _ & _ & E & _).
  now exists a.
Qed.

Lemma y_grouping (strategy : string) : y_strategy strategy -> grouping strategy.
Proof. unfold grouping. intros [-> | ->]; tauto. Qed.

Lemma y_in_strats (strategy : string) :
  y_strategy strategy -> In strategy Binning.strats.
Proof. intros [-> | ->]; cbn; tauto. Qed.

Lemma grouping_not_slope (strategy : string) :
  grouping strategy -> strategy <> "slope"%string.
Proof. intros [-> | [-> | [-> | ->]]]; discriminate. Qed.

(** ** The strategies that need the fixed point *)

Lemma map_result_raises {A B : Type} (f : A -> result B) (e : exn)
  (l : list A) :
  l <> [] -> (forall a, f a = Raise e) -> map_result f l = Raise e.
Proof.
  intros Hne Hf. destruct l as [| a l]; [congruence |].
  cbn [map_result]. now rewrite Hf.
Qed.

(** ** Failures before the aggregation *)

(** X11: a point set whose [x] values are all the same positive number
    cannot be cut into two buckets or more: the edges coincide and the
    call ends in the [ValueError] of [cut], for every supported
    strategy. *)
Theorem one_x_value_needs_one_bucket :
  forall curve_fit LSQUnivariateSpline used (rx : list R) ys fixed_point nbins
         ypower add_after full_output strategy logdomain silent (x : R),
    map fst used = Binning.strats -> In strategy Binning.strats ->
    rx <> [] -> (forall r, In r rx -> r = x) -> 0 < x ->
    length rx = length ys -> (2 <= nbins)%Z ->
    snd (Binning.bin_and_average curve_fit LSQUnivariateSpline used
           (map Fin rx) ys fixed_point nbins ypower add_after full_output
           strategy logdomain silent)
    = Raise ValueError.
Proof.
  intros cf sp used rx ys fixed_point nbins ypower add_after full_output
         strategy logdomain silent x Hkeys Hs Hne Hall Hx Hlen Hn.
  assert (Hr : range_of rx x x).
  { destruct rx as [| r rx]; [congruence |].
    pose proof (Hall r (or_introl eq_refl)) as ->.
    split; [now left |]. split; [now left |].
    intros r Hin. rewrite (Hall r Hin). lra. }
  destruct (dict_get_present used strategy) as [seen Ed];
    [now rewrite Hkeys |].
  unfold Binning.bin_and_average.
  rewrite (prepare_range rx ys x x); try assumption.
  2:{ intros _ ->. cbn in Hs. intuition discriminate. }
  rewrite Ed. cbn [snd]. unfold Binning.bin_and_aggregate.
  now rewrite bin_by_values_single_x by (assumption || lia).
Qed.

Lemma one_x_value_needs_one_bucket_witness :
  snd (Binning.bin_and_average Binning.failing_curve_fit
         Binning.failing_spline Binning.STRAT_USED (map Fin [100; 100])
         [Fin 1; Fin (1 / 4)] None 20 Binning.half None false "y_mean" false
         true)
  = Raise ValueError.
Proof.
  apply (one_x_value_needs_one_bucket
           Binning.failing_curve_fit Binning.failing_spline
           Binning.STRAT_USED [100; 100] [Fin 1; Fin (1 / 4)] None 20
           Binning.half None false "y_mean" false true 100).
  - reflexivity.
  - cbn. tauto.
  - discriminate.
  - intros r [<- | [<- | []]]; reflexivity.
  - lra.
  - reflexivity.
  - lia.
Defined.

(** X12: the inputs are checked by what the first lines happen to call:
    an empty point set ends in the [ValueError] of [min], and [x] and [y]
    sequences of different lengths in the [ValueError] of the frame
    constructor; both come before the strategy is looked up, and
    [STRAT_USED] is left as it was. *)
Theorem malformed_point_sets_raise_value_error :
  forall curve_fit LSQUnivariateSpline used xs ys fixed_point nbins ypower
         add_after full_output strategy logdomain silent,
    (xs = [] ->
     Binning.bin_and_average curve_fit LSQUnivariateSpline used xs ys
       fixed_point nbins ypower add_after full_output strategy logdomain silent
     = (used, Raise ValueError))
    /\ (xs <> [] -> length xs <> length ys ->
        (fixed_point = None -> strategy <> "slope"%string) ->
        Binning.bin_and_average curve_fit LSQUnivariateSpline used xs ys
          fixed_point nbins ypower add_after full_output strategy logdomain
          silent
        = (used, Raise ValueError)).
Proof.
  intros cf sp used xs ys fixed_point nbins ypower add_after full_output
         strategy logdomain silent.
  split.
  - intros ->. reflexivity.
  - intros Hne Hlen Hs. unfold Binning.bin_and_average, Binning.prepare.
    destruct (py_min_ok xs Hne) as [lo ->].
    destruct (py_max_ok xs Hne) as [hi ->]. cbn [bind].
    apply Nat.eqb_neq in Hlen. unfold new_frame. rewrite Hlen.
    destruct fixed_point as [fp |]; cbn [andb bind]; [reflexivity |].
    specialize (Hs eq_refl). apply String.eqb_neq in Hs. now rewrite Hs.
Qed.

Lemma malformed_point_sets_raise_value_error_witness :
  Binning.bin_and_average Binning.failing_curve_fit Binning.failing_spline
    Binning.STRAT_USED [Fin 1; Fin 2] [Fin 1] None 20 Binning.half None false
    "y_mean" false false
  = (Binning.STRAT_USED, Raise ValueError).
Proof.
  apply (malformed_point_sets_raise_value_error
           Binning.failing_curve_fit Binning.failing_spline
           Binning.STRAT_USED [Fin 1; Fin 2] [Fin 1] None 20 Binning.half None
           false "y_mean" false false).
  - discriminate.
  - cbn. lia.
  - intros _. discriminate.
Defined.

(** ** The record of the strategies used *)

Lemma dict_get_set_same (d : Binning.dict) (k : string) (v : bool) :
  In k (map fst d) -> Binning.dict_get (Binning.dict_set d k v) k = Ok v.
Proof.
  induction d as [| [k' v'] d IH]; intros H; cbn in *; [contradiction |].
  destruct (String.eqb_spec k k') as [-> | Hne]; cbn.
  - now rewrite String.eqb_refl.
  - apply String.eqb_neq in Hne. rewrite Hne.
    apply IH. destruct H as [H | H]; [| assumption].
    apply String.eqb_neq in Hne. congruence.
Qed.

Lemma dict_get_set_other (d : Binning.dict) (k k' : string) (v : bool) :
  In k (map fst d) -> k' <> k ->
  Binning.dict_get (Binning.dict_set d k v) k' = Binning.dict_get d k'.
Proof.
  induction d as [| [k0 v0] d IH]; intros H Hne; cbn in *; [contradiction |].
  destruct (String.eqb_spec k k0) as [-> | Hk]; cbn.
  - apply String.eqb_neq in Hne. now rewrite Hne.
  - destruct (String.eqb k' k0); [reflexivity |].
    apply IH; [| assumption]. destruct H as [H | H]; [congruence | assumption].
Qed.

(** X13: a call that is not silent records its strategy in [STRAT_USED]
    as soon as the point set is well formed, whether or not the binning
    then succeeds, and leaves the other entries alone; a silent call
    changes nothing. *)
Theorem first_use_is_recorded :
  forall curve_fit LSQUnivariateSpline used xs ys fixed_point nbins ypower
         add_after full_output strategy logdomain,
    map fst used = Binning.strats -> In strategy Binning.strats ->
    xs <> [] -> length xs = length ys ->
    let after silent :=
      fst (Binning.bin_and_average curve_fit LSQUnivariateSpline used xs ys
             fixed_point nbins ypower add_after full_output strategy
             logdomain silent) in
    Binning.dict_get (after false) strategy = Ok true
    /\ (forall k, k <> strategy ->
                  Binning.dict_get (after false) k = Binning.dict_get used k)
    /\ after true = used.
Proof.
  intros cf sp used xs ys fixed_point nbins ypower add_after full_output
         strategy logdomain Hkeys Hs Hne Hlen after.
  assert (Hin : In strategy (map fst used)) by (now rewrite Hkeys).
  destruct (dict_get_present used strategy Hin) as [seen Ed].
  assert (Hp : exists p, Binning.prepare xs ys fixed_point strategy = Ok p).
  { destruct fixed_point as [fp |].
    - destruct (prepare_fixed_point xs ys fp strategy Hne Hlen) as [r ->].
      eauto.
    - destruct (prepare_no_fixed_point xs ys strategy Hne Hlen) as [r ->];
        [| eauto].
      intros ->. cbn in Hs. intuition discriminate. }
  destruct Hp as [[xrange df] Ep].
  unfold after, Binning.bin_and_average. rewrite Ep, Ed. cbn [fst negb andb].
  rewrite andb_false_r, andb_true_r.
  destruct seen; cbn [negb].
  - auto.
  - split; [now apply dict_get_set_same |].
    split; [| reflexivity].
    intros k Hk. now apply dict_get_set_other.
Qed.

Lemma first_use_is_recorded_witness :
  Binning.dict_get
    (fst (Binning.bin_and_average Binning.failing_curve_fit
            Binning.failing_spline Binning.STRAT_USED [Fin 100; Fin 100]
            [Fin 1; Fin 1] None 20 Binning.half None false "y_median" false
            false))
    "y_median"
  = Ok true.
Proof.
  apply (first_use_is_recorded
           Binning.failing_curve_fit Binning.failing_spline
           Binning.STRAT_USED [Fin 100; Fin 100] [Fin 1; Fin 1] None 20
           Binning.half None false "y_median" false).
  - reflexivity.
  - cbn. tauto.
  - discriminate.
  - reflexivity.
Defined.

(** ** The aggregated [y] of a bucket *)

Lemma select_subset {A : Type} (k : nat) (cs : list (option nat)) (l : list A)
  (a : A) :
  In a (select k cs l) -> In a l.
Proof.
  intros H. apply select_In in H. destruct H as (i & _ & Hi).
  eapply nth_error_In; eassumption.
Qed.

Lemma aggregate_column_between (agg : list val -> val) (cs : list (option nat))
  (rs : list R) (logdomain : bool) (k : nat) :
  between agg -> length cs = length rs ->
  existsb (code_is k) cs = true ->
  (logdomain = true -> forall r, In r rs -> 0 < r) ->
  exists a r1 r2,
    (if logdomain then vexp else fun v => v)
      (agg (select k cs (map (if logdomain then vlog else fun v => v)
                             (map Fin rs))))
    = Fin a
    /\ In r1 rs /\ In r2 rs /\ r1 <= a <= r2.
Proof.
  intros Hb Hlen Hk Hpos.
  assert (Hne : select k cs rs <> []) by (now apply select_nonempty).
  destruct logdomain.
  - specialize (Hpos eq_refl).
    assert (E : map vlog (map Fin rs) = map Fin (map ln rs)).
    { rewrite !map_map. apply map_ext_in. intros r Hr.
      apply vlog_fin. now apply Hpos. }
    rewrite E, !select_map.
    destruct (Hb (map ln (select k cs rs)))
      as (a & l1 & l2 & Ea & H1 & H2 & Hle).
    { intros F. apply Hne. now destruct (select k cs rs). }
    apply in_map_iff in H1. destruct H1 as (r1 & <- & H1).
    apply in_map_iff in H2. destruct H2 as (r2 & <- & H2).
    apply select_subset in H1, H2.
    exists (exp a), r1, r2. rewrite Ea. cbn [vexp].
    split; [reflexivity |]. split; [assumption |]. split; [assumption |].
    pose proof (Hpos r1 H1) as P1. pose proof (Hpos r2 H2) as P2.
    destruct Hle as [Hl1 Hl2]. split.
    + rewrite <- (exp_ln r1 P1).
      destruct Hl1 as [Hl1 | ->];
        [left; now apply exp_increasing | right; reflexivity].
    + rewrite <- (exp_ln r2 P2).
      destruct Hl2 as [Hl2 | <-];
        [left; now apply exp_increasing | right; reflexivity].
  - rewrite map_id, select_map.
    destruct (Hb (select k cs rs) Hne) as (a & r1 & r2 & Ea & H1 & H2 & Hle).
    apply select_subset in H1, H2. now exists a, r1, r2.
Qed.

(** X14: under the mean and median strategies, without points added
    after, every [y] of a returned curve over finite [y] samples is
    [a ** ypower] for a value [a] that lies between two of the samples:
    the aggregation never leaves the range of the data (in the log domain,
    for positive samples). *)
Theorem aggregated_y_within_the_samples :
  forall curve_fit LSQUnivariateSpline used xs (ry : list R) fixed_point
         nbins ypower full_output strategy logdomain silent o,
    y_strategy strategy ->
    (logdomain = true -> forall r, In r ry -> 0 < r) ->
    snd (Binning.bin_and_average curve_fit LSQUnivariateSpline used xs
           (map Fin ry) fixed_point nbins ypower None full_output strategy
           logdomain silent)
    = Ok o ->
    forall v,
      In v (Binning.out_ys o) ->
      exists a r1 r2,
        v = vpow (Fin a) ypower /\ In r1 ry /\ In r2 ry /\ r1 <= a <= r2.
Proof.
  intros cf sp used xs ry fixed_point nbins ypower full_output strategy
         logdomain silent o Hy Hpos Hok v Hv.
  apply grouping_frame in Hok; [| now apply y_grouping].
  destruct Hok as (c & df & agg & xy & _ & Hlc & Hlen & Ey & Eagg & Hc & _ & Ho).
  rewrite curve_y in Hc by exact Hy. injection Hc as <-.
  cbn [Binning.prepend snd] in Ho. rewrite Ho in Hv. clear Ho.
  apply in_map_iff in Hv. destruct Hv as (w & <- & Hw).
  assert (B : exists a r1 r2,
             w = Fin a /\ In r1 ry /\ In r2 ry /\ r1 <= a <= r2).
  { assert (K : forall k, In k (observed_keys c) ->
                exists a r1 r2,
                  (if logdomain then vexp else fun v => v)
                    (aggregate_of strategy
                       (select k (codes c)
                          (map (if logdomain then vlog else fun v => v)
                               (map Fin ry))))
                  = Fin a
                  /\ In r1 ry /\ In r2 ry /\ r1 <= a <= r2).
    { intros k Hk. apply aggregate_column_between.
      - apply aggregate_of_between.
      - rewrite Hlc, Hlen. now rewrite length_map.
      - now apply observed_keys_observed.
      - exact Hpos. }
    subst agg. destruct logdomain;
      cbn [map_xy dropna grouped col_y index col_x col_slope col_bin] in Hw;
      rewrite Ey in Hw.
    - apply in_map_iff in Hw. destruct Hw as (u & <- & Hu).
      apply filter_mask_In in Hu. apply in_map_iff in Hu.
      destruct Hu as (k & <- & Hk). now apply K.
    - apply filter_mask_In in Hw. apply in_map_iff in Hw.
      destruct Hw as (k & <- & Hk).
      specialize (K k Hk). cbn beta in K. now rewrite map_id in K. }
  destruct B as (a & r1 & r2 & -> & H1 & H2 & Hle).
  now exists a, r1, r2.
Qed.

Lemma aggregated_y_within_the_samples_witness :
  exists a r1 r2,
    Fin (Rpower 1 (1 / 2)) = vpow (Fin a) Binning.half
    /\ In r1 [1; 1] /\ In r2 [1; 1] /\ r1 <= a <= r2.
Proof.
  apply (aggregated_y_within_the_samples
           Binning.failing_curve_fit Binning.failing_spline
           Binning.STRAT_USED [Fin 1; Fin 100] [1; 1] None 2 Binning.half
           false "y_mean" false true
           (Binning.mkOut [Fin 1; Fin 100]
              [Fin (Rpower 1 (1 / 2)); Fin (Rpower 1 (1 / 2))] None)).
  - left. reflexivity.
  - discriminate.
  - cbn [map]. rewrite mean_run. reflexivity.
  - left. reflexivity.
Defined.

(** ** Generated point sets *)

Section Generated.

Variable uniform : nat -> val.
Variable normal : nat -> val -> val -> result val.

Lemma uniform_points_length xrange npoints log :
  length (Curves.uniform_points uniform xrange npoints log)
  = Z.to_nat npoints.
Proof.
  unfold Curves.uniform_points. destruct xrange as [xmin xmax].
  destruct log; cbn [fst snd]; now rewrite !length_map, length_seq.
Qed.

Lemma uniform_points_within (xmin xmax : R) npoints log :
  unit_draws uniform -> (log = true -> 0 < xmin) -> xmin <= xmax ->
  forall v,
    In v (Curves.uniform_points uniform (Fin xmin, Fin xmax) npoints log) ->
    within xmin xmax v.
Proof.
  intros Hu Hlog Hle v Hv. unfold Curves.uniform_points in Hv.
  destruct log; cbn [fst snd] in Hv.
  - specialize (Hlog eq_refl).
    rewrite !vlog_fin in Hv by lra. rewrite map_map in Hv.
    apply in_map_iff in Hv. destruct Hv as (i & <- & _).
    destruct (Hu i) as (u & -> & Hu0 & Hu1).
    cbn [vsub vadd vopp vmul vexp]. eexists. split; [reflexivity |].
    assert (Hw : 0 <= ln xmax + - ln xmin).
    { destruct Hle as [Hlt | ->]; [| lra].
      pose proof (ln_increasing xmin xmax Hlog Hlt). lra. }
    split.
    + rewrite <- (exp_ln xmin Hlog) at 1.
      assert (H : ln xmin <= (ln xmax + - ln xmin) * u + ln xmin) by nra.
      destruct H as [H | <-]; [left; now apply exp_increasing | right; reflexivity].
    + assert (Hx : 0 < xmax) by lra.
      rewrite <- (exp_ln xmax Hx) at 2.
      assert (H : (ln xmax + - ln xmin) * u + ln xmin <= ln xmax) by nra.
      destruct H as [H | ->]; [left; now apply exp_increasing | right; reflexivity].
  - rewrite map_map in Hv.
    apply in_map_iff in Hv. destruct Hv as (i & <- & _).
    destruct (Hu i) as (u & -> & Hu0 & Hu1).
    cbn [vsub vadd vopp vmul]. eexists. split; [reflexivity |]. nra.
Qed.

End Generated.

(** X15: fed with draws from [[0, 1)], [uniform_points] returns
    [npoints] values (none for a negative [npoints]), every one of them
    inside [xrange]; on the log scale this holds for a range of positive
    numbers. *)
Theorem uniform_points_stay_in_range :
  forall (uniform : nat -> val) (xmin xmax : R) (npoints : Z) (log : bool),
    unit_draws uniform -> (log = true -> 0 < xmin) -> xmin <= xmax ->
    length (Curves.uniform_points uniform (Fin xmin, Fin xmax) npoints log)
    = Z.to_nat npoints
    /\ forall v,
         In v (Curves.uniform_points uniform (Fin xmin, Fin xmax) npoints log)
         -> within xmin xmax v.
Proof.
  intros uniform xmin xmax npoints log Hu Hlog Hle. split.
  - apply uniform_points_length.
  - now apply uniform_points_within.
Qed.

Lemma uniform_points_stay_in_range_witness :
  length (Curves.uniform_points (fun _ => Fin (1 / 2)) (Fin 1, Fin 100) 3
                                true)
  = Z.to_nat 3
  /\ forall v,
       In v (Curves.uniform_points (fun _ => Fin (1 / 2)) (Fin 1, Fin 100) 3
                                   true)
       -> within 1 100 v.
Proof.
  assert (D : exists u : R, Fin (1 / 2) = Fin u /\ 0 <= u < 1)
    by (exists (1 / 2); split; [reflexivity | lra]).
  apply (uniform_points_stay_in_range (fun _ => Fin (1 / 2)) 1 100 3 true).
  - intros i. exact D.
  - intros _. lra.
  - lra.
Defined.

(** ** Sorting the generated points *)

Lemma insert_pair_In (p q : Binning.point) (l : list Binning.point) :
  In q (Curves.insert_pair p l) <-> q = p \/ In q l.
Proof.
  induction l as [| a l IH]; cbn [Curves.insert_pair].
  - cbn. intuition congruence.
  - destruct (Curves.pair_ltb p a); cbn [In].
    + intuition congruence.
    + rewrite IH. intuition congruence.
Qed.

Lemma insert_pair_length (p : Binning.point) (l : list Binning.point) :
  length (Curves.insert_pair p l) = S (length l).
Proof.
  induction l as [| a l IH]; cbn [Curves.insert_pair]; [reflexivity |].
  destruct (Curves.pair_ltb p a); cbn [length]; [reflexivity | now rewrite IH].
Qed.

Lemma sorted_fold_In (l acc : list Binning.point) (q : Binning.point) :
  In q (fold_left (fun acc p => Curves.insert_pair p acc) l acc)
  <-> In q l \/ In q acc.
Proof.
  revert acc. induction l as [| p l IH]; intros acc; cbn [fold_left].
  - cbn. tauto.
  - rewrite IH, insert_pair_In. cbn [In]. intuition congruence.
Qed.

Lemma sorted_In (l : list Binning.point) (q : Binning.point) :
  In q (Curves.sorted l) <-> In q l.
Proof. unfold Curves.sorted. rewrite sorted_fold_In. cbn. tauto. Qed.

Lemma sorted_fold_length (l acc : list Binning.point) :
  length (fold_left (fun acc p => Curves.insert_pair p acc) l acc)
  = (length l + length acc)%nat.
Proof.
  revert acc. induction l as [| p l IH]; intros acc; cbn [fold_left length];
    [reflexivity |].
  rewrite IH, insert_pair_length. lia.
Qed.

Lemma sorted_length (l : list Binning.point) :
  length (Curves.sorted l) = length l.
Proof. unfold Curves.sorted. rewrite sorted_fold_length. cbn. lia. Qed.

Lemma point_le_total (p q : Binning.point) :
  finite_point p -> finite_point q ->
  Curves.pair_ltb p q = true -> point_le p q.
Proof.
  intros ((x & Hx) & (y & Hy)) ((x' & Hx') & (y' & Hy')).
  destruct p as [p1 p2], q as [q1 q2]. cbn [fst snd] in *. subst.
  unfold point_le, Curves.pair_ltb. cbn [fst snd veqb vltb].
  unfold Reqb, Rltb.
  destruct (Req_dec_T x x'), (Req_dec_T x' x), (Rlt_dec y y'), (Rlt_dec y' y),
    (Rlt_dec x x'), (Rlt_dec x' x);
    try reflexivity; try discriminate; intros; lra.
Qed.

Lemma point_le_trans (p q r : Binning.point) :
  finite_point p -> finite_point q -> finite_point r ->
  point_le p q -> point_le q r -> point_le p r.
Proof.
  intros ((x & Hx) & (y & Hy)) ((x' & Hx') & (y' & Hy'))
         ((x'' & Hx'') & (y'' & Hy'')).
  destruct p as [p1 p2], q as [q1 q2], r as [r1 r2]. cbn [fst snd] in *. subst.
  unfold point_le, Curves.pair_ltb. cbn [fst snd veqb vltb].
  unfold Reqb, Rltb.
  destruct (Req_dec_T x' x), (Req_dec_T x'' x'), (Req_dec_T x'' x),
    (Rlt_dec y' y), (Rlt_dec y'' y'), (Rlt_dec y'' y),
    (Rlt_dec x' x), (Rlt_dec x'' x'), (Rlt_dec x'' x);
    try reflexivity; try discriminate; intros; lra.
Qed.

Lemma point_le_fst (p q : Binning.point) :
  finite_point p -> finite_point q -> point_le p q ->
  vleb (fst p) (fst q) = true.
Proof.
  intros ((x & Hx) & (y & Hy)) ((x' & Hx') & (y' & Hy')).
  destruct p as [p1 p2], q as [q1 q2]. cbn [fst snd] in *. subst.
  unfold point_le, Curves.pair_ltb. cbn [fst snd veqb vltb vleb].
  unfold Reqb, Rltb, Rleb.
  destruct (Req_dec_T x' x), (Rlt_dec y' y), (Rlt_dec x' x), (Rle_dec x x');
    try reflexivity; try discriminate; intros; lra.
Qed.

Lemma insert_pair_sorted (p : Binning.point) (l : list Binning.point) :
  finite_point p -> (forall q, In q l -> finite_point q) ->
  StronglySorted point_le l ->
  StronglySorted point_le (Curves.insert_pair p l).
Proof.
  intros Hp Hl Hs. induction Hs as [| a l Hs IH Hf];
    cbn [Curves.insert_pair].
  - repeat constructor.
  - assert (Ha : finite_point a) by (apply Hl; now left).
    assert (Hl' : forall q, In q l -> finite_point q)
      by (intros q Hq; apply Hl; now right).
    rewrite Forall_forall in Hf.
    destruct (Curves.pair_ltb p a) eqn:E.
    + constructor; [now constructor; [| apply Forall_forall] |].
      apply Forall_forall. intros q [<- | Hq].
      * now apply point_le_total.
      * apply point_le_trans with a; auto.
        now apply point_le_total.
    + constructor; [now apply IH |].
      apply Forall_forall. intros q Hq. apply insert_pair_In in Hq.
      destruct Hq as [-> | Hq]; [exact E | now apply Hf].
Qed.

Lemma sorted_fold_sorted (l acc : list Binning.point) :
  (forall q, In q l -> finite_point q) ->
  (forall q, In q acc -> finite_point q) ->
  StronglySorted point_le acc ->
  StronglySorted point_le
    (fold_left (fun acc p => Curves.insert_pair p acc) l acc).
Proof.
  revert acc. induction l as [| p l IH]; intros acc Hl Hacc Hs;
    cbn [fold_left]; [exact Hs |].
  apply IH.
  - intros q Hq. apply Hl. now right.
  - intros q Hq. apply insert_pair_In in Hq.
    destruct Hq as [-> | Hq]; [apply Hl; now left | now apply Hacc].
  - apply insert_pair_sorted; [apply Hl; now left | assumption | assumption].
Qed.

Lemma sorted_sorted (l : list Binning.point) :
  (forall q, In q l -> finite_point q) ->
  StronglySorted point_le (Curves.sorted l).
Proof.
  intros Hl. apply sorted_fold_sorted; [assumption | contradiction |].
  constructor.
Qed.

Lemma sorted_fst_ascending (l : list Binning.point) :
  (forall q, In q l -> finite_point q) ->
  StronglySorted point_le l -> ascending (map fst l).
Proof.
  intros Hl Hs. unfold ascending.
  induction Hs as [| a l Hs IH Hf]; cbn [map]; constructor.
  - apply IH. intros q Hq. apply Hl. now right.
  - rewrite Forall_forall in Hf. apply Forall_forall. intros v Hv.
    apply in_map_iff in Hv. destruct Hv as (q & <- & Hq).
    apply point_le_fst; [apply Hl; now left | apply Hl; now right |].
    now apply Hf.
Qed.

Lemma combine_map_In {A B : Type} (g : A -> B) (l : list A) (p : A * B) :
  In p (combine l (map g l)) -> In (fst p) l /\ snd p = g (fst p).
Proof.
  induction l as [| a l IH]; cbn [map combine In]; [contradiction |].
  intros [<- | H]; cbn [fst snd]; [auto |].
  destruct (IH H) as [H1 H2]. auto.
Qed.

Lemma unzip_pairs (pairs : list Binning.point) :
  pairs <> [] -> Curves.unzip pairs = Ok (map fst pairs, map snd pairs).
Proof. destruct pairs; [congruence | reflexivity]. Qed.

Section Generated_points.

Variable uniform : nat -> val.
Variable normal : nat -> val -> val -> result val.

(** The points are generated when there is nothing to generate. *)
Lemma generate_points_none npoints xrange mean std_fun logspace noise :
  (npoints <= 0)%Z ->
  Curves.generate_points uniform normal npoints xrange mean std_fun logspace
                         noise
  = Raise ValueError.
Proof.
  intros Hn. unfold Curves.generate_points.
  assert (E : Curves.uniform_points uniform xrange npoints logspace = []).
  { apply length_zero_iff_nil. rewrite uniform_points_length. lia. }
  rewrite E. destruct noise; reflexivity.
Qed.

Lemma generate_points_noiseless npoints (xmin xmax : R) mean std_fun logspace :
  (1 <= npoints)%Z -> unit_draws uniform ->
  (logspace = true -> 0 < xmin) -> xmin <= xmax ->
  (forall x : R, finite (std_fun (Fin x))) ->
  exists xs sqerrs,
    Curves.generate_points uniform normal npoints (Fin xmin, Fin xmax) mean
                           std_fun logspace false
    = Ok (xs, sqerrs)
    /\ length xs = Z.to_nat npoints
    /\ length sqerrs = Z.to_nat npoints
    /\ ascending xs
    /\ (forall v, In v xs -> within xmin xmax v)
    /\ (forall i x s,
          nth_error xs i = Some x -> nth_error sqerrs i = Some s ->
          s = vpow (std_fun x) (Fin 2)).
Proof.
  intros Hn Hu Hlog Hle Hstd. unfold Curves.generate_points. cbn [bind].
  set (xs0 := Curves.uniform_points uniform (Fin xmin, Fin xmax) npoints
                                    logspace).
  set (g := fun x => vpow (std_fun x) (Fin 2)).
  set (pairs := combine xs0 (map g xs0)).
  assert (Lx : length xs0 = Z.to_nat npoints) by apply uniform_points_length.
  assert (Wx : forall v, In v xs0 -> within xmin xmax v)
    by (now apply uniform_points_within).
  assert (Lp : length pairs = Z.to_nat npoints).
  { unfold pairs, Binning.point. rewrite length_combine, length_map, Lx.
    apply Nat.min_id. }
  assert (Fp : forall q, In q pairs -> finite_point q).
  { intros q Hq. apply combine_map_In in Hq. destruct Hq as [H1 H2].
    destruct (Wx _ H1) as (r & Er & _). split; [now exists r |].
    rewrite H2, Er. unfold g. destruct (Hstd r) as [s ->].
    rewrite vpow_square. now eexists. }
  assert (Ls : length (Curves.sorted pairs) = Z.to_nat npoints)
    by (now rewrite sorted_length).
  assert (Hne : Curves.sorted pairs <> [])
    by (intros E; rewrite E in Ls; cbn [length] in Ls; lia).
  rewrite unzip_pairs by exact Hne.
  eexists _, _. split; [reflexivity |].
  split; [now rewrite length_map |]. split; [now rewrite length_map |].
  split.
  { apply sorted_fst_ascending; [| now apply sorted_sorted].
    intros q Hq. apply Fp. now apply sorted_In. }
  split.
  { intros v Hv. apply in_map_iff in Hv. destruct Hv as (q & <- & Hq).
    apply sorted_In, combine_map_In in Hq. now apply Wx. }
  intros i x s Hx Hs.
  destruct (nth_error (Curves.sorted pairs) i) as [q |] eqn:E.
  - rewrite (map_nth_error fst _ _ E) in Hx.
    rewrite (map_nth_error snd _ _ E) in Hs.
    injection Hx as <-. injection Hs as <-.
    apply nth_error_In, sorted_In, combine_map_In in E. apply E.
  - apply nth_error_None in E.
    assert (N : nth_error (map fst (Curves.sorted pairs)) i = None)
      by (apply nth_error_None; now rewrite length_map).
    congruence.
Qed.

End Generated_points.

(** X16: without noise and fed with draws from [[0, 1)],
    [generate_points] returns [npoints] points sorted by ascending [x], all
    inside [xrange], and each squared error is still the one of its own
    [x]: [std_fun(x) ** 2]. *)
Theorem generated_points_are_sorted :
  forall (uniform : nat -> val) normal (npoints : Z) (xmin xmax : R) mean
         std_fun (logspace : bool),
    (1 <= npoints)%Z -> unit_draws uniform ->
    (logspace = true -> 0 < xmin) -> xmin <= xmax ->
    (forall x : R, finite (std_fun (Fin x))) ->
    exists xs sqerrs,
      Curves.generate_points uniform normal npoints (Fin xmin, Fin xmax) mean
                             std_fun logspace false
      = Ok (xs, sqerrs)
      /\ length xs = Z.to_nat npoints
      /\ length sqerrs = Z.to_nat npoints
      /\ ascending xs
      /\ (forall v, In v xs -> within xmin xmax v)
      /\ (forall i x s,
            nth_error xs i = Some x -> nth_error sqerrs i = Some s ->
            s = vpow (std_fun x) (Fin 2)).
Proof.
  intros uniform normal npoints xmin xmax mean std_fun logspace.
  apply generate_points_noiseless.
Qed.

Lemma generated_points_are_sorted_witness :
  exists xs sqerrs,
    Curves.generate_points (fun _ => Fin (1 / 2)) (fun _ _ _ => Ok NaN) 3
      (Fin 1, Fin 100) (Fin 0) (fun x => vmul (Fin 2) x) true
      false
    = Ok (xs, sqerrs)
    /\ length xs = Z.to_nat 3
    /\ length sqerrs = Z.to_nat 3
    /\ ascending xs
    /\ (forall v, In v xs -> within 1 100 v)
    /\ (forall i x s,
          nth_error xs i = Some x -> nth_error sqerrs i = Some s ->
          s = vpow ((fun x => vmul (Fin 2) x) x) (Fin 2)).
Proof.
  assert (D : exists u : R, Fin (1 / 2) = Fin u /\ 0 <= u < 1)
    by (exists (1 / 2); split; [reflexivity | lra]).
  apply (generated_points_are_sorted
           (fun _ => Fin (1 / 2)) (fun _ _ _ => Ok NaN) 3 1 100 (Fin 0)
           (fun x => vmul (Fin 2) x) true).
  - lia.
  - intros i. exact D.
  - intros _. lra.
  - lra.
  - intros x. cbn [vmul]. now eexists.
Defined.

(** X17: asked for no point (or a negative number of them),
    [generate_points] does not return empty lists: unpacking the sorted
    pairs raises [ValueError], with or without noise. *)
Theorem generated_points_need_a_point :
  forall (uniform : nat -> val) normal (npoints : Z) xrange mean std_fun
         (logspace noise : bool),
    (npoints <= 0)%Z ->
    Curves.generate_points uniform normal npoints xrange mean std_fun logspace
                           noise
    = Raise ValueError.
Proof.
  intros uniform normal npoints xrange mean std_fun logspace noise.
  apply generate_points_none.
Qed.

Lemma generated_points_need_a_point_witness :
  Curves.generate_points (fun _ => Fin (1 / 2)) (fun _ _ _ => Ok NaN) 0
    (Fin 1, Fin 100) (Fin 0) (fun x => x) true true
  = Raise ValueError.
Proof.
  apply (generated_points_need_a_point
           (fun _ => Fin (1 / 2)) (fun _ _ _ => Ok NaN) 0 (Fin 1, Fin 100)
           (Fin 0) (fun x => x) true true).
  lia.
Defined.

(** ** The query-count conversions at their limits *)


Lemma no_overflow_below (N n : Z) :
  (1 <= n)%Z -> (Z.abs N < float_overflow_bound * n)%Z ->
  (float_overflow_bound * Z.abs n <=? Z.abs N)%Z = false.
Proof. intros Hn HN. apply Z.leb_gt. rewrite (Z.abs_eq n) by lia. lia. Qed.

Lemma float_overflow_bound_pos : (1 < float_overflow_bound)%Z.
Proof. apply Z.ltb_lt. vm_compute. reflexivity. Qed.

Lemma m_from_Nq_quotient (N n : Z) :
  (1 <= n)%Z -> (Z.abs N < float_overflow_bound * n)%Z ->
  QAEemulator.m_from_Nq (PInt N) n
  = py_round (vsub (vlog2 (vsub (Fin (IZR N / IZR n)) (Fin 1))) (Fin 1)).
Proof.
  intros Hn HN. unfold QAEemulator.m_from_Nq, py_truediv.
  replace (n =? 0)%Z with false by (symmetry; apply Z.eqb_neq; lia).
  now rewrite no_overflow_below.
Qed.










Section Search_range_facts.

Variable k_largest_tuples : list (Z * val) -> nat -> nat -> list (Z * val).


End Search_range_facts.



(** ** The driver of the emulator's runs *)

Lemma range_by_2_head (mmin mmax : Z) :
  (mmin <= mmax)%Z ->
  exists rest, TestingQAE.range_by_2 mmin (mmax + 1) = mmin :: rest.
Proof.
  intros H. unfold TestingQAE.range_by_2.
  assert (C : (1 <= (mmax + 1 - mmin + 1) / 2)%Z)
    by (apply Z.div_le_lower_bound; lia).
  destruct (Z.to_nat ((mmax + 1 - mmin + 1) / 2)) as [| c] eqn:E; [lia |].
  cbn [seq map]. eexists. f_equal. change (Z.of_nat 0) with 0%Z. lia.
Qed.

Lemma range_by_2_single (mmin : Z) :
  TestingQAE.range_by_2 mmin (mmin + 1) = [mmin].
Proof.
  unfold TestingQAE.range_by_2.
  replace ((mmin + 1 - mmin + 1) / 2)%Z with 1%Z
    by (replace (mmin + 1 - mmin + 1)%Z with 2%Z by lia; reflexivity).
  change (Z.to_nat 1) with 1%nat. cbn [seq map]. f_equal.
  change (Z.of_nat 0) with 0%Z. lia.
Qed.

Section Driver_facts.

Variable expb10 : pynum -> result pynum.
Variable sqes_given_m : Z -> Z -> bool -> result (list val).

Let run := TestingQAE.sqe_evolution_multiple expb10 sqes_given_m.

Lemma driver_negative_mmin self mmin Nq_target nruns MLE save interrupt_at :
  (mmin < 0)%Z ->
  run self mmin Nq_target nruns MLE save interrupt_at
  = ([], Raise AssertionError).
Proof.
  intros H. unfold run, TestingQAE.sqe_evolution_multiple.
  apply Z.ltb_lt in H. now rewrite H.
Qed.

(** The call stores nothing when the loop ends with [mmax = mmin]. *)
Lemma driver_single_step self mmin mmax Nq_target nruns MLE save interrupt_at :
  (0 <= mmin <= mmax)%Z ->
  QAEemulator.m_from_Nq Nq_target (TestingQAE.nshots self) = Ok mmax ->
  mmax = mmin \/ interrupt_at = Some mmin ->
  fst (run self mmin Nq_target nruns MLE save interrupt_at) = [].
Proof.
  intros Hm Hq Hcase. unfold run, TestingQAE.sqe_evolution_multiple.
  replace (mmin <? 0)%Z with false by (symmetry; apply Z.ltb_ge; lia).
  rewrite Hq. cbn [bind].
  destruct (if negb (TestingQAE.silent self)
            then TestingQAE.print_info expb10 self mmin mmax Nq_target
            else Ok tt) as [u | e]; cbn [bind]; [| reflexivity].
  destruct (map_result _ (TestingQAE.range_by_2 mmin (mmax + 1)))
    as [nqs | e]; cbn [bind]; [| reflexivity].
  destruct (range_by_2_head mmin mmax ltac:(lia)) as [rest Er].
  assert (S : forall r,
             TestingQAE.steps sqes_given_m nruns MLE interrupt_at
               (TestingQAE.range_by_2 mmin (mmax + 1)) mmax [] None = r ->
             match r with
             | Ok (m', _, _) => m' = mmin
             | Raise _ => True
             end).
  { intros r <-. destruct Hcase as [-> | ->].
    - rewrite range_by_2_single. cbn [TestingQAE.steps].
      destruct (match interrupt_at with
                | Some k => (k =? mmin)%Z
                | None => false
                end); [reflexivity |].
      destruct (sqes_given_m mmin nruns MLE); cbn [bind]; [reflexivity | exact I].
    - rewrite Er. cbn [TestingQAE.steps]. now rewrite Z.eqb_refl. }
  specialize (S _ eq_refl).
  destruct (TestingQAE.steps _ _ _ _ _ _ _ _) as [[[m' errs] sq] | e];
    cbn [bind]; [| reflexivity].
  subst m'. now rewrite Z.eqb_refl.
Qed.

Lemma steps_interrupted (nruns : Z) (MLE : bool) (k : Z) (ms : list Z) :
  (forall m, exists s, sqes_given_m m nruns MLE = Ok s) ->
  In k ms ->
  forall mmax acc sq,
  exists errs sq',
    TestingQAE.steps sqes_given_m nruns MLE (Some k) ms mmax acc sq
    = Ok (k, errs, sq')
    /\ (length errs < length acc + length ms)%nat.
Proof.
  intros Hs. induction ms as [| m ms IH]; intros Hin mmax acc sq;
    [contradiction |].
  cbn [TestingQAE.steps]. destruct (Z.eqb_spec k m) as [-> | Hne].
  - exists acc, sq. split; [reflexivity | cbn [length]; lia].
  - destruct Hin as [E | Hin]; [congruence |].
    destruct (Hs m) as [s ->]. cbn [bind].
    destruct (IH Hin mmax (acc ++ [s]) (Some s)) as (errs & sq' & -> & L).
    exists errs, sq'. split; [reflexivity |].
    rewrite length_app in L. cbn [length] in *. lia.
Qed.

Lemma driver_interrupted self mmin mmax Nq_target nruns MLE save (k : Z) :
  (0 <= mmin)%Z -> TestingQAE.silent self = true ->
  QAEemulator.m_from_Nq Nq_target (TestingQAE.nshots self) = Ok mmax ->
  (forall m, exists s, sqes_given_m m nruns MLE = Ok s) ->
  In k (TestingQAE.range_by_2 mmin (mmax + 1)) -> k <> mmin ->
  exists nqs errs rest,
    fst (run self mmin Nq_target nruns MLE save (Some k))
    = TestingQAE.AddData nqs errs :: rest
    /\ length nqs = length (TestingQAE.range_by_2 mmin (mmax + 1))
    /\ (length errs < length nqs)%nat.
Proof.
  intros Hmin Hsil Hq Hs Hin Hk. unfold run, TestingQAE.sqe_evolution_multiple.
  replace (mmin <? 0)%Z with false by (symmetry; apply Z.ltb_ge; lia).
  rewrite Hq, Hsil. cbn [bind negb].
  set (ms := TestingQAE.range_by_2 mmin (mmax + 1)) in *.
  destruct (map_result_ok
              (fun m => QAEemulator.Nq_from_m expb10 m (TestingQAE.nshots self)
                                              false) ms) as [nqs En].
  { intros m Hm. unfold ms, TestingQAE.range_by_2 in Hm.
    apply in_map_iff in Hm. destruct Hm as (i & <- & _).
    rewrite Nq_from_m_int by lia. eauto. }
  rewrite En. cbn [bind].
  destruct (steps_interrupted nruns MLE k ms Hs Hin mmax [] None)
    as (errs & sq' & -> & L).
  cbn [bind]. apply Z.eqb_neq in Hk. rewrite Hk.
  apply map_result_length in En.
  exists nqs, errs.
  destruct sq' as [sqes |];
    [destruct (forallb (fun e => veqb e (Fin 0)) sqes) |];
    cbn [fst app]; eexists; (split; [reflexivity |]); cbn [length] in L;
    split; (assumption || lia).
Qed.

End Driver_facts.

(** X24: [TestQAE.sqe_evolution_multiple] refuses a negative [mmin]
    with [AssertionError] before anything runs; and when the loop ends
    with [mmax == mmin], because the target is reached with [mmin] qubits
    or because the user's interrupt comes while [mmin] is tested, it
    ends without storing, saving or plotting anything, even if the runs
    for [mmin] were completed. *)
Theorem driver_with_one_step_stores_nothing :
  forall expb10 sqes_given_m (self : TestingQAE.TestQAE) (mmin : Z)
         (Nq_target : pynum) (nruns : Z) (MLE save : bool)
         (interrupt_at : option Z),
    ((mmin < 0)%Z ->
     TestingQAE.sqe_evolution_multiple expb10 sqes_given_m self mmin Nq_target
       nruns MLE save interrupt_at
     = ([], Raise AssertionError))
    /\ (forall mmax : Z,
          (0 <= mmin <= mmax)%Z ->
          QAEemulator.m_from_Nq Nq_target (TestingQAE.nshots self) = Ok mmax ->
          mmax = mmin \/ interrupt_at = Some mmin ->
          fst (TestingQAE.sqe_evolution_multiple expb10 sqes_given_m self mmin
                 Nq_target nruns MLE save interrupt_at)
          = []).
Proof.
  intros expb10 sqes_given_m self mmin Nq_target nruns MLE save interrupt_at.
  split.
  - apply driver_negative_mmin.
  - intros mmax. apply driver_single_step.
Qed.

Lemma driver_with_one_step_stores_nothing_witness :
  fst (TestingQAE.sqe_evolution_multiple
         (fun n => Ok n) (fun _ _ _ => Ok [Fin 1])
         (TestingQAE.mkTestQAE 5 true) 3 (PInt ((2 * 2 ^ 3 + 1) * 5)) 10 true
         true None)
  = [].
Proof.
  apply (proj2 (driver_with_one_step_stores_nothing
                  (fun n => Ok n) (fun _ _ _ => Ok [Fin 1])
                  (TestingQAE.mkTestQAE 5 true) 3 (PInt ((2 * 2 ^ 3 + 1) * 5))
                  10 true true None) 3%Z).
  - lia.
  - apply (m_from_Nq_exact 3 5); lia.
  - left. reflexivity.
Defined.

(** X25: the query counts are computed for every planned [m] before the
    first run.  When the user's interrupt comes at a later [m] than the
    first, the data handed to [add_data] pairs all of them with the errors
    of the completed steps only: there are more query counts than error
    lists. *)
Theorem interrupted_driver_stores_all_planned_counts :
  forall expb10 sqes_given_m (self : TestingQAE.TestQAE) (mmin mmax : Z)
         (Nq_target : pynum) (nruns : Z) (MLE save : bool) (k : Z),
    (0 <= mmin)%Z -> TestingQAE.silent self = true ->
    QAEemulator.m_from_Nq Nq_target (TestingQAE.nshots self) = Ok mmax ->
    (forall m, exists s, sqes_given_m m nruns MLE = Ok s) ->
    In k (TestingQAE.range_by_2 mmin (mmax + 1)) -> k <> mmin ->
    exists nqs errs rest,
      fst (TestingQAE.sqe_evolution_multiple expb10 sqes_given_m self mmin
             Nq_target nruns MLE save (Some k))
      = TestingQAE.AddData nqs errs :: rest
      /\ length nqs = length (TestingQAE.range_by_2 mmin (mmax + 1))
      /\ (length errs < length nqs)%nat.
Proof.
  intros expb10 sqes_given_m self mmin mmax Nq_target nruns MLE save k.
  apply driver_interrupted.
Qed.

Lemma interrupted_driver_stores_all_planned_counts_witness :
  exists nqs errs rest,
    fst (TestingQAE.sqe_evolution_multiple
           (fun n => Ok n) (fun _ _ _ => Ok [Fin 1])
           (TestingQAE.mkTestQAE 5 true) 1 (PInt ((2 * 2 ^ 5 + 1) * 5)) 10
           true true (Some 3%Z))
    = TestingQAE.AddData nqs errs :: rest
    /\ length nqs = length (TestingQAE.range_by_2 1 (5 + 1))
    /\ (length errs < length nqs)%nat.
Proof.
  apply (interrupted_driver_stores_all_planned_counts
           (fun n => Ok n) (fun _ _ _ => Ok [Fin 1])
           (TestingQAE.mkTestQAE 5 true) 1 5 (PInt ((2 * 2 ^ 5 + 1) * 5)) 10
           true true 3).
  - lia.
  - reflexivity.
  - apply (m_from_Nq_exact 5 5); lia.
  - intros m. eauto.
  - vm_compute. auto.
  - lia.
Defined.

(** ** The linear scale *)

Lemma lin_edge_increasing (lo hi : R) (m : nat) :
  lo < hi -> (1 <= m)%nat ->
  forall i j : nat, (i < j)%nat -> lin_edge lo hi m i < lin_edge lo hi m j.
Proof.
  intros Hlt Hm i j Hij. unfold lin_edge.
  assert (HM : 0 < INR m) by (apply lt_0_INR; lia).
  assert (Hst : 0 < (hi - lo) / INR m) by (apply Rdiv_lt_0_compat; lra).
  apply lt_INR in Hij. nra.
Qed.

Lemma lin_edge_first (lo hi : R) (m : nat) : lin_edge lo hi m 0 = lo.
Proof. unfold lin_edge. cbn [INR]. ring. Qed.

Lemma lin_edge_last (lo hi : R) (m : nat) :
  (1 <= m)%nat -> lin_edge lo hi m m = hi.
Proof.
  intros Hm. unfold lin_edge.
  assert (HM : 0 < INR m) by (apply lt_0_INR; lia).
  field. lra.
Qed.

Lemma linspace_lin_edges (lo hi : R) (num : Z) :
  lo < hi -> (2 <= num)%Z ->
  linspace (Fin lo) (Fin hi) num
  = Ok (map (fun i => Fin (lin_edge lo hi (Z.to_nat num - 1) i))
            (seq 0 (S (Z.to_nat num - 1)))).
Proof.
  intros Hlt Hnum.
  remember (Z.to_nat num - 1)%nat as m eqn:Em.
  assert (Hm : (1 <= m)%nat) by lia.
  assert (En : Z.to_nat num = S m) by lia.
  assert (HM : 0 < INR m) by (apply lt_0_INR; lia).
  assert (Ediv : IZR (num - 1) = INR m).
  { rewrite INR_IZR_INZ. f_equal. lia. }
  unfold linspace.
  replace (num <? 0)%Z with false by (symmetry; apply Z.ltb_ge; lia).
  replace (0 <? num - 1)%Z with true by (symmetry; apply Z.ltb_lt; lia).
  replace (1 <? num)%Z with true by (symmetry; apply Z.ltb_lt; lia).
  rewrite vsub_fin, Ediv, vdiv_fin by lra.
  assert (Hst : 0 < (hi - lo) / INR m) by (apply Rdiv_lt_0_compat; lra).
  cbn [veqb]. rewrite Reqb_false by lra.
  rewrite En, !map_map. cbn [vmul vadd].
  unfold set_last. rewrite removelast_map_seq.
  rewrite seq_S, map_app. cbn [map Nat.add]. f_equal. f_equal.
  - apply map_ext. intros i. unfold lin_edge. f_equal. ring.
  - now rewrite lin_edge_last.
Qed.

Lemma cut_lin_edges (x : list val) (lo hi : R) (m : nat) :
  lo < hi -> (1 <= m)%nat ->
  let bins := map (fun i => Fin (lin_edge lo hi m i)) (seq 0 (S m)) in
  cut x bins = Ok (mkCat m (map (cut_code bins (Fin lo)) x)).
Proof.
  intros H Hm bins. unfold cut.
  pose proof (lin_edge_increasing lo hi m H Hm) as Inc.
  unfold bins at 1 2.
  rewrite (edges_monotonic _ Inc), (edges_unique _ Inc).
  cbn [negb andb]. unfold bins. cbn [seq map].
  rewrite lin_edge_first.
  cbn [length]. rewrite length_map, length_seq.
  replace (S m - 1)%nat with m by lia. reflexivity.
Qed.

Lemma cut_code_lin_lowest (lo hi : R) (m : nat) :
  (1 <= m)%nat ->
  cut_code (map (fun i => Fin (lin_edge lo hi m i)) (seq 0 (S m))) (Fin lo)
           (Fin lo)
  = Some 0%nat.
Proof.
  intros Hm. unfold cut_code. cbn [veqb isnan orb].
  rewrite Reqb_true by reflexivity.
  rewrite length_map, length_seq.
  destruct m as [| m]; [lia | reflexivity].
Qed.

Lemma cut_code_lin_highest (lo hi : R) (m : nat) :
  lo < hi -> (1 <= m)%nat ->
  cut_code (map (fun i => Fin (lin_edge lo hi m i)) (seq 0 (S m))) (Fin lo)
           (Fin hi)
  = Some (m - 1)%nat.
Proof.
  intros H Hm. unfold cut_code. cbn [veqb isnan orb].
  rewrite Reqb_false by lra.
  pose proof (lin_edge_increasing lo hi m H Hm) as Inc.
  pose proof (edges_below _ Inc 0 (S m) m) as B.
  cbn beta in B. rewrite lin_edge_last in B by lia.
  rewrite B by lia.
  rewrite length_map, length_seq, Nat.sub_0_r.
  replace (m =? S m)%nat with false by (symmetry; apply Nat.eqb_neq; lia).
  replace (m =? 0)%nat with false by (symmetry; apply Nat.eqb_neq; lia).
  reflexivity.
Qed.

(** ** What the curve does not depend on *)

(** X27: the returned curve depends neither on the record [STRAT_USED]
    nor on [silent]: two calls with the same data give the same result
    (or the same failure) whatever the earlier calls were. *)
Theorem curve_is_independent_of_the_record :
  forall curve_fit LSQUnivariateSpline used used' xs ys fixed_point nbins
         ypower add_after full_output strategy logdomain silent silent',
    map fst used = Binning.strats -> map fst used' = Binning.strats ->
    snd (Binning.bin_and_average curve_fit LSQUnivariateSpline used xs ys
           fixed_point nbins ypower add_after full_output strategy logdomain
           silent)
    = snd (Binning.bin_and_average curve_fit LSQUnivariateSpline used' xs ys
             fixed_point nbins ypower add_after full_output strategy
             logdomain silent').
Proof.
  intros cf sp used used' xs ys fixed_point nbins ypower add_after
         full_output strategy logdomain silent silent' Hk Hk'.
  unfold Binning.bin_and_average.
  destruct (Binning.prepare xs ys fixed_point strategy) as [[xrange df] | e];
    [| reflexivity].
  destruct (in_dec string_dec strategy Binning.strats) as [Hin | Hout].
  - destruct (dict_get_present used strategy) as [seen ->];
      [now rewrite Hk |].
    destruct (dict_get_present used' strategy) as [seen' ->];
      [now rewrite Hk' |].
    reflexivity.
  - rewrite !dict_get_missing by (rewrite ?Hk, ?Hk'; assumption).
    reflexivity.
Qed.

Lemma curve_is_independent_of_the_record_witness :
  snd (Binning.bin_and_average Binning.failing_curve_fit
         Binning.failing_spline Binning.STRAT_USED [Fin 1; Fin 100]
         [Fin 1; Fin 1] None 2 Binning.half None false "y_mean" false true)
  = snd (Binning.bin_and_average Binning.failing_curve_fit
           Binning.failing_spline
           (Binning.dict_set Binning.STRAT_USED "y_mean" true)
           [Fin 1; Fin 100] [Fin 1; Fin 1] None 2 Binning.half None false
           "y_mean" false false).
Proof.
  apply (curve_is_independent_of_the_record
           Binning.failing_curve_fit Binning.failing_spline
           Binning.STRAT_USED
           (Binning.dict_set Binning.STRAT_USED "y_mean" true)
           [Fin 1; Fin 100] [Fin 1; Fin 1] None 2 Binning.half None false
           "y_mean" false true false); reflexivity.
Defined.

Section Ypower.

Variable curve_fit :
  (val -> val -> result val) -> list val -> list val -> result val.
Variable LSQUnivariateSpline :
  list val -> list val -> list val -> result (val -> val).

Lemma curve_ignores_ypower df xrange ys fixed_point nbins ypower ypower'
  strategy :
  square_root_strategy strategy ->
  Binning.curve curve_fit LSQUnivariateSpline df xrange ys fixed_point nbins
                ypower strategy
  = Binning.curve curve_fit LSQUnivariateSpline df xrange ys fixed_point nbins
                  ypower' strategy.
Proof.
  intros [[-> | ->] | [-> | ->]]; reflexivity.
Qed.

End Ypower.

(** X28: the exponent [ypower] is read by the mean and median
    strategies only: under [slope_mean], [slope_median], [fit] and
    [spline] the curve is a square root whatever [ypower] is, and two
    calls that differ in [ypower] alone give the same state and the same
    result. *)
Theorem ypower_is_ignored_outside_y_strategies :
  forall curve_fit LSQUnivariateSpline used xs ys fixed_point nbins
         ypower ypower' add_after full_output strategy logdomain silent,
    square_root_strategy strategy ->
    Binning.bin_and_average curve_fit LSQUnivariateSpline used xs ys
      fixed_point nbins ypower add_after full_output strategy logdomain silent
    = Binning.bin_and_average curve_fit LSQUnivariateSpline used xs ys
        fixed_point nbins ypower' add_after full_output strategy logdomain
        silent.
Proof.
  intros cf sp used xs ys fixed_point nbins ypower ypower' add_after
         full_output strategy logdomain silent Hs.
  unfold Binning.bin_and_average, Binning.bin_and_aggregate.
  destruct (Binning.prepare xs ys fixed_point strategy) as [[xrange df] | e];
    [| reflexivity].
  destruct (Binning.dict_get used strategy) as [seen | e]; [| reflexivity].
  f_equal.
  destruct (Binning.bin_by_values df xrange (nbins + 1) "log")
    as [[[df' binned_indices] bins] | e]; [| reflexivity].
  cbn [bind].
  destruct (Binning.group_points xs ys binned_indices) as [gp | e];
    [| reflexivity].
  cbn [bind].
  destruct (Binning.aggregate_frame df' strategy logdomain) as [agg | e];
    [| reflexivity].
  cbn [bind].
  now rewrite (curve_ignores_ypower cf sp agg xrange ys fixed_point nbins
                 ypower ypower' strategy Hs).
Qed.

Lemma ypower_is_ignored_outside_y_strategies_witness :
  Binning.bin_and_average Binning.failing_curve_fit Binning.failing_spline
    Binning.STRAT_USED [Fin 1; Fin 100] [Fin 1; Fin (1 / 4)]
    (Some (Fin 100, Fin (1 / 2))) 1 (Fin 1) None false "slope_mean" false true
  = Binning.bin_and_average Binning.failing_curve_fit Binning.failing_spline
      Binning.STRAT_USED [Fin 1; Fin 100] [Fin 1; Fin (1 / 4)]
      (Some (Fin 100, Fin (1 / 2))) 1 (Fin 2) None false "slope_mean" false
      true.
Proof.
  apply (ypower_is_ignored_outside_y_strategies
           Binning.failing_curve_fit Binning.failing_spline
           Binning.STRAT_USED [Fin 1; Fin 100] [Fin 1; Fin (1 / 4)]
           (Some (Fin 100, Fin (1 / 2))) 1 (Fin 1) (Fin 2) None false
           "slope_mean" false true).
  left. left. reflexivity.
Defined.


Lemma map_vlog_fin (rs : list R) :
  (forall r, In r rs -> 0 < r) -> map vlog (map Fin rs) = map Fin (map ln rs).
Proof.
  intros H. rewrite !map_map. apply map_ext_in. intros r Hr.
  apply vlog_fin. now apply H.
Qed.


(** * The binner in double precision *)

(** ** The exact functions as an instance *)

Lemma rnd_exact (v : val) : Doubles.rnd (fun r => r) v = v.
Proof. now destruct v. Qed.

Lemma linspace_exact (start stop : val) (num : Z) :
  Doubles.linspace (fun r => r) start stop num = linspace start stop num.
Proof.
  unfold Doubles.linspace, linspace, Doubles.radd, Doubles.rsub, Doubles.rmul,
    Doubles.rdiv.
  destruct (num <? 0)%Z; [reflexivity |].
  rewrite !rnd_exact.
  assert (E : forall f g : val -> val,
             (forall v, f v = g v) -> forall l, map f l = map g l).
  { intros f g H l. apply map_ext. exact H. }
  f_equal.
  destruct (1 <? num)%Z; [f_equal |];
    (rewrite (E _ (fun v => vadd v start)) by (intros; apply rnd_exact);
     f_equal;
     destruct (0 <? num - 1)%Z;
     [ destruct (veqb _ (Fin 0)); apply E; intros;
       now rewrite ?rnd_exact
     | apply E; intros; now rewrite ?rnd_exact ]).
Qed.

Lemma logspace_exact (start stop : val) (num : Z) (base : val) :
  Doubles.logspace vpow (fun r => r) start stop num base
  = logspace start stop num base.
Proof. unfold Doubles.logspace, logspace. now rewrite linspace_exact. Qed.

Lemma bin_by_values_exact df xrange nbins scale :
  Doubles.bin_by_values vlog vpow (fun r => r) df xrange nbins scale
  = Binning.bin_by_values df xrange nbins scale.
Proof.
  unfold Doubles.bin_by_values, Binning.bin_by_values.
  now rewrite logspace_exact, linspace_exact.
Qed.

Lemma shrunk_logspace_exact xrange nbins :
  Doubles.shrunk_logspace vpow (fun r => r) xrange nbins
  = Binning.shrunk_logspace xrange nbins.
Proof.
  unfold Doubles.shrunk_logspace, Binning.shrunk_logspace, Doubles.radd,
    Doubles.rsub, Doubles.rdiv.
  now rewrite !rnd_exact, logspace_exact.
Qed.

Section Exact.

Variable curve_fit :
  (val -> val -> result val) -> list val -> list val -> result val.
Variable LSQUnivariateSpline :
  list val -> list val -> list val -> result (val -> val).

Lemma curve_exact df xrange ys fixed_point nbins ypower strategy :
  Doubles.curve vlog vpow (fun r => r) curve_fit LSQUnivariateSpline df xrange
                ys fixed_point nbins ypower strategy
  = Binning.curve curve_fit LSQUnivariateSpline df xrange ys fixed_point nbins
                  ypower strategy.
Proof.
  unfold Doubles.curve, Binning.curve.
  now rewrite !shrunk_logspace_exact, logspace_exact.
Qed.

(** With the exact logarithm, exponential and power and no rounding, the
    aggregator in double precision is the aggregator of [Binning]. *)
Lemma bin_and_average_exact used xs ys fixed_point nbins ypower add_after
  full_output strategy logdomain silent :
  Doubles.bin_and_average vlog vexp vpow (fun r => r) curve_fit
    LSQUnivariateSpline used xs ys fixed_point nbins ypower add_after
    full_output strategy logdomain silent
  = Binning.bin_and_average curve_fit LSQUnivariateSpline used xs ys
      fixed_point nbins ypower add_after full_output strategy logdomain
      silent.
Proof.
  unfold Doubles.bin_and_average, Binning.bin_and_average,
    Doubles.bin_and_aggregate, Binning.bin_and_aggregate.
  destruct (Binning.prepare xs ys fixed_point strategy) as [[xrange df] | e];
    [| reflexivity].
  destruct (Binning.dict_get used strategy) as [seen | e]; [| reflexivity].
  f_equal. rewrite bin_by_values_exact.
  destruct (Binning.bin_by_values df xrange (nbins + 1) "log")
    as [[[df' bi] bins] | e]; cbn [bind]; [| reflexivity].
  destruct (Binning.group_points xs ys bi) as [g | e]; cbn [bind];
    [| reflexivity].
  change (Doubles.aggregate_frame vlog vexp df' strategy logdomain)
    with (Binning.aggregate_frame df' strategy logdomain).
  destruct (Binning.aggregate_frame df' strategy logdomain) as [agg | e];
    cbn [bind]; [| reflexivity].
  now rewrite curve_exact.
Qed.

End Exact.

(** ** The edges as they are computed *)

Section Computed_edges.

Variable np_log : val -> val.
Variable np_power : val -> val -> val.
Variable fl : R -> R.

Lemma doubles_linspace_length (start stop : val) (num : Z) (l : list val) :
  Doubles.linspace fl start stop num = Ok l -> length l = Z.to_nat num.
Proof.
  unfold Doubles.linspace. destruct (num <? 0)%Z; [discriminate |].
  intros H. injection H as <-.
  assert (L : forall f g : val -> val,
             length (map f (map g (map (fun i => Fin (INR i))
                                       (seq 0 (Z.to_nat num)))))
             = Z.to_nat num)
    by (intros; now rewrite !length_map, length_seq).
  destruct (Z.ltb_spec 1 num) as [H1 | H1].
  - rewrite set_last_length.
    + destruct (0 <? num - 1)%Z; [destruct (veqb _ _) |]; apply L.
    + intros E. apply (f_equal (@length val)) in E. cbn [length] in E.
      destruct (0 <? num - 1)%Z; [destruct (veqb _ _) |];
        rewrite L in E; lia.
  - destruct (0 <? num - 1)%Z; [destruct (veqb _ _) |]; apply L.
Qed.

(** With two points or more, the last point is [stop] itself. *)
Lemma doubles_linspace_last (start stop : val) (num : Z) (l : list val) :
  (2 <= num)%Z ->
  Doubles.linspace fl start stop num = Ok l -> last l NaN = stop.
Proof.
  intros Hn. unfold Doubles.linspace.
  replace (num <? 0)%Z with false by (symmetry; apply Z.ltb_ge; lia).
  replace (1 <? num)%Z with true by (symmetry; apply Z.ltb_lt; lia).
  intros H. injection H as <-. unfold set_last. apply last_last.
Qed.

Lemma doubles_logspace_inv (start stop : val) (num : Z) (base : val)
  (bins : list val) :
  Doubles.logspace np_power fl start stop num base = Ok bins ->
  exists y,
    Doubles.linspace fl start stop num = Ok y
    /\ bins = map (np_power base) y.
Proof.
  unfold Doubles.logspace.
  destruct (Doubles.linspace fl start stop num) as [y | e]; cbn [bind];
    [| discriminate].
  intros H. injection H as <-. now exists y.
Qed.

Lemma doubles_logspace_length (start stop : val) (num : Z) (base : val)
  (bins : list val) :
  Doubles.logspace np_power fl start stop num base = Ok bins ->
  length bins = Z.to_nat num.
Proof.
  intros H. apply doubles_logspace_inv in H. destruct H as (y & Hy & ->).
  rewrite length_map. eapply doubles_linspace_length; eassumption.
Qed.

(** The last edge is the power of the upper end's logarithm. *)
Lemma doubles_logspace_last (start stop : val) (num : Z) (base : val)
  (bins : list val) :
  (2 <= num)%Z ->
  Doubles.logspace np_power fl start stop num base = Ok bins ->
  last bins NaN = np_power base stop.
Proof.
  intros Hn H. apply doubles_logspace_inv in H. destruct H as (y & Hy & ->).
  pose proof (doubles_linspace_length _ _ _ _ Hy) as L.
  pose proof (doubles_linspace_last _ _ _ _ Hn Hy) as E.
  destruct (@exists_last _ y) as (l & a & ->).
  { intros ->. cbn [length] in L. lia. }
  rewrite last_last in E. subst a.
  rewrite map_app. cbn [map]. apply last_last.
Qed.

Lemma doubles_bin_by_values_log_inv df xrange n df' binned_indices bins :
  Doubles.bin_by_values np_log np_power fl df xrange n "log"
  = Ok (df', binned_indices, bins) ->
  Doubles.logspace np_power fl (np_log (fst xrange)) (np_log (snd xrange)) n
                   np_e = Ok bins
  /\ exists c,
       cut (col_x df) bins = Ok c
       /\ df' = mkDF (index df) (col_x df) (col_y df) (col_slope df) (Some c)
       /\ binned_indices
          = map (fun k => (k, select k (codes c) (index df))) (observed_keys c).
Proof.
  unfold Doubles.bin_by_values. cbn [String.eqb Ascii.eqb Bool.eqb].
  destruct (Doubles.logspace np_power fl (np_log (fst xrange))
              (np_log (snd xrange)) n np_e) as [b | e]; cbn [bind];
    [| discriminate].
  destruct (cut (col_x df) b) as [c | e] eqn:Ec; cbn [bind groups col_bin];
    [| discriminate].
  intros H. injection H as <- <- <-. split; [reflexivity |].
  exists c. repeat split; [exact Ec].
Qed.


End Computed_edges.

(** ** Samples outside the computed edges *)

Lemma monotonic_le_last (bins : list val) (top : R) (b : val) :
  is_monotonic_increasing bins = true -> last bins NaN = Fin top ->
  In b bins -> vleb b (Fin top) = true.
Proof.
  revert b. induction bins as [| a t IH]; intros b Hm Hl Hin;
    [contradiction |].
  cbn [is_monotonic_increasing] in Hm.
  apply andb_prop in Hm. destruct Hm as [Hm Ht].
  apply andb_prop in Hm. destruct Hm as [Ha Hab].
  destruct t as [| b' t'].
  - cbn [last] in Hl. subst a. destruct Hin as [<- | []].
    now apply vleb_refl.
  - assert (Hl' : last (b' :: t') NaN = Fin top) by exact Hl.
    destruct Hin as [<- | Hin]; [| now apply IH].
    eapply vleb_trans; [exact Hab |].
    apply IH; [assumption | assumption | now left].
Qed.

(** A value above the last edge has no bucket. *)
Lemma cut_code_above (b0 : val) (rest : list val) (top x : R) :
  is_monotonic_increasing (b0 :: rest) = true ->
  last (b0 :: rest) NaN = Fin top -> top < x ->
  cut_code (b0 :: rest) b0 (Fin x) = None.
Proof.
  intros Hm Hl Hx. unfold cut_code.
  assert (Hall : forall b, In b (b0 :: rest) -> vltb b (Fin x) = true).
  { intros b Hb. pose proof (monotonic_le_last _ _ _ Hm Hl Hb) as Hle.
    destruct b as [r | | |]; try discriminate; cbn in Hle |- *;
      [| reflexivity].
    apply Rleb_iff in Hle. apply Rltb_true. lra. }
  assert (Hs : searchsorted_left (b0 :: rest) (Fin x) = length (b0 :: rest)).
  { unfold searchsorted_left. f_equal. apply forallb_filter_id.
    apply forallb_forall. exact Hall. }
  rewrite Hs.
  assert (H0 : veqb (Fin x) b0 = false).
  { pose proof (monotonic_le_last _ _ b0 Hm Hl (or_introl eq_refl)) as Hle.
    destruct b0 as [r | | |]; try reflexivity. cbn in Hle |- *.
    apply Rleb_iff in Hle. apply Reqb_false. lra. }
  rewrite H0, Nat.eqb_refl. cbn [isnan orb]. reflexivity.
Qed.

(** C7: on the log scale the last edge is the double
    [np.power(np.e, np.log(xrange[1]))], not the upper end of the range
    itself.  Whenever that double falls below the upper end (numpy gives
    [1.9999999999999998] for the upper end [2]), a sample at the upper end
    is above every edge and gets no bucket, although the range was taken
    from the samples so that the end points are binned (line 33). *)
Theorem C7_upper_end_left_out :
  forall np_log np_power fl (df : DataFrame) (lo hi top : R) (nbins : Z)
         df' binned_indices bins,
    (2 <= nbins)%Z ->
    np_power np_e (np_log (Fin hi)) = Fin top -> top < hi ->
    Doubles.bin_by_values np_log np_power fl df (Fin lo, Fin hi) nbins "log"
    = Ok (df', binned_indices, bins) ->
    last bins NaN = Fin top
    /\ exists c,
         col_bin df' = Some c
         /\ ncat c = (Z.to_nat nbins - 1)%nat
         /\ (forall i, nth_error (col_x df) i = Some (Fin hi) ->
                       nth_error (codes c) i = Some None).
Proof.
  intros np_log np_power fl df lo hi top nbins df' bi bins Hn Htop Hlt Hb.
  apply doubles_bin_by_values_log_inv in Hb.
  destruct Hb as (Hedges & c & Hcut & -> & _). cbn [fst snd] in Hedges.
  pose proof (doubles_logspace_last _ _ _ _ _ _ _ Hn Hedges) as Hlast.
  rewrite Htop in Hlast.
  pose proof (doubles_logspace_length _ _ _ _ _ _ _ Hedges) as Hlen.
  split; [exact Hlast |].
  apply cut_ok_inv in Hcut.
  destruct Hcut as (b0 & rest & E & Hm & _ & ->).
  exists (mkCat (length bins - 1) (map (cut_code bins b0) (col_x df))).
  split; [reflexivity |]. split; [cbn [ncat]; now rewrite Hlen |].
  intros i Hi. cbn [codes]. rewrite nth_error_map, Hi. cbn [option_map].
  f_equal. subst bins. eapply cut_code_above; eassumption.
Qed.

(** The samples [1] and [2] over the range [(1, 2)] with two edges, the
    last of which is the double below 2: the sample at 2 has no bucket. *)
Lemma upper_end_run :
  Doubles.bin_by_values vlog power_below_two (fun r => r)
    (mkDF [0%nat; 1%nat] [Fin 1; Fin 2] [Fin 1; Fin 3] None None)
    (Fin 1, Fin 2) 2 "log"
  = Ok (mkDF [0%nat; 1%nat] [Fin 1; Fin 2] [Fin 1; Fin 3] None
             (Some (mkCat 1 [Some 0%nat; None])),
        [(0%nat, [0%nat])],
        [Fin 1; Fin (2 - / 2 ^ 52)]).
Proof.
  assert (Ht : 0 < / 2 ^ 52) by (apply Rinv_0_lt_compat, pow_lt; lra).
  assert (Ht1 : / 2 ^ 52 < 1).
  { rewrite <- Rinv_1. apply Rinv_lt_contravar; [| ].
    - rewrite Rmult_1_l. apply pow_lt; lra.
    - apply Rlt_pow_R1; [lra | lia]. }
  pose proof ln_2_pos as L2.
  unfold Doubles.bin_by_values, Doubles.logspace, Doubles.linspace,
    Doubles.radd, Doubles.rsub, Doubles.rmul, Doubles.rdiv.
  cbn [String.eqb Ascii.eqb Bool.eqb fst snd].
  rewrite !vlog_fin by lra. rewrite ln_1.
  change (2 <? 0)%Z with false. change (1 <? 2)%Z with true.
  change (0 <? 2 - 1)%Z with true. change (Z.to_nat 2) with 2%nat.
  change (2 - 1)%Z with 1%Z.
  cbn [seq map INR vsub vadd vopp vdiv Doubles.rnd].
  rewrite (Reqb_false 1 0) by lra. cbn [veqb Doubles.rnd].
  rewrite (Reqb_false ((ln 2 + - 0) / 1) 0) by lra.
  cbn [map vmul vadd Doubles.rnd set_last removelast app bind].
  unfold power_below_two at 1. cbn [veqb].
  rewrite (Reqb_false (0 * ((ln 2 + - 0) / 1) + 0) (ln 2)) by lra.
  unfold power_below_two. cbn [veqb]. rewrite (Reqb_true (ln 2) (ln 2)) by lra.
  rewrite vpow_np_e. cbn [vexp].
  replace (0 * ((ln 2 + - 0) / 1) + 0) with 0 by lra. rewrite exp_0.
  repeat run_step. unfold cut. repeat run_step.
  unfold cut_code, searchsorted_left. repeat run_step.
  reflexivity.
Qed.

Lemma C7_upper_end_left_out_witness :
  last [Fin 1; Fin (2 - / 2 ^ 52)] NaN = Fin (2 - / 2 ^ 52)
  /\ exists c,
       col_bin (mkDF [0%nat; 1%nat] [Fin 1; Fin 2] [Fin 1; Fin 3] None
                     (Some (mkCat 1 [Some 0%nat; None])))
       = Some c
       /\ ncat c = (Z.to_nat 2 - 1)%nat
       /\ (forall i, nth_error [Fin 1; Fin 2] i = Some (Fin 2) ->
                     nth_error (codes c) i = Some None).
Proof.
  apply (C7_upper_end_left_out vlog power_below_two (fun r => r)
           (mkDF [0%nat; 1%nat] [Fin 1; Fin 2] [Fin 1; Fin 3] None None)
           1 2 (2 - / 2 ^ 52) 2
           (mkDF [0%nat; 1%nat] [Fin 1; Fin 2] [Fin 1; Fin 3] None
                 (Some (mkCat 1 [Some 0%nat; None])))
           [(0%nat, [0%nat])]
           [Fin 1; Fin (2 - / 2 ^ 52)]).
  - lia.
  - rewrite vlog_fin by lra. unfold power_below_two. cbn [veqb].
    now rewrite Reqb_true.
  - assert (0 < / 2 ^ 52) by (apply Rinv_0_lt_compat, pow_lt; lra). lra.
  - exact upper_end_run.
Defined.

(** ** The aggregated [x] of the buckets with [np.log] and [np.exp] as
    they are computed *)



Section Grouped_x_doubles.

Variables (np_log np_exp : val -> val).
Variables (b0 : val) (rest : list val) (rx : list R).
Hypothesis bins_monotonic : is_monotonic_increasing (b0 :: rest) = true.
Hypothesis rx_positive : forall r, In r rx -> 0 < r.
Hypothesis libm : log_exp_monotone np_log np_exp rx.

Let cs : list (option nat) := map (cut_code (b0 :: rest) b0) (map Fin rx).

Variable agg : list val -> val.
Hypothesis agg_between : between agg.





End Grouped_x_doubles.

(** The exact logarithm and exponential are an instance. *)
Lemma log_exp_monotone_exact (rx : list R) :
  (forall r, In r rx -> 0 < r) -> log_exp_monotone vlog vexp rx.
Proof.
  intros Hpos. split.
  - intros x y Hx Hy Hle. exists (ln x), (ln y).
    rewrite !vlog_fin by (now apply Hpos).
    split; [reflexivity |]. split; [reflexivity |].
    destruct Hle as [Hlt | ->]; [| lra].
    left. apply ln_increasing; [now apply Hpos | exact Hlt].
  - intros x y a b l l' _ _ _ _ _ Hll _.
    exists (exp l), (exp l'). cbn [vexp].
    split; [reflexivity |]. split; [reflexivity |].
    split; [apply exp_pos |].
    destruct Hll as [Hlt | ->]; [| lra].
    left. now apply exp_increasing.
Qed.

(** ** The steps of the aggregator in double precision *)


Section Doubles_pipeline.

Variables (np_log np_exp : val -> val) (np_power : val -> val -> val).
Variable fl : R -> R.
Variable curve_fit :
  (val -> val -> result val) -> list val -> list val -> result val.
Variable LSQUnivariateSpline :
  list val -> list val -> list val -> result (val -> val).



End Doubles_pipeline.


(** ** Degenerate slopes (C4) *)


